(** * Sense Switchboard: content mapper and preference store

    A shallow embedding of [src/backend/server.py]: the [ContentMapper]
    conversions (text to tones, colour to sound, number to pattern, content
    type detection), the [UserPreferences] store and the routes
    [/api/map/auto], [/api/map/number] and [/api/map/color], together with
    the properties the specification states about them and further
    properties of the code.

    Python values are embedded as follows.
    - [str] is a list of Unicode code points ([N]); [str_of] turns an
      ASCII literal into one.
    - [float] is IEEE binary64, as [spec_float] with 53 bits of precision
      and maximal exponent 1024, computed with the operations of
      [SpecFloat].
    - [int] is [Z].
    - A raised exception is the [Raise] case of [result].
    - JSON-like data (dict literals, request bodies, stored records) is
      [json]; a dict is an association list in insertion order. *)

From Stdlib Require Import ZArith NArith List String Ascii Bool Lia.
From Stdlib Require Import DecimalString HexadecimalString.
From Stdlib Require Import Floats.SpecFloat.
From stdpp Require Import base option list gmap.

Local Open Scope Z_scope.

(** ** Exceptions *)

Inductive exn :=
| TypeError | ValueError | ZeroDivisionError | OverflowError
| AttributeError | IndexError | KeyError.

Inductive result (A : Type) : Type :=
| Ok (a : A)
| Raise (e : exn).
Arguments Ok {A} a.
Arguments Raise {A} e.

#[global] Instance result_ret : MRet result := @Ok.
#[global] Instance result_bind : MBind result :=
  fun A B f m => match m with Ok a => f a | Raise e => Raise e end.

Definition is_ok {A} (r : result A) : bool :=
  match r with Ok _ => true | Raise _ => false end.

(** ** Strings *)

Abbreviation str := (list N).

Fixpoint str_of (s : string) : str :=
  match s with
  | EmptyString => []
  | String a r => N_of_ascii a :: str_of r
  end.
Arguments str_of : simpl never.

Module Unicode.
Local Open Scope N_scope.

(** [str.isspace] on one code point (Unicode 14.0.0, CPython 3.11). *)
Definition isspace (c : N) : bool :=
  (9 <=? c) && (c <=? 13) || (28 <=? c) && (c <=? 32) || (c =? 0x85)
  || (c =? 0xA0) || (c =? 0x1680) || (0x2000 <=? c) && (c <=? 0x200A)
  || (c =? 0x2028) || (c =? 0x2029) || (c =? 0x202F) || (c =? 0x205F)
  || (c =? 0x3000).

(** Simple uppercase mappings: every code point [c] with [lo <= c <= hi]
    and [c - lo] a multiple of [step] has the one-character uppercase
    [c + delta]. *)
Definition upper_simple : list (N * N * N * Z) :=
 [
  (0x61, 0x7A, 1, (-32)%Z); (0xB5, 0xB5, 1, 743%Z); (0xE0, 0xF6, 1, (-32)%Z); (0xF8, 0xFE, 1, (-32)%Z);
  (0xFF, 0xFF, 1, 121%Z); (0x101, 0x12F, 2, (-1)%Z); (0x131, 0x131, 1, (-232)%Z);
  (0x133, 0x137, 2, (-1)%Z); (0x13A, 0x148, 2, (-1)%Z); (0x14B, 0x177, 2, (-1)%Z);
  (0x17A, 0x17E, 2, (-1)%Z); (0x17F, 0x17F, 1, (-300)%Z); (0x180, 0x180, 1, 195%Z);
  (0x183, 0x185, 2, (-1)%Z); (0x188, 0x188, 1, (-1)%Z); (0x18C, 0x18C, 1, (-1)%Z);
  (0x192, 0x192, 1, (-1)%Z); (0x195, 0x195, 1, 97%Z); (0x199, 0x199, 1, (-1)%Z);
  (0x19A, 0x19A, 1, 163%Z); (0x19E, 0x19E, 1, 130%Z); (0x1A1, 0x1A5, 2, (-1)%Z);
  (0x1A8, 0x1A8, 1, (-1)%Z); (0x1AD, 0x1AD, 1, (-1)%Z); (0x1B0, 0x1B0, 1, (-1)%Z);
  (0x1B4, 0x1B6, 2, (-1)%Z); (0x1B9, 0x1B9, 1, (-1)%Z); (0x1BD, 0x1BD, 1, (-1)%Z);
  (0x1BF, 0x1BF, 1, 56%Z); (0x1C5, 0x1C5, 1, (-1)%Z); (0x1C6, 0x1C6, 1, (-2)%Z);
  (0x1C8, 0x1C8, 1, (-1)%Z); (0x1C9, 0x1C9, 1, (-2)%Z); (0x1CB, 0x1CB, 1, (-1)%Z);
  (0x1CC, 0x1CC, 1, (-2)%Z); (0x1CE, 0x1DC, 2, (-1)%Z); (0x1DD, 0x1DD, 1, (-79)%Z);
  (0x1DF, 0x1EF, 2, (-1)%Z); (0x1F2, 0x1F2, 1, (-1)%Z); (0x1F3, 0x1F3, 1, (-2)%Z);
  (0x1F5, 0x1F5, 1, (-1)%Z); (0x1F9, 0x21F, 2, (-1)%Z); (0x223, 0x233, 2, (-1)%Z);
  (0x23C, 0x23C, 1, (-1)%Z); (0x23F, 0x240, 1, 10815%Z); (0x242, 0x242, 1, (-1)%Z);
  (0x247, 0x24F, 2, (-1)%Z); (0x250, 0x250, 1, 10783%Z); (0x251, 0x251, 1, 10780%Z);
  (0x252, 0x252, 1, 10782%Z); (0x253, 0x253, 1, (-210)%Z); (0x254, 0x254, 1, (-206)%Z);
  (0x256, 0x257, 1, (-205)%Z); (0x259, 0x259, 1, (-202)%Z); (0x25B, 0x25B, 1, (-203)%Z);
  (0x25C, 0x25C, 1, 42319%Z); (0x260, 0x260, 1, (-205)%Z); (0x261, 0x261, 1, 42315%Z);
  (0x263, 0x263, 1, (-207)%Z); (0x265, 0x265, 1, 42280%Z); (0x266, 0x266, 1, 42308%Z);
  (0x268, 0x268, 1, (-209)%Z); (0x269, 0x269, 1, (-211)%Z); (0x26A, 0x26A, 1, 42308%Z);
  (0x26B, 0x26B, 1, 10743%Z); (0x26C, 0x26C, 1, 42305%Z); (0x26F, 0x26F, 1, (-211)%Z);
  (0x271, 0x271, 1, 10749%Z); (0x272, 0x272, 1, (-213)%Z); (0x275, 0x275, 1, (-214)%Z);
  (0x27D, 0x27D, 1, 10727%Z); (0x280, 0x280, 1, (-218)%Z); (0x282, 0x282, 1, 42307%Z);
  (0x283, 0x283, 1, (-218)%Z); (0x287, 0x287, 1, 42282%Z); (0x288, 0x288, 1, (-218)%Z);
  (0x289, 0x289, 1, (-69)%Z); (0x28A, 0x28B, 1, (-217)%Z); (0x28C, 0x28C, 1, (-71)%Z);
  (0x292, 0x292, 1, (-219)%Z); (0x29D, 0x29D, 1, 42261%Z); (0x29E, 0x29E, 1, 42258%Z);
  (0x345, 0x345, 1, 84%Z); (0x371, 0x373, 2, (-1)%Z); (0x377, 0x377, 1, (-1)%Z);
  (0x37B, 0x37D, 1, 130%Z); (0x3AC, 0x3AC, 1, (-38)%Z); (0x3AD, 0x3AF, 1, (-37)%Z);
  (0x3B1, 0x3C1, 1, (-32)%Z); (0x3C2, 0x3C2, 1, (-31)%Z); (0x3C3, 0x3CB, 1, (-32)%Z);
  (0x3CC, 0x3CC, 1, (-64)%Z); (0x3CD, 0x3CE, 1, (-63)%Z); (0x3D0, 0x3D0, 1, (-62)%Z);
  (0x3D1, 0x3D1, 1, (-57)%Z); (0x3D5, 0x3D5, 1, (-47)%Z); (0x3D6, 0x3D6, 1, (-54)%Z);
  (0x3D7, 0x3D7, 1, (-8)%Z); (0x3D9, 0x3EF, 2, (-1)%Z); (0x3F0, 0x3F0, 1, (-86)%Z);
  (0x3F1, 0x3F1, 1, (-80)%Z); (0x3F2, 0x3F2, 1, 7%Z); (0x3F3, 0x3F3, 1, (-116)%Z);
  (0x3F5, 0x3F5, 1, (-96)%Z); (0x3F8, 0x3F8, 1, (-1)%Z); (0x3FB, 0x3FB, 1, (-1)%Z);
  (0x430, 0x44F, 1, (-32)%Z); (0x450, 0x45F, 1, (-80)%Z); (0x461, 0x481, 2, (-1)%Z);
  (0x48B, 0x4BF, 2, (-1)%Z); (0x4C2, 0x4CE, 2, (-1)%Z); (0x4CF, 0x4CF, 1, (-15)%Z);
  (0x4D1, 0x52F, 2, (-1)%Z); (0x561, 0x586, 1, (-48)%Z); (0x10D0, 0x10FA, 1, 3008%Z);
  (0x10FD, 0x10FF, 1, 3008%Z); (0x13F8, 0x13FD, 1, (-8)%Z); (0x1C80, 0x1C80, 1, (-6254)%Z);
  (0x1C81, 0x1C81, 1, (-6253)%Z); (0x1C82, 0x1C82, 1, (-6244)%Z); (0x1C83, 0x1C84, 1, (-6242)%Z);
  (0x1C85, 0x1C85, 1, (-6243)%Z); (0x1C86, 0x1C86, 1, (-6236)%Z); (0x1C87, 0x1C87, 1, (-6181)%Z);
  (0x1C88, 0x1C88, 1, 35266%Z); (0x1D79, 0x1D79, 1, 35332%Z); (0x1D7D, 0x1D7D, 1, 3814%Z);
  (0x1D8E, 0x1D8E, 1, 35384%Z); (0x1E01, 0x1E95, 2, (-1)%Z); (0x1E9B, 0x1E9B, 1, (-59)%Z);
  (0x1EA1, 0x1EFF, 2, (-1)%Z); (0x1F00, 0x1F07, 1, 8%Z); (0x1F10, 0x1F15, 1, 8%Z);
  (0x1F20, 0x1F27, 1, 8%Z); (0x1F30, 0x1F37, 1, 8%Z); (0x1F40, 0x1F45, 1, 8%Z);
  (0x1F51, 0x1F57, 2, 8%Z); (0x1F60, 0x1F67, 1, 8%Z); (0x1F70, 0x1F71, 1, 74%Z);
  (0x1F72, 0x1F75, 1, 86%Z); (0x1F76, 0x1F77, 1, 100%Z); (0x1F78, 0x1F79, 1, 128%Z);
  (0x1F7A, 0x1F7B, 1, 112%Z); (0x1F7C, 0x1F7D, 1, 126%Z); (0x1FB0, 0x1FB1, 1, 8%Z);
  (0x1FBE, 0x1FBE, 1, (-7205)%Z); (0x1FD0, 0x1FD1, 1, 8%Z); (0x1FE0, 0x1FE1, 1, 8%Z);
  (0x1FE5, 0x1FE5, 1, 7%Z); (0x214E, 0x214E, 1, (-28)%Z); (0x2170, 0x217F, 1, (-16)%Z);
  (0x2184, 0x2184, 1, (-1)%Z); (0x24D0, 0x24E9, 1, (-26)%Z); (0x2C30, 0x2C5F, 1, (-48)%Z);
  (0x2C61, 0x2C61, 1, (-1)%Z); (0x2C65, 0x2C65, 1, (-10795)%Z); (0x2C66, 0x2C66, 1, (-10792)%Z);
  (0x2C68, 0x2C6C, 2, (-1)%Z); (0x2C73, 0x2C73, 1, (-1)%Z); (0x2C76, 0x2C76, 1, (-1)%Z);
  (0x2C81, 0x2CE3, 2, (-1)%Z); (0x2CEC, 0x2CEE, 2, (-1)%Z); (0x2CF3, 0x2CF3, 1, (-1)%Z);
  (0x2D00, 0x2D25, 1, (-7264)%Z); (0x2D27, 0x2D27, 1, (-7264)%Z); (0x2D2D, 0x2D2D, 1, (-7264)%Z);
  (0xA641, 0xA66D, 2, (-1)%Z); (0xA681, 0xA69B, 2, (-1)%Z); (0xA723, 0xA72F, 2, (-1)%Z);
  (0xA733, 0xA76F, 2, (-1)%Z); (0xA77A, 0xA77C, 2, (-1)%Z); (0xA77F, 0xA787, 2, (-1)%Z);
  (0xA78C, 0xA78C, 1, (-1)%Z); (0xA791, 0xA793, 2, (-1)%Z); (0xA794, 0xA794, 1, 48%Z);
  (0xA797, 0xA7A9, 2, (-1)%Z); (0xA7B5, 0xA7C3, 2, (-1)%Z); (0xA7C8, 0xA7CA, 2, (-1)%Z);
  (0xA7D1, 0xA7D1, 1, (-1)%Z); (0xA7D7, 0xA7D9, 2, (-1)%Z); (0xA7F6, 0xA7F6, 1, (-1)%Z);
  (0xAB53, 0xAB53, 1, (-928)%Z); (0xAB70, 0xABBF, 1, (-38864)%Z); (0xFF41, 0xFF5A, 1, (-32)%Z);
  (0x10428, 0x1044F, 1, (-40)%Z); (0x104D8, 0x104FB, 1, (-40)%Z); (0x10597, 0x105A1, 1, (-39)%Z);
  (0x105A3, 0x105B1, 1, (-39)%Z); (0x105B3, 0x105B9, 1, (-39)%Z); (0x105BB, 0x105BC, 1, (-39)%Z);
  (0x10CC0, 0x10CF2, 1, (-64)%Z); (0x118C0, 0x118DF, 1, (-32)%Z); (0x16E60, 0x16E7F, 1, (-32)%Z);
  (0x1E922, 0x1E943, 1, (-34)%Z)
 ]%N.

(** Code points whose uppercase is not one character (SpecialCasing). *)
Definition upper_special : list (N * list N) :=
 [
  (0xDF, [0x53; 0x53]); (0x149, [0x2BC; 0x4E]); (0x1F0, [0x4A; 0x30C]);
  (0x390, [0x399; 0x308; 0x301]); (0x3B0, [0x3A5; 0x308; 0x301]); (0x587, [0x535; 0x552]);
  (0x1E96, [0x48; 0x331]); (0x1E97, [0x54; 0x308]); (0x1E98, [0x57; 0x30A]);
  (0x1E99, [0x59; 0x30A]); (0x1E9A, [0x41; 0x2BE]); (0x1F50, [0x3A5; 0x313]);
  (0x1F52, [0x3A5; 0x313; 0x300]); (0x1F54, [0x3A5; 0x313; 0x301]);
  (0x1F56, [0x3A5; 0x313; 0x342]); (0x1F80, [0x1F08; 0x399]); (0x1F81, [0x1F09; 0x399]);
  (0x1F82, [0x1F0A; 0x399]); (0x1F83, [0x1F0B; 0x399]); (0x1F84, [0x1F0C; 0x399]);
  (0x1F85, [0x1F0D; 0x399]); (0x1F86, [0x1F0E; 0x399]); (0x1F87, [0x1F0F; 0x399]);
  (0x1F88, [0x1F08; 0x399]); (0x1F89, [0x1F09; 0x399]); (0x1F8A, [0x1F0A; 0x399]);
  (0x1F8B, [0x1F0B; 0x399]); (0x1F8C, [0x1F0C; 0x399]); (0x1F8D, [0x1F0D; 0x399]);
  (0x1F8E, [0x1F0E; 0x399]); (0x1F8F, [0x1F0F; 0x399]); (0x1F90, [0x1F28; 0x399]);
  (0x1F91, [0x1F29; 0x399]); (0x1F92, [0x1F2A; 0x399]); (0x1F93, [0x1F2B; 0x399]);
  (0x1F94, [0x1F2C; 0x399]); (0x1F95, [0x1F2D; 0x399]); (0x1F96, [0x1F2E; 0x399]);
  (0x1F97, [0x1F2F; 0x399]); (0x1F98, [0x1F28; 0x399]); (0x1F99, [0x1F29; 0x399]);
  (0x1F9A, [0x1F2A; 0x399]); (0x1F9B, [0x1F2B; 0x399]); (0x1F9C, [0x1F2C; 0x399]);
  (0x1F9D, [0x1F2D; 0x399]); (0x1F9E, [0x1F2E; 0x399]); (0x1F9F, [0x1F2F; 0x399]);
  (0x1FA0, [0x1F68; 0x399]); (0x1FA1, [0x1F69; 0x399]); (0x1FA2, [0x1F6A; 0x399]);
  (0x1FA3, [0x1F6B; 0x399]); (0x1FA4, [0x1F6C; 0x399]); (0x1FA5, [0x1F6D; 0x399]);
  (0x1FA6, [0x1F6E; 0x399]); (0x1FA7, [0x1F6F; 0x399]); (0x1FA8, [0x1F68; 0x399]);
  (0x1FA9, [0x1F69; 0x399]); (0x1FAA, [0x1F6A; 0x399]); (0x1FAB, [0x1F6B; 0x399]);
  (0x1FAC, [0x1F6C; 0x399]); (0x1FAD, [0x1F6D; 0x399]); (0x1FAE, [0x1F6E; 0x399]);
  (0x1FAF, [0x1F6F; 0x399]); (0x1FB2, [0x1FBA; 0x399]); (0x1FB3, [0x391; 0x399]);
  (0x1FB4, [0x386; 0x399]); (0x1FB6, [0x391; 0x342]); (0x1FB7, [0x391; 0x342; 0x399]);
  (0x1FBC, [0x391; 0x399]); (0x1FC2, [0x1FCA; 0x399]); (0x1FC3, [0x397; 0x399]);
  (0x1FC4, [0x389; 0x399]); (0x1FC6, [0x397; 0x342]); (0x1FC7, [0x397; 0x342; 0x399]);
  (0x1FCC, [0x397; 0x399]); (0x1FD2, [0x399; 0x308; 0x300]); (0x1FD3, [0x399; 0x308; 0x301]);
  (0x1FD6, [0x399; 0x342]); (0x1FD7, [0x399; 0x308; 0x342]); (0x1FE2, [0x3A5; 0x308; 0x300]);
  (0x1FE3, [0x3A5; 0x308; 0x301]); (0x1FE4, [0x3A1; 0x313]); (0x1FE6, [0x3A5; 0x342]);
  (0x1FE7, [0x3A5; 0x308; 0x342]); (0x1FF2, [0x1FFA; 0x399]); (0x1FF3, [0x3A9; 0x399]);
  (0x1FF4, [0x38F; 0x399]); (0x1FF6, [0x3A9; 0x342]); (0x1FF7, [0x3A9; 0x342; 0x399]);
  (0x1FFC, [0x3A9; 0x399]); (0xFB00, [0x46; 0x46]); (0xFB01, [0x46; 0x49]);
  (0xFB02, [0x46; 0x4C]); (0xFB03, [0x46; 0x46; 0x49]); (0xFB04, [0x46; 0x46; 0x4C]);
  (0xFB05, [0x53; 0x54]); (0xFB06, [0x53; 0x54]); (0xFB13, [0x544; 0x546]);
  (0xFB14, [0x544; 0x535]); (0xFB15, [0x544; 0x53B]); (0xFB16, [0x54E; 0x546]);
  (0xFB17, [0x544; 0x53D])
 ]%N.

(** Code points of decimal digit zero; the nine that follow each are the
    digits one to nine of the same script (general category Nd). *)
Definition decimal_zeros : list N :=
 [
  0x30; 0x660; 0x6F0; 0x7C0; 0x966; 0x9E6; 0xA66; 0xAE6; 0xB66; 0xBE6; 0xC66; 0xCE6; 0xD66;
  0xDE6; 0xE50; 0xED0; 0xF20; 0x1040; 0x1090; 0x17E0; 0x1810; 0x1946; 0x19D0; 0x1A80; 0x1A90;
  0x1B50; 0x1BB0; 0x1C40; 0x1C50; 0xA620; 0xA8D0; 0xA900; 0xA9D0; 0xA9F0; 0xAA50; 0xABF0;
  0xFF10; 0x104A0; 0x10D30; 0x11066; 0x110F0; 0x11136; 0x111D0; 0x112F0; 0x11450; 0x114D0;
  0x11650; 0x116C0; 0x11730; 0x118E0; 0x11950; 0x11C50; 0x11D50; 0x11DA0; 0x16A60; 0x16AC0;
  0x16B50; 0x1D7CE; 0x1D7D8; 0x1D7E2; 0x1D7EC; 0x1D7F6; 0x1E140; 0x1E2F0; 0x1E950; 0x1FBF0
 ]%N.

Definition upper_simple_of (c : N) : N :=
  match find (fun '(lo, hi, step, _) =>
                (lo <=? c) && (c <=? hi) && ((c - lo) mod step =? 0))
             upper_simple with
  | Some (_, _, _, delta) => Z.to_N (Z.of_N c + delta)
  | None => c
  end.

Definition upper_char (c : N) : str :=
  match find (fun e => fst e =? c) upper_special with
  | Some (_, u) => u
  | None => [upper_simple_of c]
  end.

Definition decimal_value (c : N) : option N :=
  match find (fun z => (z <=? c) && (c <? z + 10)) decimal_zeros with
  | Some z => Some (c - z)
  | None => None
  end.

End Unicode.

(** [s.upper()] *)
Definition upper (s : str) : str := flat_map Unicode.upper_char s.

Fixpoint lstrip_with (p : N -> bool) (s : str) : str :=
  match s with
  | c :: r => if p c then lstrip_with p r else s
  | [] => []
  end.

Definition rstrip_with (p : N -> bool) (s : str) : str :=
  rev (lstrip_with p (rev s)).

(** [s.strip()] *)
Definition strip (s : str) : str :=
  rstrip_with Unicode.isspace (lstrip_with Unicode.isspace s).

(** [c in chars] *)
Definition str_contains (chars : str) (c : N) : bool := existsb (N.eqb c) chars.

(** [s.lstrip(chars)] *)
Definition lstrip (chars s : str) : str := lstrip_with (str_contains chars) s.

(** [s.startswith(p)] *)
Fixpoint startswith (p s : str) : bool :=
  match p, s with
  | [], _ => true
  | a :: p', b :: s' => (a =? b)%N && startswith p' s'
  | _ :: _, [] => false
  end.

(** [ord(s)]: a [TypeError] unless [s] has exactly one character. *)
Definition ord (s : str) : result Z :=
  match s with
  | [c] => Ok (Z.of_N c)
  | _ => Raise TypeError
  end.

(** [s[i:j]] for [0 <= i <= j] *)
Definition slice (i j : nat) (s : str) : str := take (j - i) (drop i s).

(** ** Floating point: IEEE binary64 *)

Abbreviation float := spec_float.

Module F64.

Definition prec : Z := 53.
Definition emax : Z := 1024.

Definition zero : float := S754_zero false.
Definition of_Z (z : Z) : float := binary_normalize prec emax z 0 false.

Definition add : float -> float -> float := SFadd prec emax.
Definition sub : float -> float -> float := SFsub prec emax.
Definition mul : float -> float -> float := SFmul prec emax.
Definition eqb : float -> float -> bool := SFeqb.
Definition ltb : float -> float -> bool := SFltb.
Definition leb : float -> float -> bool := SFleb.
Definition abs : float -> float := SFabs.

Definition is_finite (x : float) : bool :=
  match x with
  | S754_zero _ | S754_finite _ _ _ => true
  | S754_infinity _ | S754_nan => false
  end.

Definition signbit (x : float) : bool :=
  match x with
  | S754_zero s | S754_infinity s | S754_finite s _ _ => s
  | S754_nan => false
  end.

(** The quotient [n / d] of two integers ([d > 0]) rounded to the nearest
    float, ties to even: the quotient is taken with 1080 fractional bits
    and a sticky bit, below every rounding boundary of the format. *)
Definition of_ratio (n d : Z) : float :=
  let a := Z.abs n * 2 ^ 1080 in
  let q := a / d in
  let sticky := if a mod d =? 0 then 0 else 1 in
  binary_normalize prec emax (cond_Zopp (n <? 0) (2 * q + sticky)) (-1081) (n <? 0).

(** [x / y] on floats *)
Definition div (x y : float) : result float :=
  if eqb y zero then Raise ZeroDivisionError else Ok (SFdiv prec emax x y).

(** [a / b] on ints (true division): the correctly rounded quotient, an
    [OverflowError] when it is too large for a float. *)
Definition int_truediv (a b : Z) : result float :=
  if b =? 0 then Raise ZeroDivisionError
  else
    let q := if b <? 0 then of_ratio (- a) (- b) else of_ratio a b in
    if is_finite q then Ok q else Raise OverflowError.

(** C [fmod]: the exact remainder, with the sign of [x]. *)
Definition fmod (x y : float) : float :=
  match x, y with
  | S754_nan, _ | _, S754_nan => S754_nan
  | S754_infinity _, _ => S754_nan
  | _, S754_zero _ => S754_nan
  | S754_zero _, _ => x
  | S754_finite _ _ _, S754_infinity _ => x
  | S754_finite sx mx ex, S754_finite _ my ey =>
      let e := Z.min ex ey in
      let X := Zpos mx * 2 ^ (ex - e) in
      let Y := Zpos my * 2 ^ (ey - e) in
      binary_normalize prec emax (cond_Zopp sx (X mod Y)) e sx
  end.

(** [x % y] on floats ([float_rem]) *)
Definition rem (vx wx : float) : result float :=
  if eqb wx zero then Raise ZeroDivisionError
  else
    let r := fmod vx wx in
    if negb (eqb r zero) then
      if xorb (ltb wx zero) (ltb r zero) then Ok (add r wx) else Ok r
    else Ok (S754_zero (signbit wx)).

(** C [floor] *)
Definition floor (x : float) : float :=
  match x with
  | S754_finite s m e =>
      if 0 <=? e then x
      else
        let q := Zpos m / 2 ^ (- e) in
        let exact := Zpos m mod 2 ^ (- e) =? 0 in
        if s then binary_normalize prec emax (- (if exact then q else q + 1)) 0 true
        else binary_normalize prec emax q 0 false
  | _ => x
  end.

(** [x // y] on floats ([float_floor_div]) *)
Definition floordiv (vx wx : float) : result float :=
  if eqb wx zero then Raise ZeroDivisionError
  else
    let r := fmod vx wx in
    let q := SFdiv prec emax (sub vx r) wx in
    let q :=
      if negb (eqb r zero) && xorb (ltb wx zero) (ltb r zero)
      then sub q (of_Z 1) else q in
    if negb (eqb q zero) then
      let fl := floor q in
      if ltb (of_ratio 1 2) (sub q fl) then Ok (add fl (of_Z 1)) else Ok fl
    else Ok (S754_zero (signbit (SFdiv prec emax vx wx))).

(** [int(x)]: truncation towards zero *)
Definition to_int (x : float) : result Z :=
  match x with
  | S754_nan => Raise ValueError
  | S754_infinity _ => Raise OverflowError
  | S754_zero _ => Ok 0
  | S754_finite s m e =>
      Ok (cond_Zopp s (if 0 <=? e then Zpos m * 2 ^ e else Zpos m / 2 ^ (- e)))
  end.

(** [round(x)] with no digits: the nearest int, ties to even *)
Definition round_int (x : float) : result Z :=
  match x with
  | S754_nan => Raise ValueError
  | S754_infinity _ => Raise OverflowError
  | S754_zero _ => Ok 0
  | S754_finite s m e =>
      if 0 <=? e then Ok (cond_Zopp s (Zpos m * 2 ^ e))
      else
        let q := Zpos m / 2 ^ (- e) in
        let r := Zpos m mod 2 ^ (- e) in
        let up :=
          match 2 * r ?= 2 ^ (- e) with
          | Lt => false
          | Gt => true
          | Eq => Z.odd q
          end in
        Ok (cond_Zopp s (if up then q + 1 else q))
  end.

(** The decimal [m * 10 ^ e] ([m >= 0]) as the nearest float, with the
    given sign. The two guards only cut off exponents so large that the
    value is beyond the largest float or below half the smallest one. *)
Definition of_decimal (neg : bool) (m e : Z) : float :=
  if m =? 0 then S754_zero neg
  else if 0 <=? e then
    if 1025 <=? Z.log2 m + 3 * e then S754_infinity neg
    else binary_normalize prec emax (cond_Zopp neg (m * 10 ^ e)) 0 neg
  else if Z.log2 m + 1 + 3 * e <? - 1076 then S754_zero neg
  else
    match of_ratio m (10 ^ (- e)) with
    | S754_zero _ => S754_zero neg
    | S754_infinity _ => S754_infinity neg
    | S754_finite _ mm ee => S754_finite neg mm ee
    | S754_nan => S754_nan
    end.

End F64.

(** ** Parsing numbers: [int(s, 16)] and [float(s)] *)

Module Parse.
Local Open Scope N_scope.

(** C [Py_ISSPACE] *)
Definition ascii_isspace (c : N) : bool := (9 <=? c) && (c <=? 13) || (c =? 32).

Definition is_digit (c : N) : bool := (48 <=? c) && (c <=? 57).

Definition tolower (c : N) : N := if (65 <=? c) && (c <=? 90) then c + 32 else c.

(** [_PyUnicode_TransformDecimalAndSpaceToASCII]: digits of any script
    become ASCII digits, any white space a blank; the first other
    character beyond ASCII becomes a question mark and ends the string. *)
Fixpoint transform_loop (s : str) : str :=
  match s with
  | [] => []
  | ch :: rest =>
      if ch <? 127 then ch :: transform_loop rest
      else if Unicode.isspace ch then 32 :: transform_loop rest
      else match Unicode.decimal_value ch with
           | Some d => (48 + d) :: transform_loop rest
           | None => [63]
           end
  end.

Definition transform_decimal_and_space (s : str) : str :=
  if forallb (fun c => c <? 128) s then s else transform_loop s.

(** Digit value in base 16 ([_PyLong_DigitValue] below 16) *)
Definition hex_digit_value (c : N) : option Z :=
  if (48 <=? c) && (c <=? 57) then Some (Z.of_N (c - 48))
  else if (97 <=? c) && (c <=? 102) then Some (Z.of_N (c - 87))
  else if (65 <=? c) && (c <=? 70) then Some (Z.of_N (c - 55))
  else None.

(** The digit loop of [PyLong_FromString]: digits with single
    underscores between them; the result is the value, the number of
    digits and the unread rest. *)
Fixpoint scan_digits16 (prev : N) (acc : Z) (digits : nat) (p : str)
  : option (Z * nat * str) :=
  match p with
  | c :: p' =>
      if c =? 95 then
        if prev =? 95 then None else scan_digits16 c acc digits p'
      else
        match hex_digit_value c with
        | Some d => scan_digits16 c (16 * acc + d)%Z (S digits) p'
        | None => if prev =? 95 then None else Some (acc, digits, p)
        end
  | [] => if prev =? 95 then None else Some (acc, digits, [])
  end.

Definition split_sign (s : str) : bool * str :=
  match s with
  | c :: r => if c =? 45 then (true, r) else if c =? 43 then (false, r) else (false, s)
  | [] => (false, s)
  end.

(** [int(u, 16)] *)
Definition int16 (u : str) : result Z :=
  let s := lstrip_with ascii_isspace (transform_decimal_and_space u) in
  let '(neg, s) := split_sign s in
  let s :=
    match s with
    | 48 :: x :: r =>
        if (x =? 120) || (x =? 88)
        then match r with 95 :: r' => r' | _ => r end
        else s
    | _ => s
    end in
  match s with
  | 95 :: _ => Raise ValueError
  | _ =>
      match scan_digits16 0 0%Z 0%nat s with
      | Some (z, S _, rest) =>
          match lstrip_with ascii_isspace rest with
          | [] => Ok (if neg then (- z)%Z else z)
          | _ => Raise ValueError
          end
      | _ => Raise ValueError
      end
  end.

Fixpoint span (p : N -> bool) (s : str) : str * str :=
  match s with
  | c :: r => if p c then let '(a, b) := span p r in (c :: a, b) else ([], s)
  | [] => ([], [])
  end.

Definition digits_value (ds : str) : Z :=
  fold_left (fun acc c => (10 * acc + Z.of_N (c - 48))%Z) ds 0%Z.

(** The underscore rule of [_Py_string_to_number_with_underscores]: an
    underscore stands between two digits; the underscores are removed. *)
Fixpoint remove_underscores (prev : N) (s : str) : option str :=
  match s with
  | [] => if prev =? 95 then None else Some []
  | c :: r =>
      if c =? 95 then
        if is_digit prev then remove_underscores c r else None
      else if (prev =? 95) && negb (is_digit c) then None
      else cons c <$> remove_underscores c r
  end.

Definition case_insensitive_match (s t : str) : option str :=
  if (length t <=? length s)%nat && bool_decide (map tolower (take (length t) s) = t)
  then Some (drop (length t) s) else None.

(** [_Py_parse_inf_or_nan], on the whole string *)
Definition parse_inf_or_nan (s : str) : option float :=
  let '(neg, s) := split_sign s in
  match case_insensitive_match s (str_of "inf") with
  | Some r =>
      let r := match case_insensitive_match r (str_of "inity") with
               | Some r' => r'
               | None => r
               end in
      match r with [] => Some (S754_infinity neg) | _ => None end
  | None =>
      match case_insensitive_match s (str_of "nan") with
      | Some [] => Some S754_nan
      | _ => None
      end
  end.

(** [PyOS_string_to_double], on the whole string: a decimal number with
    optional fraction and exponent, else an infinity or a NaN. *)
Definition string_to_double (s : str) : option float :=
  let '(neg, s1) := split_sign s in
  let '(ip, s2) := span is_digit s1 in
  let '(fp, s3) := match s2 with 46 :: r => span is_digit r | _ => ([], s2) end in
  match ip ++ fp with
  | [] => parse_inf_or_nan s
  | ds =>
      let m := digits_value ds in
      let fraclen := Z.of_nat (length fp) in
      match s3 with
      | [] => Some (F64.of_decimal neg m (- fraclen))
      | c :: r =>
          if (c =? 101) || (c =? 69) then
            let '(esign, r1) := split_sign r in
            let '(ed, r2) := span is_digit r1 in
            match ed, r2 with
            | _ :: _, [] =>
                Some (F64.of_decimal neg m
                        (cond_Zopp esign (digits_value ed) - fraclen))
            | _, _ => None
            end
          else None
      end
  end.

(** [float(u)] for a string [u] *)
Definition float_of_str (u : str) : result float :=
  let s := lstrip_with ascii_isspace (transform_decimal_and_space u) in
  match s with
  | [] => Raise ValueError
  | _ =>
      let s := rstrip_with ascii_isspace s in
      let s' := if str_contains s 95 then remove_underscores 0 s else Some s in
      match s' ≫= string_to_double with
      | Some x => Ok x
      | None => Raise ValueError
      end
  end.

End Parse.

(** ** ints *)

(** [a % b] and [a // b] on ints *)
Definition int_mod (a b : Z) : result Z :=
  if b =? 0 then Raise ZeroDivisionError else Ok (a mod b).

Definition int_floordiv (a b : Z) : result Z :=
  if b =? 0 then Raise ZeroDivisionError else Ok (a / b).

(** [l[i]] *)
Definition list_index {A} (l : list A) (i : Z) : result A :=
  let i := if i <? 0 then i + Z.of_nat (length l) else i in
  if i <? 0 then Raise IndexError
  else match l !! Z.to_nat i with
       | Some x => Ok x
       | None => Raise IndexError
       end.

(** [str(z)] *)
Definition str_of_int (z : Z) : str :=
  str_of (DecimalString.NilZero.string_of_int (Z.to_int z)).

(** [format(z, "02x")]: lower-case hexadecimal, the sign first, padded
    with zeros to two characters. *)
Definition format_02x (z : Z) : str :=
  let digits :=
    str_of (HexadecimalString.NilZero.string_of_uint (N.to_hex_uint (Z.abs_N z))) in
  let body := if z <? 0 then 45%N :: digits else digits in
  if (length body <? 2)%nat then 48%N :: body else body.

(** ** JSON-like values and dicts *)

#[local] Set Warnings "-register-all".

Inductive json :=
| JNull
| JBool (b : bool)
| JInt (z : Z)
| JFloat (x : float)
| JStr (s : str)
| JList (l : list json)
| JObj (d : list (str * json)).

Abbreviation dict := (list (str * json)).

(** [d.get(k)] *)
Fixpoint dict_get (d : dict) (k : str) : option json :=
  match d with
  | [] => None
  | (k', v) :: r => if bool_decide (k' = k) then Some v else dict_get r k
  end.

(** [d[k] = v]: the value of an existing key is replaced in place, a new
    key goes last. *)
Fixpoint dict_set (d : dict) (k : str) (v : json) : dict :=
  match d with
  | [] => [(k, v)]
  | (k', v') :: r =>
      if bool_decide (k' = k) then (k, v) :: r else (k', v') :: dict_set r k v
  end.

(** [d.update(e)] *)
Definition dict_update (d e : dict) : dict :=
  fold_left (fun acc kv => dict_set acc kv.1 kv.2) e d.

(** A number that is an int or a float, as Python computes with both. *)
Inductive num :=
| Int (z : Z)
| Float (x : float).

Definition num_to_float (n : num) : float :=
  match n with Int z => F64.of_Z z | Float x => x end.

Definition num_to_json (n : num) : json :=
  match n with Int z => JInt z | Float x => JFloat x end.

(** ** ContentMapper *)

Section ContentMapper.

(** Functions of the host that are taken as given: [x ** y] for a
    positive base, [math.log2] on a positive argument, [round(x, n)] and
    [sum] over floats. *)
Variable pow : float -> float -> float.
Variable log2 : float -> float.
Variable round_ndigits : float -> Z -> float.
Variable sum_floats : list json -> json.

Definition PENTATONIC_SCALE : list Z := [0; 2; 4; 7; 9].
Definition MAJOR_SCALE : list Z := [0; 2; 4; 5; 7; 9; 11].
Definition MINOR_SCALE : list Z := [0; 2; 3; 5; 7; 8; 10].

Definition BASE_FREQUENCY : float := F64.of_Z 220.

Record ContentMapper := { scale : list Z; scale_name : str }.

Definition _get_scale (name : str) : list Z :=
  if bool_decide (name = str_of "pentatonic") then PENTATONIC_SCALE
  else if bool_decide (name = str_of "major") then MAJOR_SCALE
  else if bool_decide (name = str_of "minor") then MINOR_SCALE
  else PENTATONIC_SCALE.

Definition new_mapper (name : str) : ContentMapper :=
  {| scale := _get_scale name; scale_name := name |}.

Definition set_scale (self : ContentMapper) (name : str) : ContentMapper :=
  {| scale := _get_scale name; scale_name := name |}.

(** [math.log2(x)] *)
Definition math_log2 (x : float) : result float :=
  match x with
  | S754_nan => Ok S754_nan
  | _ => if F64.leb x F64.zero then Raise ValueError else Ok (log2 x)
  end.

Definition char_to_frequency (self : ContentMapper) (char : str) : result float :=
  if bool_decide (char = []) then Ok BASE_FREQUENCY
  else
    char_code ← ord (upper char);
    if (65 <=? char_code) && (char_code <=? 90) then
      let note_index := char_code - 65 in
      let len := Z.of_nat (length (scale self)) in
      scale_index ← int_mod note_index len;
      octaves ← int_floordiv note_index len;
      let octave_offset := octaves * 12 in
      interval ← list_index (scale self) scale_index;
      let semitones := interval + octave_offset in
      e ← F64.int_truediv semitones 12;
      Ok (F64.mul BASE_FREQUENCY (pow (F64.of_Z 2) e))
    else if (48 <=? char_code) && (char_code <=? 57) then
      let num_value := char_code - 48 in
      e ← F64.int_truediv num_value 12;
      Ok (F64.mul BASE_FREQUENCY (pow (F64.of_Z 2) e))
    else Ok BASE_FREQUENCY.

Definition notes : list str :=
  map str_of ["C"; "C#"; "D"; "D#"; "E"; "F"; "F#"; "G"; "G#"; "A"; "A#"; "B"]%string.

Definition _frequency_to_note (frequency : float) : result str :=
  if F64.leb frequency F64.zero then Ok (str_of "rest")
  else
    ratio ← F64.div frequency (F64.of_Z 440);
    l ← math_log2 ratio;
    let semitones := F64.add (F64.mul (F64.of_Z 12) l) (F64.of_Z 69) in
    rounded ← F64.round_int semitones;
    note_index ← int_mod rounded 12;
    octaves ← int_floordiv rounded 12;
    let octave := octaves - 1 in
    name ← list_index notes note_index;
    Ok (name ++ str_of_int octave).

(** One entry of [text_to_frequencies], for the character at index [i]. *)
Definition frequency_mapping (self : ContentMapper) (i : Z) (char : N) : result json :=
  if negb (bool_decide (strip [char] = [])) then
    freq ← char_to_frequency self [char];
    note ← _frequency_to_note freq;
    Ok (JObj [ (str_of "index", JInt i);
               (str_of "char", JStr [char]);
               (str_of "frequency", JFloat (round_ndigits freq 2));
               (str_of "note", JStr note);
               (str_of "duration", JFloat (F64.of_decimal false 2 (-1))) ])
  else
    Ok (JObj [ (str_of "index", JInt i);
               (str_of "char", JStr [char]);
               (str_of "frequency", JInt 0);
               (str_of "note", JStr (str_of "rest"));
               (str_of "duration", JFloat (F64.of_decimal false 1 (-1))) ]).

(** The loop of [text_to_frequencies] from index [i] on. *)
Fixpoint text_to_frequencies_from (self : ContentMapper) (i : Z) (text : str)
  : result (list json) :=
  match text with
  | [] => Ok []
  | char :: rest =>
      entry ← frequency_mapping self i char;
      entries ← text_to_frequencies_from self (i + 1) rest;
      Ok (entry :: entries)
  end.

Definition text_to_frequencies (self : ContentMapper) (text : str) : result (list json) :=
  text_to_frequencies_from self 0 text.

Definition hex_to_rgb (hex_color : str) : option (Z * Z * Z) :=
  let hex_color := lstrip (str_of "#") hex_color in
  let hex_color :=
    if (length hex_color =? 3)%nat
    then flat_map (fun c => [c; c]) hex_color
    else hex_color in
  if negb (length hex_color =? 6)%nat then None
  else
    match Parse.int16 (slice 0 2 hex_color),
          Parse.int16 (slice 2 4 hex_color),
          Parse.int16 (slice 4 6 hex_color) with
    | Ok r, Ok g, Ok b => Some (r, g, b)
    | _, _, _ => None
    end.

(** [max] and [min] of three floats, as the builtins scan them. *)
Definition max3 (a b c : float) : float :=
  let m := if F64.ltb a b then b else a in
  if F64.ltb m c then c else m.

Definition min3 (a b c : float) : float :=
  let m := if F64.ltb b a then b else a in
  if F64.ltb c m then c else m.

Definition rgb_to_hsl (r g b : Z) : result (num * num * float) :=
  r ← F64.int_truediv r 255;
  g ← F64.int_truediv g 255;
  b ← F64.int_truediv b 255;
  let max_c := max3 r g b in
  let min_c := min3 r g b in
  l ← F64.div (F64.add max_c min_c) (F64.of_Z 2);
  if F64.eqb max_c min_c then Ok (Int (0 * 360), Int 0, l)
  else
    let d := F64.sub max_c min_c in
    s ← (if F64.ltb (F64.of_decimal false 5 (-1)) l
         then F64.div d (F64.sub (F64.sub (F64.of_Z 2) max_c) min_c)
         else F64.div d (F64.add max_c min_c));
    h ← (if F64.eqb max_c r then
           q ← F64.div (F64.sub g b) d;
           F64.div (F64.add q (F64.of_Z (if F64.ltb g b then 6 else 0))) (F64.of_Z 6)
         else if F64.eqb max_c g then
           q ← F64.div (F64.sub b r) d;
           F64.div (F64.add q (F64.of_Z 2)) (F64.of_Z 6)
         else
           q ← F64.div (F64.sub r g) d;
           F64.div (F64.add q (F64.of_Z 4)) (F64.of_Z 6));
    Ok (Float (F64.mul h (F64.of_Z 360)), Float s, l).

(** [round(n, 2)]: an int is its own rounding. *)
Definition round2 (n : num) : num :=
  match n with
  | Int z => Int z
  | Float x => Float (round_ndigits x 2)
  end.

Definition _get_complementary_color (hex_color : str) : str :=
  match hex_to_rgb hex_color with
  | None => str_of "#000000"
  | Some (r, g, b) =>
      str_of "#" ++ format_02x (255 - r) ++ format_02x (255 - g) ++ format_02x (255 - b)
  end.

Definition color_to_sound (hex_color : str) : result json :=
  match hex_to_rgb hex_color with
  | None =>
      Ok (JObj [ (str_of "frequency", JInt 440);
                 (str_of "waveform", JStr (str_of "sine"));
                 (str_of "rgb", JNull);
                 (str_of "hsl", JNull);
                 (str_of "error", JStr (str_of "Invalid color format")) ])
  | Some (r, g, b) =>
      '(h, s, l) ← rgb_to_hsl r g b;
      turn ← F64.div (num_to_float h) (F64.of_Z 360);
      let frequency := F64.add (F64.of_Z 200) (F64.mul turn (F64.of_Z 600)) in
      let waveform :=
        if F64.ltb (F64.of_decimal false 7 (-1)) (num_to_float s) then str_of "sawtooth"
        else if F64.ltb (F64.of_decimal false 4 (-1)) (num_to_float s) then str_of "triangle"
        else str_of "sine" in
      let volume_modifier :=
        F64.add (F64.of_decimal false 5 (-1)) (F64.mul l (F64.of_decimal false 5 (-1))) in
      Ok (JObj [ (str_of "frequency", JFloat (round_ndigits frequency 2));
                 (str_of "waveform", JStr waveform);
                 (str_of "volume_modifier", JFloat (round_ndigits volume_modifier 2));
                 (str_of "rgb", JObj [ (str_of "r", JInt r);
                                       (str_of "g", JInt g);
                                       (str_of "b", JInt b) ]);
                 (str_of "hsl", JObj [ (str_of "h", num_to_json (round2 h));
                                       (str_of "s", num_to_json (round2 s));
                                       (str_of "l", JFloat (round_ndigits l 2)) ]);
                 (str_of "complementary", JStr (_get_complementary_color hex_color)) ])
  end.

(** The [if]/[elif] chain of [number_to_pattern] on [number % k == 0]. *)
Definition select_pattern (number : float) : result str :=
  by7 ← F64.rem number (F64.of_Z 7);
  if F64.eqb by7 F64.zero then Ok (str_of "wave")
  else
    by5 ← F64.rem number (F64.of_Z 5);
    if F64.eqb by5 F64.zero then Ok (str_of "sweep")
    else
      by3 ← F64.rem number (F64.of_Z 3);
      if F64.eqb by3 F64.zero then Ok (str_of "arpeggio")
      else
        by2 ← F64.rem number (F64.of_Z 2);
        if F64.eqb by2 F64.zero then Ok (str_of "pulse")
        else Ok (str_of "steady").

Definition number_to_pattern (number : float) : result json :=
  let abs_num := F64.abs number in
  phase ← F64.rem abs_num (F64.of_Z 100);
  exponent ← F64.div phase (F64.of_Z 100);
  let frequency := F64.mul (F64.of_Z 100) (pow (F64.of_Z 10) exponent) in
  pattern ← select_pattern number;
  whole ← F64.to_int abs_num;
  let sides := 3 + whole mod 7 in
  turn ← F64.rem abs_num (F64.of_Z 10);
  let rotation_speed := F64.add turn (F64.of_Z 1) in
  color_shift ← F64.rem (F64.mul abs_num (F64.of_Z 30)) (F64.of_Z 360);
  tens ← F64.floordiv abs_num (F64.of_Z 10);
  tens ← F64.to_int tens;
  particles ← F64.to_int abs_num;
  Ok (JObj [ (str_of "frequency", JFloat (round_ndigits frequency 2));
             (str_of "pattern", JStr pattern);
             (str_of "oscillator_count", JInt (Z.min (tens + 1) 5));
             (str_of "visual",
               JObj [ (str_of "sides", JInt sides);
                      (str_of "rotation_speed", JFloat rotation_speed);
                      (str_of "color_hue", JFloat color_shift);
                      (str_of "particle_count", JInt (Z.min particles 100)) ]);
             (str_of "is_negative", JBool (F64.ltb number F64.zero));
             (str_of "magnitude", JFloat abs_num) ]).

Definition hex_digits : str := str_of "0123456789ABCDEFabcdef".

Definition unknown : dict := [ (str_of "type", JStr (str_of "unknown")); (str_of "value", JNull) ].

Definition detect_content_type (content : json) : dict :=
  match content with
  | JStr [] => unknown
  | JStr content =>
      let content := strip content in
      let hex_part := drop 1 content in
      if startswith (str_of "#") content
         && ((length hex_part =? 3)%nat || (length hex_part =? 6)%nat)
         && forallb (str_contains hex_digits) hex_part
      then [ (str_of "type", JStr (str_of "color")); (str_of "value", JStr content) ]
      else
        match Parse.float_of_str content with
        | Ok num => [ (str_of "type", JStr (str_of "number")); (str_of "value", JFloat num) ]
        | Raise _ =>
            if negb (bool_decide (content = []))
            then [ (str_of "type", JStr (str_of "text")); (str_of "value", JStr content) ]
            else unknown
        end
  | _ => unknown
  end.

(** The route [/api/map/auto], on the parsed request body. *)
Definition map_auto (self : ContentMapper) (data : dict) : result json :=
  let content := default (JStr []) (dict_get data (str_of "content")) in
  let detected := detect_content_type content in
  mapping ←
    match dict_get detected (str_of "type"), dict_get detected (str_of "value") with
    | Some (JStr type), Some value =>
        if bool_decide (type = str_of "text") then
          match value with
          | JStr text =>
              mappings ← text_to_frequencies self text;
              again ← text_to_frequencies self text;
              Ok (JObj [ (str_of "mappings", JList mappings);
                         (str_of "total_duration", sum_floats again) ])
          | _ => Raise TypeError
          end
        else if bool_decide (type = str_of "color") then
          match value with
          | JStr color => color_to_sound color
          | _ => Raise AttributeError
          end
        else if bool_decide (type = str_of "number") then
          match value with
          | JFloat number => number_to_pattern number
          | _ => Raise TypeError
          end
        else Ok (JObj [])
    | _, _ => Raise KeyError
    end;
  Ok (JObj [ (str_of "detected", JObj detected); (str_of "mapping", mapping) ]).

End ContentMapper.

(** ** UserPreferences *)

Section UserPreferences.

(** [hashlib.sha256(s.encode()).hexdigest()] and [json.dumps], taken as
    given; [io_ok] says whether the storage file can be written. *)
Variable sha256_hexdigest : str -> str.
Variable json_dumps : dict -> str.
Variable io_ok : bool.

(** The in-memory map from hashed user id to record, and the content of
    the storage file ([None]: no readable file). *)
Record UserPreferences := {
  preferences : gmap str dict;
  storage_file : option (gmap str dict)
}.

Definition _load_preferences (file : option (gmap str dict)) : gmap str dict :=
  default ∅ file.

Definition new_preferences (file : option (gmap str dict)) : UserPreferences :=
  {| preferences := _load_preferences file; storage_file := file |}.

Definition _save_preferences (self : UserPreferences) : UserPreferences :=
  if io_ok
  then {| preferences := preferences self; storage_file := Some (preferences self) |}
  else self.

Definition _get_user_id (identifier : str) : str :=
  take 16 (sha256_hexdigest identifier).

Definition defaults : dict :=
  [ (str_of "volume", JInt 50);
    (str_of "speed", JInt 5);
    (str_of "intensity", JInt 70);
    (str_of "scale", JStr (str_of "pentatonic"));
    (str_of "presets", JList []) ].

Definition get_preferences (self : UserPreferences) (user_id : str) : dict :=
  let hashed_id := _get_user_id user_id in
  default defaults (preferences self !! hashed_id).

Definition set_preferences (self : UserPreferences) (user_id : str) (prefs : dict)
  : UserPreferences * dict :=
  let hashed_id := _get_user_id user_id in
  let current := dict_update (get_preferences self user_id) prefs in
  let self := {| preferences := <[hashed_id := current]> (preferences self);
                 storage_file := storage_file self |} in
  (_save_preferences self, current).

Definition add_preset (self : UserPreferences) (user_id : str) (preset : dict)
  : result (UserPreferences * list json) :=
  let prefs := get_preferences self user_id in
  let presets := default (JList []) (dict_get prefs (str_of "presets")) in
  let preset :=
    dict_set preset (str_of "id") (JStr (take 8 (sha256_hexdigest (json_dumps preset)))) in
  match presets with
  | JList presets =>
      let presets := presets ++ [JObj preset] in
      let prefs := dict_set prefs (str_of "presets") (JList (take 10 presets)) in
      let '(self, _) := set_preferences self user_id prefs in
      Ok (self, take 10 presets)
  | _ => Raise AttributeError
  end.

(** [add_preset] for each preset of a list in turn, as a client that adds
    one preset after another. *)
Fixpoint add_presets (self : UserPreferences) (user_id : str) (presets : list dict)
  : result UserPreferences :=
  match presets with
  | [] => Ok self
  | preset :: rest =>
      '(self, _) ← add_preset self user_id preset;
      add_presets self user_id rest
  end.

End UserPreferences.

(** ** Routes *)

(** The answer of [/api/map/number] to a value that is no number. *)
Definition invalid_number : json :=
  JObj [ (str_of "error", JStr (str_of "Invalid number")) ].

Section Routes.

Variable pow : float -> float -> float.
Variable round_ndigits : float -> Z -> float.

(** [float(v)] for a value of a JSON body. *)
Definition float_of_json (v : json) : result float :=
  match v with
  | JInt z =>
      let x := F64.of_Z z in
      if F64.is_finite x then Ok x else Raise OverflowError
  | JFloat x => Ok x
  | JBool b => Ok (F64.of_Z (if b then 1 else 0))
  | JStr s => Parse.float_of_str s
  | JNull | JList _ | JObj _ => Raise TypeError
  end.

(** [result['input'] = value] on the dict a mapping returned. *)
Definition with_input (answer : json) (value : json) : result json :=
  match answer with
  | JObj fields => Ok (JObj (dict_set fields (str_of "input") value))
  | _ => Raise TypeError
  end.

(** The route [/api/map/number], on the parsed request body: the answer
    and its status. *)
Definition map_number (data : dict) : result (json * Z) :=
  match float_of_json (default (JInt 0) (dict_get data (str_of "number"))) with
  | Ok number =>
      answer ← number_to_pattern pow round_ndigits number;
      answer ← with_input answer (JFloat number);
      Ok (answer, 200)
  | Raise TypeError | Raise ValueError => Ok (invalid_number, 400)
  | Raise e => Raise e
  end.

(** The route [/api/map/color], on the parsed request body. *)
Definition map_color (data : dict) : result json :=
  match default (JStr (str_of "#000000")) (dict_get data (str_of "color")) with
  | JStr color =>
      answer ← color_to_sound round_ndigits color;
      with_input answer (JStr color)
  | _ => Raise AttributeError
  end.

End Routes.

(** ** Vocabulary of the statements *)

(** The preset as [add_preset] stores it: with its identifier. *)
Definition with_id (sha256_hexdigest json_dumps : _ -> str) (preset : dict) : json :=
  JObj (dict_set preset (str_of "id")
          (JStr (take 8 (sha256_hexdigest (json_dumps preset))))).

(** A record with the default settings and the given presets. *)
Definition record_with (presets : list json) : dict :=
  dict_set defaults (str_of "presets") (JList presets).

(** The presets of the test [test_limits_presets_to_10]: fifteen presets
    named [Preset 0] to [Preset 14]. *)
Definition named_preset (i : Z) : dict :=
  [ (str_of "name", JStr (str_of "Preset " ++ str_of_int i)) ].

Definition fifteen_presets : list dict := map named_preset (seqZ 0 15).

(** The characters [hex_to_rgb] is meant to read, and their values. *)
Definition is_hex_digit (c : N) : bool := str_contains hex_digits c.

Definition hex_value (c : N) : Z := default 0 (Parse.hex_digit_value c).

Definition hex_byte (a b : N) : Z := 16 * hex_value a + hex_value b.

Definition is_lower_hex_digit (c : N) : bool := str_contains (str_of "0123456789abcdef") c.

(** A valid six-digit colour: six hexadecimal digits, with or without a
    leading [#]. *)
Definition valid_hex6 (h : str) : bool :=
  let d := match h with c :: d => if (c =? 35)%N then d else h | [] => h end in
  (length d =? 6)%nat && forallb is_hex_digit d.

(** The result of [color_to_sound] for a string that is not a colour. *)
Definition invalid_color : json :=
  JObj [ (str_of "frequency", JInt 440);
         (str_of "waveform", JStr (str_of "sine"));
         (str_of "rgb", JNull);
         (str_of "hsl", JNull);
         (str_of "error", JStr (str_of "Invalid color format")) ].

(** The code points whose uppercase is one character outside [A-Z] and
    [0-9] sound at the base frequency. *)
Definition sounds_base (c : N) : bool :=
  match ord (upper [c]) with
  | Ok u => negb ((65 <=? u) && (u <=? 90)) && negb ((48 <=? u) && (u <=? 57))
  | Raise _ => false
  end.

(** [number % k == 0] for an int [k]. *)
Definition multiple_of (k : Z) (number : float) : bool :=
  match F64.rem number (F64.of_Z k) with
  | Ok r => F64.eqb r F64.zero
  | Raise _ => false
  end.

(** The pattern the specification assigns to a number. *)
Definition pattern_by_divisibility (number : float) : str :=
  if multiple_of 7 number then str_of "wave"
  else if multiple_of 5 number then str_of "sweep"
  else if multiple_of 3 number then str_of "arpeggio"
  else if multiple_of 2 number then str_of "pulse"
  else str_of "steady".

(** The same choice for an int, by integer divisibility. *)
Definition pattern_of_int (z : Z) : str :=
  if z mod 7 =? 0 then str_of "wave"
  else if z mod 5 =? 0 then str_of "sweep"
  else if z mod 3 =? 0 then str_of "arpeggio"
  else if z mod 2 =? 0 then str_of "pulse"
  else str_of "steady".

(** A field of a result object. *)
Definition field (r : result json) (k : string) : option json :=
  match r with
  | Ok (JObj d) => dict_get d (str_of k)
  | _ => None
  end.

(** The test of [detect_content_type] for a colour, on the stripped string. *)
Definition is_hex_color (t : str) : bool :=
  startswith (str_of "#") t
  && ((length (drop 1 t) =? 3)%nat || (length (drop 1 t) =? 6)%nat)
  && forallb is_hex_digit (drop 1 t).

Definition detected (type : string) (value : json) : dict :=
  [ (str_of "type", JStr (str_of type)); (str_of "value", value) ].

(** The spellings of a value that is not finite: [nan], [inf] or
    [infinity] in any letter case, after an optional sign. *)
Definition nonfinite_words : list str :=
  [ str_of "nan"; str_of "inf"; str_of "infinity" ].

Definition is_nonfinite_spelling (s : str) : bool :=
  bool_decide (map Parse.tolower (Parse.split_sign s).2 ∈ nonfinite_words).

(** All spellings of a lower-case word in upper and lower case. *)
Fixpoint case_variants (t : str) : list str :=
  match t with
  | [] => [[]]
  | c :: t' =>
      flat_map (fun w => if ((97 <=? c) && (c <=? 122))%N
                         then [c :: w; (c - 32)%N :: w] else [c :: w])
               (case_variants t')
  end.

Definition nonfinite_spellings : list str :=
  flat_map (fun w => [w; 43%N :: w; 45%N :: w]) (flat_map case_variants nonfinite_words).

(** What [detect_content_type] makes of a spelling: a number that is not
    finite. *)
Definition detected_nonfinite (s : str) : bool :=
  match detect_content_type (JStr s) with
  | [ (k1, JStr t); (k2, JFloat x) ] =>
      bool_decide (k1 = str_of "type") && bool_decide (t = str_of "number")
      && bool_decide (k2 = str_of "value") && negb (F64.is_finite x)
  | _ => false
  end.

(** A value of the binary64 format: a zero, an infinity, a NaN, or a
    finite float with a canonical mantissa and exponent. *)
Definition is_binary64 (x : float) : bool := valid_binary F64.prec F64.emax x.

(** A shift record that lost no bit. *)
Definition shr_exact (mrs : shr_record) : bool := negb (shr_r mrs) && negb (shr_s mrs).

(** A zero, or a finite float in the format whose magnitude is below
    [2 ^ B]. *)
Definition bounded_float (B : Z) (x : float) : Prop :=
  match x with
  | S754_zero _ => True
  | S754_finite _ m e =>
      -1074 ≤ e ≤ 971 ∧ Zpos (digits2_pos m) ≤ 53 ∧ Zpos (digits2_pos m) + e ≤ B
  | _ => False
  end.

Definition sign_is (s : bool) (x : float) : Prop :=
  match x with
  | S754_zero s' | S754_finite s' _ _ | S754_infinity s' => s' = s
  | S754_nan => True
  end.

Definition value_max : Z := (2 ^ 53 - 1) * 2 ^ 2045.

(** A colour channel as [rgb_to_hsl] scales it. *)
Definition channel (i : Z) : float := F64.of_ratio i 255.

(** The 256 channel values with their bytes. *)
Definition indexed_channels : list (Z * float) := map (fun i => (i, channel i)) (seqZ 0 256).

(** Scaling keeps the order of two bytes, and for a larger channel with
    a smaller one none of the three divisors of [rgb_to_hsl] is zero:
    their difference, 2 minus their sum, and their sum. *)
Definition channel_pair_ok (a b : Z * float) : bool :=
  if Bool.eqb (F64.ltb a.2 b.2) (a.1 <? b.1) then
    if a.1 <=? b.1 then true
    else negb (F64.eqb (F64.sub a.2 b.2) F64.zero)
         && negb (F64.eqb (F64.sub (F64.sub (F64.of_Z 2) a.2) b.2) F64.zero)
         && negb (F64.eqb (F64.add a.2 b.2) F64.zero)
  else false.

(** A test on every pair of a list. *)
Definition all_pairs {A} (ok : A -> A -> bool) (l : list A) : bool :=
  forallb (fun a => forallb (ok a) l) l.

Definition waveforms : list str := [str_of "sawtooth"; str_of "triangle"; str_of "sine"].

Definition is_byte (z : Z) : bool := (0 <=? z) && (z <=? 255).

(** ** Vocabulary of the further properties *)

(** A dict as Python has it: no key twice. *)
Definition distinct_keys (d : dict) : bool := bool_decide (NoDup d.*1).

Definition is_list (v : json) : bool := match v with JList _ => true | _ => false end.

Definition scales : list (list Z) := [PENTATONIC_SCALE; MAJOR_SCALE; MINOR_SCALE].

(** The semitones above the base note that [char_to_frequency] gives
    the [n]-th letter of the alphabet in a scale. *)
Definition letter_semitones (scale : list Z) (n : Z) : Z :=
  nth (Z.to_nat (n mod Z.of_nat (length scale))) scale 0
  + n / Z.of_nat (length scale) * 12.

Definition is_ascii_letter (c : N) : bool :=
  ((65 <=? c) && (c <=? 90) || (97 <=? c) && (c <=? 122))%N.

(** The place of an ASCII letter in the alphabet, from 0. *)
Definition letter_index (c : N) : Z := (Z.of_N c - 65) mod 32.

(** A code point that [char_to_frequency] treats as a letter: its
    uppercase is one of [A] to [Z]. *)
Definition sounds_letter (c : N) : bool :=
  match ord (upper [c]) with
  | Ok u => (65 <=? u) && (u <=? 90)
  | Raise _ => false
  end.

(** The entry of [text_to_frequencies] for a white-space character. *)
Definition rest_entry (i : Z) (c : N) : json :=
  JObj [ (str_of "index", JInt i);
         (str_of "char", JStr [c]);
         (str_of "frequency", JInt 0);
         (str_of "note", JStr (str_of "rest"));
         (str_of "duration", JFloat (F64.of_decimal false 1 (-1))) ].

Definition entry_keys : list str :=
  [str_of "index"; str_of "char"; str_of "frequency"; str_of "note"; str_of "duration"].

(** Structural equality of floats. *)
Definition float_same (x y : float) : bool :=
  match x, y with
  | S754_zero s, S754_zero s' | S754_infinity s, S754_infinity s' => Bool.eqb s s'
  | S754_nan, S754_nan => true
  | S754_finite s m e, S754_finite s' m' e' => Bool.eqb s s' && (m =? m')%positive && (e =? e')
  | _, _ => false
  end.

(** What [number_to_pattern] computes from the magnitude of an int [z],
    against the same on ints: [int(abs_num)], [int(abs_num // 10)],
    [abs_num % 10 + 1] and [(abs_num * 30) % 360]. *)
Definition int_pattern_ok (z : Z) : bool :=
  let x := F64.abs (F64.of_Z z) in
  match F64.to_int x, F64.floordiv x (F64.of_Z 10), F64.rem x (F64.of_Z 10),
        F64.rem (F64.mul x (F64.of_Z 30)) (F64.of_Z 360) with
  | Ok whole, Ok tens, Ok turn, Ok hue =>
      (whole =? Z.abs z)
      && match F64.to_int tens with Ok count => count =? Z.abs z / 10 | Raise _ => false end
      && float_same (F64.add turn (F64.of_Z 1)) (F64.of_Z (Z.abs z mod 10 + 1))
      && float_same hue (F64.of_Z (Z.abs z * 30 mod 360))
  | _, _, _, _ => false
  end.

(** * Properties *)

(** ** Dicts *)

Lemma dict_get_set_eq (d : dict) k v : dict_get (dict_set d k v) k = Some v.
Proof.
  induction d as [|[k' v'] d IH]; simpl.
  - by rewrite bool_decide_eq_true_2.
  - destruct (decide (k' = k)) as [->|Hne].
    + rewrite bool_decide_eq_true_2 by done. simpl.
      by rewrite bool_decide_eq_true_2.
    + rewrite bool_decide_eq_false_2 by done. simpl.
      by rewrite bool_decide_eq_false_2.
Qed.

Lemma dict_get_set_ne (d : dict) k k' v :
  k ≠ k' → dict_get (dict_set d k v) k' = dict_get d k'.
Proof.
  intros Hne. induction d as [|[k0 v0] d IH]; simpl.
  - by rewrite bool_decide_eq_false_2.
  - destruct (decide (k0 = k)) as [->|Hk].
    + rewrite bool_decide_eq_true_2 by done. simpl.
      by rewrite !bool_decide_eq_false_2.
    + rewrite (bool_decide_eq_false_2 (k0 = k)) by done. simpl.
      by rewrite IH.
Qed.

Lemma dict_get_update_other (e d : dict) k :
  k ∉ e.*1 → dict_get (dict_update d e) k = dict_get d k.
Proof.
  unfold dict_update. revert d.
  induction e as [|[k0 v0] e IH]; intros d Hk; simpl; [done|].
  rewrite fmap_cons, not_elem_of_cons in Hk. destruct Hk as [Hne Hk].
  rewrite IH by done. apply dict_get_set_ne. by intros ->.
Qed.

Lemma dict_get_update_last (e d : dict) k v :
  k ∉ e.*1 → dict_get (dict_update d (e ++ [(k, v)])) k = Some v.
Proof.
  intros _. unfold dict_update. rewrite fold_left_app. simpl.
  apply dict_get_set_eq.
Qed.

(** ** The preference store *)

Section UserPreferencesFacts.

Variable sha256_hexdigest : str -> str.
Variable json_dumps : dict -> str.
Variable io_ok : bool.

#[local] Abbreviation get := (get_preferences sha256_hexdigest).
#[local] Abbreviation set := (set_preferences sha256_hexdigest io_ok).
#[local] Abbreviation add := (add_preset sha256_hexdigest json_dumps io_ok).
#[local] Abbreviation uid := (_get_user_id sha256_hexdigest).

Lemma preferences_save (self : UserPreferences) :
  preferences (_save_preferences io_ok self) = preferences self.
Proof. unfold _save_preferences. by destruct io_ok. Qed.

Lemma get_after_set self u prefs :
  get (set self u prefs).1 u = (set self u prefs).2.
Proof.
  unfold set_preferences, get_preferences. simpl.
  rewrite preferences_save. simpl. by rewrite lookup_insert_eq.
Qed.

Lemma get_after_set_other self u u' prefs :
  uid u' ≠ uid u → get (set self u prefs).1 u' = get self u'.
Proof.
  intros Hne. unfold get, set, set_preferences, get_preferences. simpl.
  rewrite preferences_save. simpl. by rewrite lookup_insert_ne.
Qed.

Lemma dict_get_update_in (e d : dict) k v :
  NoDup e.*1 → (k, v) ∈ e → dict_get (dict_update d e) k = Some v.
Proof.
  unfold dict_update. revert d.
  induction e as [|[k0 v0] e IH]; intros d Hnd Hin; [by apply elem_of_nil in Hin|].
  rewrite fmap_cons in Hnd. apply NoDup_cons in Hnd as [Hk0 Hnd].
  apply elem_of_cons in Hin as [Heq|Hin]; simpl.
  - injection Heq as -> ->.
    change (dict_get (dict_update (dict_set d k0 v0) e) k0 = Some v0).
    rewrite dict_get_update_other by done. apply dict_get_set_eq.
  - by apply IH.
Qed.

(** C9: a user whose key is not in the store reads the documented
    defaults (volume 50, speed 5, intensity 70, scale pentatonic, no
    presets); [set_preferences] stores the record it returns, which is the
    old record updated with the partial one: a key the partial record
    lacks keeps its value, a key it has takes the new value, and the
    records of other keys are untouched. After [set(u, {volume: 80})] the
    volume read back is 80. *)
Theorem preferences_defaults_and_merge (self : UserPreferences) (u : str) :
  (preferences self !! uid u = None →
   get self u =
     [ (str_of "volume", JInt 50); (str_of "speed", JInt 5);
       (str_of "intensity", JInt 70);
       (str_of "scale", JStr (str_of "pentatonic"));
       (str_of "presets", JList []) ])
  ∧ (∀ partial : dict,
       get (set self u partial).1 u = (set self u partial).2
       ∧ (set self u partial).2 = dict_update (get self u) partial
       ∧ (∀ k, k ∉ partial.*1 →
            dict_get (get (set self u partial).1 u) k = dict_get (get self u) k)
       ∧ (∀ k v, NoDup partial.*1 → (k, v) ∈ partial →
            dict_get (get (set self u partial).1 u) k = Some v)
       ∧ (∀ u', uid u' ≠ uid u → get (set self u partial).1 u' = get self u'))
  ∧ dict_get (get (set self u [(str_of "volume", JInt 80)]).1 u) (str_of "volume")
    = Some (JInt 80).
Proof.
  split; [|split].
  - intros Hnew. unfold get_preferences. by rewrite Hnew.
  - intros partial. rewrite get_after_set. repeat split.
    + intros k Hk. by apply dict_get_update_other.
    + intros k v Hnd Hin. by apply dict_get_update_in.
    + intros u' Hne. by apply get_after_set_other.
  - rewrite get_after_set. apply (dict_get_update_last []). apply not_elem_of_nil.
Qed.

Lemma record_with_presets L : dict_get (record_with L) (str_of "presets") = Some (JList L).
Proof. apply dict_get_set_eq. Qed.

Lemma record_with_update L L' :
  dict_update (record_with L) (dict_set (record_with L) (str_of "presets") (JList L'))
  = record_with L'.
Proof. reflexivity. Qed.

Lemma add_preset_step self u preset L :
  get self u = record_with L →
  ∃ self',
    add self u preset
    = Ok (self', take 10 (L ++ [with_id sha256_hexdigest json_dumps preset]))
    ∧ get self' u = record_with (take 10 (L ++ [with_id sha256_hexdigest json_dumps preset])).
Proof.
  intros Hrec.
  unfold add_preset. rewrite Hrec, record_with_presets.
  cbv [default from_option id]. unfold set_preferences.
  rewrite Hrec, record_with_update.
  eexists. split; [reflexivity|].
  unfold get_preferences. rewrite preferences_save. simpl.
  by rewrite lookup_insert_eq.
Qed.

Lemma take_take_app {A} n (l r : list A) : take n (take n l ++ r) = take n (l ++ r).
Proof.
  destruct (decide (n ≤ length l)%nat) as [Hle|Hgt].
  - rewrite !take_app_le by (rewrite ?length_take; lia).
    by rewrite take_take, Nat.min_id.
  - by rewrite (take_ge l) by lia.
Qed.

Lemma add_presets_stored u presets : ∀ self L,
  get self u = record_with L → (length L ≤ 10)%nat →
  ∃ self',
    add_presets sha256_hexdigest json_dumps io_ok self u presets = Ok self'
    ∧ get self' u
      = record_with (take 10 (L ++ map (with_id sha256_hexdigest json_dumps) presets)).
Proof.
  induction presets as [|preset rest IH]; intros self L Hrec Hlen; simpl.
  - exists self. split; [done|]. by rewrite app_nil_r, take_ge.
  - destruct (add_preset_step self u preset L Hrec) as (self1 & Hadd & Hrec1).
    rewrite Hadd. simpl.
    destruct (IH self1 _ Hrec1) as (self' & Hall & Hrec'); [rewrite length_take; lia|].
    exists self'. split; [done|].
    by rewrite Hrec', take_take_app, <- app_assoc.
Qed.

(** C1: fifteen presets named [Preset 0] to [Preset 14] are added, one
    after the other, for a user of an empty store. Every call succeeds
    and each preset gets its eight-character identifier, but the ten
    presets stored at the end are the first ten added; the last one added
    is not among them, where the claim keeps the most recent ten. *)
Theorem add_preset_fifteen_keeps_first_ten :
  ∃ self',
    add_presets sha256_hexdigest json_dumps io_ok
      (new_preferences None) (str_of "user1") fifteen_presets = Ok self'
    ∧ dict_get (get self' (str_of "user1")) (str_of "presets")
      = Some (JList (map (with_id sha256_hexdigest json_dumps) (take 10 fifteen_presets)))
    ∧ with_id sha256_hexdigest json_dumps (named_preset 14)
      ∉ map (with_id sha256_hexdigest json_dumps) (take 10 fifteen_presets).
Proof.
  destruct (add_presets_stored (str_of "user1") fifteen_presets (new_preferences None) [])
    as (self' & Hall & Hrec); [reflexivity|simpl; lia|].
  exists self'. split; [done|]. split.
  - rewrite Hrec, record_with_presets. reflexivity.
  - intros Hin. apply list_elem_of_fmap in Hin as (preset & Heq & Hin).
    unfold with_id in Heq.
    assert (dict_get (dict_set (named_preset 14) (str_of "id")
              (JStr (take 8 (sha256_hexdigest (json_dumps (named_preset 14))))))
              (str_of "name")
            = dict_get (dict_set preset (str_of "id")
                (JStr (take 8 (sha256_hexdigest (json_dumps preset))))) (str_of "name"))
      as Hname by congruence.
    rewrite !dict_get_set_ne in Hname by (vm_compute; congruence).
    vm_compute in Hin.
    repeat (apply elem_of_cons in Hin as [->|Hin]; [by vm_compute in Hname|]).
    by apply elem_of_nil in Hin.
Qed.

End UserPreferencesFacts.

(** ** Text to tones *)

Section TextFacts.

Variable pow : float -> float -> float.
Variable log2 : float -> float.
Variable round_ndigits : float -> Z -> float.
Variable self : ContentMapper.

(** C2: [char_to_frequency] is not total over one-character strings: the
    uppercase of the German sharp s (U+00DF) is the two characters [SS],
    so [ord] raises a [TypeError] where the claim promises the base
    frequency. *)
Theorem char_to_frequency_sharp_s_raises :
  upper [0xDF%N] = str_of "SS"
  ∧ char_to_frequency pow self [0xDF%N] = Raise TypeError.
Proof. split; reflexivity. Qed.

(** The dotless i (U+0131) is no ASCII letter, yet it sounds as the
    letter I. *)
Lemma char_to_frequency_dotless_i :
  char_to_frequency pow self [0x131%N] = char_to_frequency pow self (str_of "I").
Proof. reflexivity. Qed.

Lemma char_to_frequency_empty : char_to_frequency pow self [] = Ok BASE_FREQUENCY.
Proof. reflexivity. Qed.

Lemma char_to_frequency_sounds_base c :
  sounds_base c = true → char_to_frequency pow self [c] = Ok BASE_FREQUENCY.
Proof.
  unfold sounds_base, char_to_frequency. rewrite bool_decide_eq_false_2 by done.
  destruct (ord (upper [c])) as [u|e]; [|done]. cbn [mbind result_bind].
  intros [H1 H2]%andb_true_iff.
  apply negb_true_iff in H1. apply negb_true_iff in H2. by rewrite H1, H2.
Qed.

Lemma whitespace_is_rest i c :
  Unicode.isspace c = true →
  frequency_mapping pow log2 round_ndigits self i c
  = Ok (JObj [ (str_of "index", JInt i);
               (str_of "char", JStr [c]);
               (str_of "frequency", JInt 0);
               (str_of "note", JStr (str_of "rest"));
               (str_of "duration", JFloat (F64.of_decimal false 1 (-1))) ]).
Proof.
  intros Hsp. unfold frequency_mapping.
  assert (strip [c] = []) as -> by (unfold strip; cbn; by rewrite Hsp).
  reflexivity.
Qed.

Lemma text_to_frequencies_from_length text : ∀ i entries,
  text_to_frequencies_from pow log2 round_ndigits self i text = Ok entries →
  length entries = length text.
Proof.
  induction text as [|c rest IH]; intros i entries; simpl.
  - by intros [= <-].
  - destruct (frequency_mapping _ _ _ _ _ _) as [entry|]; [|done].
    cbn [mbind result_bind].
    destruct (text_to_frequencies_from _ _ _ _ _ rest) as [tail|] eqn:Htail; [|done].
    cbn [mbind result_bind mret result_ret]. intros [= <-]. simpl.
    f_equal. by eapply IH.
Qed.

Lemma text_to_frequencies_from_app prefix rest : ∀ i entries,
  text_to_frequencies_from pow log2 round_ndigits self i (prefix ++ rest) = Ok entries →
  ∃ entries',
    text_to_frequencies_from pow log2 round_ndigits self
      (i + Z.of_nat (length prefix)) rest = Ok entries'.
Proof.
  induction prefix as [|c prefix IH]; intros i entries; simpl.
  - rewrite Z.add_0_r. eauto.
  - destruct (frequency_mapping _ _ _ _ _ _) as [entry|]; [|done].
    cbn [mbind result_bind].
    destruct (text_to_frequencies_from _ _ _ _ _ (prefix ++ rest)) as [tail|] eqn:Htail;
      [|done].
    intros _. apply IH in Htail as [entries' Htail]. exists entries'.
    rewrite <- Htail. f_equal. lia.
Qed.

(** C8: [text_to_frequencies] does not return a sequence for every
    string: on the one-character string of the German sharp s it raises
    the [TypeError] of [char_to_frequency], where the claim promises a
    sequence of length one; nor does it return one for a word that
    contains the letter. *)
Theorem text_to_frequencies_sharp_s_raises :
  text_to_frequencies pow log2 round_ndigits self [0xDF%N] = Raise TypeError
  ∧ ∀ entries,
      text_to_frequencies pow log2 round_ndigits self
        (str_of "Stra" ++ [0xDF%N] ++ str_of "e") ≠ Ok entries.
Proof.
  split; [reflexivity|].
  intros entries Hok.
  apply text_to_frequencies_from_app in Hok as [entries' Hok].
  discriminate Hok.
Qed.

Lemma text_to_frequencies_empty :
  text_to_frequencies pow log2 round_ndigits self [] = Ok [].
Proof. reflexivity. Qed.

End TextFacts.

(** ** Colours *)

Lemma is_hex_digit_elem c : is_hex_digit c = true → c ∈ hex_digits.
Proof.
  unfold is_hex_digit, str_contains. rewrite existsb_exists.
  intros (x & Hin & Heq%N.eqb_eq). subst x. by apply list_elem_of_In.
Qed.

(** Two hexadecimal digits parse to the byte they spell. *)
Lemma int16_hex_pair a b :
  is_hex_digit a = true → is_hex_digit b = true →
  Parse.int16 [a; b] = Ok (hex_byte a b) ∧ 0 ≤ hex_byte a b ≤ 255.
Proof.
  intros Ha%is_hex_digit_elem Hb%is_hex_digit_elem.
  pose (check := fun a b =>
    match Parse.int16 [a; b] with
    | Ok z => (z =? hex_byte a b) && (0 <=? hex_byte a b) && (hex_byte a b <=? 255)
    | Raise _ => false
    end).
  assert (forallb (fun a => forallb (check a) hex_digits) hex_digits = true) as Hall
    by (vm_compute; reflexivity).
  rewrite forallb_forall in Hall.
  specialize (Hall a (proj1 (list_elem_of_In _ _) Ha)).
  rewrite forallb_forall in Hall.
  specialize (Hall b (proj1 (list_elem_of_In _ _) Hb)).
  unfold check in Hall. destruct (Parse.int16 [a; b]) as [z|]; [|done].
  apply andb_true_iff in Hall as [[Hz%Z.eqb_eq Hlo%Z.leb_le]%andb_true_iff Hhi%Z.leb_le].
  subst z. split; [done|lia].
Qed.

Lemma hex_digit_not_hash c : is_hex_digit c = true → str_contains (str_of "#") c = false.
Proof.
  intros Hc%is_hex_digit_elem.
  assert (forallb (fun c => negb (str_contains (str_of "#") c)) hex_digits = true) as Hall
    by (vm_compute; reflexivity).
  rewrite forallb_forall in Hall.
  apply negb_true_iff, Hall. by apply list_elem_of_In.
Qed.

Lemma hex_to_rgb_hash s : hex_to_rgb (35%N :: s) = hex_to_rgb s.
Proof. reflexivity. Qed.

(** Six hexadecimal digits are read as three bytes. *)
Lemma hex_to_rgb_six a1 a2 a3 a4 a5 a6 :
  forallb is_hex_digit [a1; a2; a3; a4; a5; a6] = true →
  hex_to_rgb [a1; a2; a3; a4; a5; a6]
  = Some (hex_byte a1 a2, hex_byte a3 a4, hex_byte a5 a6)
  ∧ (0 ≤ hex_byte a1 a2 ≤ 255) ∧ (0 ≤ hex_byte a3 a4 ≤ 255) ∧ (0 ≤ hex_byte a5 a6 ≤ 255).
Proof.
  cbn [forallb]. rewrite !andb_true_iff.
  intros (H1 & H2 & H3 & H4 & H5 & H6 & _).
  destruct (int16_hex_pair a1 a2 H1 H2) as [E1 B1].
  destruct (int16_hex_pair a3 a4 H3 H4) as [E2 B2].
  destruct (int16_hex_pair a5 a6 H5 H6) as [E3 B3].
  split; [|done].
  unfold hex_to_rgb, lstrip. cbn [lstrip_with]. rewrite (hex_digit_not_hash a1 H1).
  cbn [length Nat.eqb negb slice drop take Nat.sub].
  by rewrite E1, E2, E3.
Qed.

(** A byte is formatted as two lower-case hexadecimal digits that spell it. *)
Lemma format_02x_byte n :
  0 ≤ n ≤ 255 →
  ∃ a b, format_02x n = [a; b]
         ∧ is_lower_hex_digit a = true ∧ is_lower_hex_digit b = true
         ∧ is_hex_digit a = true ∧ is_hex_digit b = true
         ∧ hex_byte a b = n.
Proof.
  intros Hn.
  pose (check := fun n =>
    match format_02x n with
    | [a; b] => is_lower_hex_digit a && is_lower_hex_digit b
                && is_hex_digit a && is_hex_digit b && (hex_byte a b =? n)
    | _ => false
    end).
  assert (forallb check (seqZ 0 256) = true) as Hall by (vm_compute; reflexivity).
  rewrite forallb_forall in Hall.
  assert (n ∈ seqZ 0 256) as Hin by (apply elem_of_seqZ; lia).
  specialize (Hall n (proj1 (list_elem_of_In _ _) Hin)). unfold check in Hall.
  destruct (format_02x n) as [|a [|b [|]]]; try done.
  exists a, b.
  repeat (apply andb_true_iff in Hall as [Hall ?]). by rewrite Z.eqb_eq in *.
Qed.

(** C3: [hex_to_rgb] does not reject every string with a character that
    is no hexadecimal digit: [int] reads a sign, so the string [-1-1-1]
    gives the channels (-1, -1, -1), outside 0..255, and [+1+2+3] gives
    (1, 2, 3), where the claim promises no result. All leading [#] are
    stripped, not one. *)
Theorem hex_to_rgb_accepts_signed_pairs :
  hex_to_rgb (str_of "-1-1-1") = Some (-1, -1, -1)
  ∧ hex_to_rgb (str_of "+1+2+3") = Some (1, 2, 3)
  ∧ is_hex_digit 45%N = false ∧ is_hex_digit 43%N = false
  ∧ hex_to_rgb (str_of "##FF0000") = Some (255, 0, 0).
Proof. repeat split; vm_compute; reflexivity. Qed.

(** C4: for every valid six-digit colour [h], with or without the
    leading [#], the complementary colour is a [#] followed by six
    lower-case hexadecimal digits, two for each channel, and [hex_to_rgb]
    reads it back as the channel-wise complement (255 - r, 255 - g,
    255 - b) of [hex_to_rgb h]. *)
Theorem complementary_is_channelwise_complement (h : str) :
  valid_hex6 h = true →
  ∃ r g b,
    hex_to_rgb h = Some (r, g, b)
    ∧ (0 ≤ r ≤ 255) ∧ (0 ≤ g ≤ 255) ∧ (0 ≤ b ≤ 255)
    ∧ hex_to_rgb (_get_complementary_color h) = Some (255 - r, 255 - g, 255 - b)
    ∧ ∃ digits,
        _get_complementary_color h = 35%N :: digits
        ∧ length digits = 6%nat
        ∧ forallb is_lower_hex_digit digits = true
        ∧ digits = format_02x (255 - r) ++ format_02x (255 - g) ++ format_02x (255 - b).
Proof.
  intros Hvalid.
  assert (∃ d, hex_to_rgb h = hex_to_rgb d
               ∧ _get_complementary_color h = _get_complementary_color d
               ∧ length d = 6%nat ∧ forallb is_hex_digit d = true)
    as (d & Hh & Hc & Hlen & Hhex).
  { unfold valid_hex6 in Hvalid. destruct h as [|c s]; [done|].
    destruct (N.eqb_spec c 35) as [->|Hne];
      apply andb_true_iff in Hvalid as [Hl%Nat.eqb_eq Hd].
    - by exists s.
    - by exists (c :: s). }
  rewrite Hh, Hc.
  destruct d as [|a1 [|a2 [|a3 [|a4 [|a5 [|a6 [|]]]]]]]; try done.
  destruct (hex_to_rgb_six _ _ _ _ _ _ Hhex) as (Hrgb & B1 & B2 & B3).
  exists (hex_byte a1 a2), (hex_byte a3 a4), (hex_byte a5 a6).
  split; [done|]. do 3 (split; [done|]).
  unfold _get_complementary_color. rewrite Hrgb.
  destruct (format_02x_byte (255 - hex_byte a1 a2)) as (x1 & x2 & F1 & L1 & L2 & X1 & X2 & V1);
    [lia|].
  destruct (format_02x_byte (255 - hex_byte a3 a4)) as (x3 & x4 & F2 & L3 & L4 & X3 & X4 & V2);
    [lia|].
  destruct (format_02x_byte (255 - hex_byte a5 a6)) as (x5 & x6 & F3 & L5 & L6 & X5 & X6 & V3);
    [lia|].
  rewrite F1, F2, F3.
  change (str_of "#" ++ [x1; x2] ++ [x3; x4] ++ [x5; x6])
    with (35%N :: [x1; x2; x3; x4; x5; x6]).
  split.
  - rewrite hex_to_rgb_hash.
    destruct (hex_to_rgb_six x1 x2 x3 x4 x5 x6) as (-> & _).
    + cbn [forallb]. by rewrite X1, X2, X3, X4, X5, X6.
    + by rewrite V1, V2, V3.
  - exists [x1; x2; x3; x4; x5; x6]. repeat split.
    cbn [forallb]. by rewrite L1, L2, L3, L4, L5, L6.
Qed.

Lemma complementary_is_channelwise_complement_witness :
  ∃ r g b,
    hex_to_rgb (str_of "#FF0000") = Some (r, g, b)
    ∧ (0 ≤ r ≤ 255) ∧ (0 ≤ g ≤ 255) ∧ (0 ≤ b ≤ 255)
    ∧ hex_to_rgb (_get_complementary_color (str_of "#FF0000"))
      = Some (255 - r, 255 - g, 255 - b)
    ∧ ∃ digits,
        _get_complementary_color (str_of "#FF0000") = 35%N :: digits
        ∧ length digits = 6%nat
        ∧ forallb is_lower_hex_digit digits = true
        ∧ digits = format_02x (255 - r) ++ format_02x (255 - g) ++ format_02x (255 - b).
Proof.
  apply (complementary_is_channelwise_complement (str_of "#FF0000")).
  reflexivity.
Defined.

Section ColourFacts.

Variable round_ndigits : float -> Z -> float.

Lemma color_to_sound_invalid s :
  hex_to_rgb s = None → color_to_sound round_ndigits s = Ok invalid_color.
Proof. intros Hnone. unfold color_to_sound. by rewrite Hnone. Qed.

(** C7: [color_to_sound] does not return a result for every string that
    [hex_to_rgb] parses: the string [-10100] is read as the channels
    (-1, 1, 0), the largest and the smallest channel add up to zero, and
    the saturation [d / (max_c + min_c)] raises a [ZeroDivisionError], so
    neither the valid fields nor the error field come back. *)
Theorem color_to_sound_signed_raises :
  hex_to_rgb (str_of "-10100") = Some (-1, 1, 0)
  ∧ rgb_to_hsl (-1) 1 0 = Raise ZeroDivisionError
  ∧ color_to_sound round_ndigits (str_of "-10100") = Raise ZeroDivisionError.
Proof. repeat split; vm_compute; reflexivity. Qed.

End ColourFacts.

(** ** Floats: rounding a bounded value does not overflow *)

Module F64Facts.
Import F64.

Lemma digits2_pos_bounds p :
  2 ^ (Zpos (digits2_pos p) - 1) ≤ Zpos p < 2 ^ Zpos (digits2_pos p).
Proof.
  induction p as [p IH|p IH|]; cbn [digits2_pos].
  - rewrite Pos2Z.inj_succ, (Pos2Z.inj_xI p).
    replace (Z.succ (Zpos (digits2_pos p)) - 1) with (Z.succ (Zpos (digits2_pos p) - 1)) by lia.
    rewrite !Z.pow_succ_r by lia.
    destruct IH as [IH1 IH2]. revert IH1 IH2.
    generalize (2 ^ (Z.pos (digits2_pos p) - 1)) (2 ^ Z.pos (digits2_pos p)). lia.
  - rewrite Pos2Z.inj_succ, (Pos2Z.inj_xO p).
    replace (Z.succ (Zpos (digits2_pos p)) - 1) with (Z.succ (Zpos (digits2_pos p) - 1)) by lia.
    rewrite !Z.pow_succ_r by lia.
    destruct IH as [IH1 IH2]. revert IH1 IH2.
    generalize (2 ^ (Z.pos (digits2_pos p) - 1)) (2 ^ Z.pos (digits2_pos p)). lia.
  - simpl. lia.
Qed.

Lemma Zdigits2_bounds m :
  0 < m → 2 ^ (Zdigits2 m - 1) ≤ m < 2 ^ Zdigits2 m.
Proof. destruct m as [|p|p]; [lia| |lia]. intros _. apply digits2_pos_bounds. Qed.

Lemma Zdigits2_nonneg m : 0 ≤ Zdigits2 m.
Proof. destruct m; simpl; lia. Qed.

Lemma Zdigits2_le m k : 0 ≤ m → 0 ≤ k → m < 2 ^ k → Zdigits2 m ≤ k.
Proof.
  intros Hm Hk Hlt. destruct (decide (m = 0)) as [->|Hne]; [simpl; lia|].
  destruct (Zdigits2_bounds m) as [Hlo _]; [lia|].
  destruct (decide (Zdigits2 m ≤ k)) as [|Hgt]; [done|exfalso].
  assert (2 ^ k ≤ 2 ^ (Zdigits2 m - 1)) by (apply Z.pow_le_mono_r; lia). lia.
Qed.

Lemma Zdigits2_lt_pow m k : 0 ≤ m → Zdigits2 m ≤ k → m < 2 ^ k.
Proof.
  intros Hm Hd. destruct (decide (m = 0)) as [->|Hne];
    [apply Z.pow_pos_nonneg; [lia|simpl in Hd; lia]|].
  destruct (Zdigits2_bounds m) as [_ Hhi]; [lia|].
  assert (2 ^ Zdigits2 m ≤ 2 ^ k) by (apply Z.pow_le_mono_r; lia). lia.
Qed.

Lemma shr_exact_loc mrs : shr_exact mrs = true → loc_of_shr_record mrs = loc_Exact.
Proof. by destruct mrs as [m [] []]. Qed.

Lemma shr_1_spec mrs :
  0 ≤ shr_m mrs →
  shr_m (shr_1 mrs) = shr_m mrs / 2
  ∧ shr_exact (shr_1 mrs) = shr_exact mrs && (shr_m mrs mod 2 =? 0).
Proof.
  destruct mrs as [m r s]. cbn [shr_m]. intros Hm.
  destruct m as [|[p|p|]|p]; try lia; unfold shr_exact; cbn [shr_1 shr_m shr_r shr_s].
  - by destruct r, s.
  - rewrite (Pos2Z.inj_xI p).
    replace ((2 * Z.pos p + 1) / 2) with (Z.pos p) by (apply Z.div_unique with 1; lia).
    replace ((2 * Z.pos p + 1) mod 2) with 1 by (apply Z.mod_unique with (Z.pos p); lia).
    by destruct r, s.
  - rewrite (Pos2Z.inj_xO p).
    replace (2 * Z.pos p / 2) with (Z.pos p) by (apply Z.div_unique with 0; lia).
    replace ((2 * Z.pos p) mod 2) with 0 by (apply Z.mod_unique with (Z.pos p); lia).
    by destruct r, s.
  - by destruct r, s.
Qed.

Lemma mod_mul_zero m a b :
  0 ≤ m → 0 < a → 0 < b →
  (m mod (a * b) =? 0) = (m mod a =? 0) && ((m / a) mod b =? 0).
Proof.
  intros Hm Ha Hb. rewrite Z.rem_mul_r by lia.
  pose proof (Z.mod_pos_bound m a Ha). pose proof (Z.mod_pos_bound (m / a) b Hb).
  destruct (Z.eqb_spec (m mod a) 0) as [->|], (Z.eqb_spec ((m / a) mod b) 0) as [->|];
    cbn [andb]; apply Z.eqb_eq || apply Z.eqb_neq; nia.
Qed.

Lemma iter_shr_spec p : ∀ mrs,
  0 ≤ shr_m mrs →
  shr_m (SpecFloat.iter_pos shr_1 p mrs) = shr_m mrs / 2 ^ Zpos p
  ∧ shr_exact (SpecFloat.iter_pos shr_1 p mrs) = shr_exact mrs && (shr_m mrs mod 2 ^ Zpos p =? 0).
Proof.
  assert (∀ m k, 0 ≤ m → 0 ≤ k → 0 ≤ m / 2 ^ k) as Hdiv
    by (intros; apply Z.div_pos; [lia|by apply Z.pow_pos_nonneg]).
  induction p as [p IH|p IH|]; intros mrs Hm; cbn [SpecFloat.iter_pos].
  - destruct (shr_1_spec mrs Hm) as [M1 E1].
    assert (0 ≤ shr_m (shr_1 mrs)) as H1 by (rewrite M1; apply Z.div_pos; lia).
    destruct (IH _ H1) as [M2 E2].
    assert (0 ≤ shr_m (SpecFloat.iter_pos shr_1 p (shr_1 mrs))) as H2
      by (rewrite M2; apply Hdiv; lia).
    destruct (IH _ H2) as [M3 E3].
    rewrite M3, E3, M2, E2, M1, E1.
    replace (2 ^ Z.pos p~1) with (2 * (2 ^ Z.pos p * 2 ^ Z.pos p))
      by (rewrite (Pos2Z.inj_xI p), <- Z.pow_add_r, <- Z.pow_succ_r by lia; f_equal; lia).
    assert (0 < 2 ^ Z.pos p) as Hp by (apply Z.pow_pos_nonneg; lia).
    split.
    + rewrite !Z.div_div by lia. done.
    + rewrite (mod_mul_zero (shr_m mrs) 2) by lia.
      rewrite (mod_mul_zero (shr_m mrs / 2)) by (try apply Z.div_pos; lia).
      by rewrite !andb_assoc.
  - destruct (IH _ Hm) as [M1 E1].
    assert (0 ≤ shr_m (SpecFloat.iter_pos shr_1 p mrs)) as H1 by (rewrite M1; apply Hdiv; lia).
    destruct (IH _ H1) as [M2 E2].
    rewrite M2, E2, M1, E1.
    replace (2 ^ Z.pos p~0) with (2 ^ Z.pos p * 2 ^ Z.pos p)
      by (rewrite (Pos2Z.inj_xO p), <- Z.pow_add_r by lia; f_equal; lia).
    assert (0 < 2 ^ Z.pos p) as Hp by (apply Z.pow_pos_nonneg; lia).
    split.
    + rewrite !Z.div_div by lia. done.
    + rewrite (mod_mul_zero (shr_m mrs)) by lia. by rewrite !andb_assoc.
  - apply shr_1_spec. done.
Qed.

Lemma fexp_eq x : fexp prec emax x = Z.max (x - 53) (-1074).
Proof. reflexivity. Qed.

Lemma shr_m_of_loc m l : shr_m (shr_record_of_loc m l) = m.
Proof. by destruct l as [|[]]. Qed.

Lemma shr_fexp_spec m e l :
  0 ≤ m →
  let e' := Z.max e (fexp prec emax (Zdigits2 m + e)) in
  ∃ mrs,
    shr_fexp prec emax m e l = (mrs, e')
    ∧ shr_m mrs = m / 2 ^ (e' - e)
    ∧ (l = loc_Exact → m mod 2 ^ (e' - e) = 0 → loc_of_shr_record mrs = loc_Exact).
Proof.
  intros Hm e'. unfold shr_fexp, shr.
  destruct (fexp prec emax (Zdigits2 m + e) - e) as [|k|k] eqn:Hk.
  - exists (shr_record_of_loc m l). replace e' with e by lia.
    rewrite Z.sub_diag, Z.div_1_r, shr_m_of_loc. split; [done|]. split; [done|].
    by intros ->.
  - destruct (iter_shr_spec k (shr_record_of_loc m l)) as [M E];
      [by rewrite shr_m_of_loc|].
    rewrite shr_m_of_loc in M, E.
    exists (SpecFloat.iter_pos shr_1 k (shr_record_of_loc m l)).
    replace e' with (e + Z.pos k) by lia.
    replace (e + Z.pos k - e) with (Z.pos k) by lia.
    split; [done|]. split; [done|].
    intros -> Hmod. apply shr_exact_loc. rewrite E, Hmod. done.
  - exists (shr_record_of_loc m l). replace e' with e by lia.
    rewrite Z.sub_diag, Z.div_1_r, shr_m_of_loc. split; [done|]. split; [done|].
    by intros ->.
Qed.

Lemma round_nearest_even_cases m l :
  m ≤ round_nearest_even m l ≤ m + 1 ∧ (l = loc_Exact → round_nearest_even m l = m).
Proof.
  destruct l as [|[]]; cbn [round_nearest_even]; try (split; [lia|done]).
  destruct (Z.even m); split; try lia; done.
Qed.

(** The two rounding steps of [binary_round_aux] spelled out. *)
Lemma binary_round_aux_anatomy sx mx ex lx :
  0 ≤ mx →
  let e1 := Z.max ex (fexp prec emax (Zdigits2 mx + ex)) in
  let m1 := mx / 2 ^ (e1 - ex) in
  ∃ m2,
    m1 ≤ m2 ≤ m1 + 1
    ∧ (lx = loc_Exact → mx mod 2 ^ (e1 - ex) = 0 → m2 = m1)
    ∧ let e2 := Z.max e1 (fexp prec emax (Zdigits2 m2 + e1)) in
      let m3 := m2 / 2 ^ (e2 - e1) in
      binary_round_aux prec emax sx mx ex lx
      = match m3 with
        | Z0 => S754_zero sx
        | Zpos m => if e2 <=? 971 then S754_finite sx m e2 else S754_infinity sx
        | Zneg _ => S754_nan
        end.
Proof.
  intros Hm e1 m1. unfold binary_round_aux.
  destruct (shr_fexp_spec mx ex lx Hm) as (mrs1 & -> & M1 & X1).
  fold e1 in M1, X1 |- *. fold m1 in M1.
  destruct (round_nearest_even_cases (shr_m mrs1) (loc_of_shr_record mrs1)) as [R1 R2].
  set (m2 := round_nearest_even (shr_m mrs1) (loc_of_shr_record mrs1)) in *.
  exists m2. rewrite M1 in R1, R2. split; [done|]. split.
  { intros Hl Hmod. apply R2. by apply X1. }
  assert (0 ≤ m1) as Hm1
    by (apply Z.div_pos; [done|apply Z.pow_pos_nonneg; lia]).
  destruct (shr_fexp_spec m2 e1 loc_Exact) as (mrs2 & -> & M2 & _); [lia|].
  by rewrite M2.
Qed.

Lemma pow2_pos k : 0 ≤ k → 0 < 2 ^ k.
Proof. intros. apply Z.pow_pos_nonneg; lia. Qed.

Lemma pow2_le j k : j ≤ k → 0 ≤ j → 2 ^ j ≤ 2 ^ k.
Proof. intros. apply Z.pow_le_mono_r; lia. Qed.

Lemma div_pow2_lt m j k : 0 ≤ m → 0 ≤ j → 0 ≤ k → m < 2 ^ (j + k) → m / 2 ^ j < 2 ^ k.
Proof.
  intros Hm Hj Hk Hlt. apply Z.div_lt_upper_bound; [by apply pow2_pos|].
  by rewrite <- Z.pow_add_r.
Qed.

(** The second rounding step: the mantissa fits, or it is [2 ^ 53] and
    is halved. *)
Lemma second_step m2 e1 :
  0 ≤ m2 ≤ 2 ^ 53 → -1074 ≤ e1 →
  let e2 := Z.max e1 (fexp prec emax (Zdigits2 m2 + e1)) in
  (m2 < 2 ^ 53 ∧ e2 = e1 ∧ m2 / 2 ^ (e2 - e1) = m2)
  ∨ (m2 = 2 ^ 53 ∧ e2 = e1 + 1 ∧ m2 / 2 ^ (e2 - e1) = 2 ^ 52).
Proof.
  intros Hm He e2. unfold e2. rewrite fexp_eq.
  destruct (decide (m2 = 2 ^ 53)) as [->|Hne].
  - right. change (Zdigits2 (2 ^ 53)) with 54.
    replace (Z.max e1 (Z.max (54 + e1 - 53) (-1074))) with (e1 + 1) by lia.
    replace (e1 + 1 - e1) with 1 by lia. done.
  - left. assert (Zdigits2 m2 ≤ 53) by (apply Zdigits2_le; lia).
    replace (Z.max e1 (Z.max (Zdigits2 m2 + e1 - 53) (-1074))) with e1 by lia.
    rewrite Z.sub_diag, Z.div_1_r. lia.
Qed.

Lemma first_step_small mx ex :
  0 ≤ mx →
  let e1 := Z.max ex (fexp prec emax (Zdigits2 mx + ex)) in
  -1074 ≤ e1 ∧ 0 ≤ mx / 2 ^ (e1 - ex) < 2 ^ 53.
Proof.
  intros Hm e1. unfold e1. rewrite fexp_eq.
  pose proof (Zdigits2_nonneg mx) as Hd.
  split; [lia|]. split; [apply Z.div_pos; [done|apply pow2_pos; lia]|].
  apply div_pow2_lt; [lia..|].
  apply Zdigits2_lt_pow; lia.
Qed.

Lemma binary_round_aux_bounded sx mx ex lx B :
  0 ≤ mx → Zdigits2 mx + ex ≤ B → ex ≤ 970 → -1074 ≤ B ≤ 1023 →
  bounded_float (B + 1) (binary_round_aux prec emax sx mx ex lx)
  ∧ sign_is sx (binary_round_aux prec emax sx mx ex lx).
Proof.
  intros Hm HB Hex HBr.
  destruct (binary_round_aux_anatomy sx mx ex lx Hm) as (m2 & Hm2 & _ & ->).
  destruct (first_step_small mx ex Hm) as (He1 & Hm1).
  pose proof (Zdigits2_nonneg mx) as Hd.
  set (e1 := Z.max ex (fexp prec emax (Zdigits2 mx + ex))) in *.
  set (m1 := mx / 2 ^ (e1 - ex)) in *.
  assert (e1 ≤ 970 ∧ e1 ≤ B ∧ ex ≤ e1) as (He1' & He1B & Hexe1)
    by (unfold e1; rewrite fexp_eq; lia).
  assert (m1 < 2 ^ (B - e1)) as Hm1B.
  { apply div_pow2_lt; [lia..|].
    replace (e1 - ex + (B - e1)) with (B - ex) by lia.
    apply Zdigits2_lt_pow; lia. }
  destruct (second_step m2 e1) as [(Hlt & -> & ->)|(-> & -> & ->)]; [lia|done|..].
  - destruct m2 as [|m|m]; [by split| |lia].
    destruct (Z.leb_spec e1 971); [|lia]. split; [|done]. cbn [bounded_float].
    change (Z.pos (digits2_pos m)) with (Zdigits2 (Z.pos m)).
    split; [lia|]. split; [apply Zdigits2_le; lia|].
    assert (Zdigits2 (Z.pos m) ≤ B + 1 - e1); [|lia].
    apply Zdigits2_le; [lia..|].
    replace (B + 1 - e1) with (Z.succ (B - e1)) by lia.
    rewrite Z.pow_succ_r by lia. lia.
  - change (2 ^ 52) with (Z.pos (Z.to_pos (2 ^ 52))). cbn iota.
    destruct (Z.leb_spec (e1 + 1) 971); [|lia]. split; [|done]. cbn [bounded_float].
    change (Z.pos (digits2_pos (Z.to_pos (2 ^ 52)))) with 53.
    split; [lia|]. split; [lia|].
    assert (53 ≤ B - e1); [|lia].
    destruct (decide (53 ≤ B - e1)) as [|Hn]; [done|exfalso].
    assert (2 ^ (B - e1) ≤ 2 ^ 52) by (apply pow2_le; lia).
    change (2 ^ 53) with (2 * 2 ^ 52) in Hm2. lia.
Qed.

Lemma pos_iter_xO m d : Zpos (Pos.iter xO m d) = Zpos m * 2 ^ Zpos d.
Proof.
  induction d as [|d IH] using Pos.peano_ind.
  - cbn [Pos.iter]. rewrite (Pos2Z.inj_xO m). lia.
  - rewrite Pos.iter_succ, (Pos2Z.inj_xO (Pos.iter xO m d)), IH, Pos2Z.inj_succ.
    rewrite Z.pow_succ_r by lia. lia.
Qed.

Lemma shl_align_spec mx ex ex' :
  (shl_align mx ex ex').2 = Z.min ex ex'
  ∧ Zpos (shl_align mx ex ex').1 = Zpos mx * 2 ^ (ex - Z.min ex ex').
Proof.
  unfold shl_align. destruct (ex' - ex) as [|d|d] eqn:Hd; cbn [fst snd].
  - replace (Z.min ex ex') with ex by lia. rewrite Z.sub_diag. lia.
  - replace (Z.min ex ex') with ex by lia. rewrite Z.sub_diag. lia.
  - replace (Z.min ex ex') with ex' by lia. rewrite pos_iter_xO.
    split; [done|]. do 2 f_equal. lia.
Qed.

Lemma Zdigits2_unique m k : 0 < m → 2 ^ (k - 1) ≤ m < 2 ^ k → Zdigits2 m = k.
Proof.
  intros Hm [Hlo Hhi].
  destruct (Zdigits2_bounds m Hm) as [Dlo Dhi].
  pose proof (Zdigits2_nonneg m) as Hd.
  assert (0 ≤ k).
  { destruct (decide (0 ≤ k)) as [|Hn]; [done|].
    rewrite Z.pow_neg_r in Hhi by lia. lia. }
  destruct (decide (Zdigits2 m ≤ k - 1)) as [Hlt|Hge].
  { assert (2 ^ Zdigits2 m ≤ 2 ^ (k - 1)) by (apply pow2_le; lia). lia. }
  destruct (decide (k ≤ Zdigits2 m - 1)) as [Hlt|Hge'].
  { assert (2 ^ k ≤ 2 ^ (Zdigits2 m - 1)) by (apply pow2_le; lia). lia. }
  lia.
Qed.

Lemma Zdigits2_shift m k : 0 < m → 0 ≤ k → Zdigits2 (m * 2 ^ k) = Zdigits2 m + k.
Proof.
  intros Hm Hk. destruct (Zdigits2_bounds m Hm) as [Dlo Dhi].
  pose proof (pow2_pos k Hk) as Hp.
  assert (1 ≤ Zdigits2 m).
  { destruct (decide (1 ≤ Zdigits2 m)) as [|Hn]; [done|].
    pose proof (Zdigits2_nonneg m). replace (Zdigits2 m) with 0 in Dhi by lia.
    simpl in Dhi. lia. }
  apply Zdigits2_unique; [nia|].
  replace (Zdigits2 m + k - 1) with (Zdigits2 m - 1 + k) by lia.
  rewrite !Z.pow_add_r by lia. nia.
Qed.

Lemma binary_round_bounded sx mx ex B :
  Zdigits2 (Zpos mx) + ex ≤ B → -1074 ≤ B ≤ 1023 →
  bounded_float (B + 1) (binary_round prec emax sx mx ex)
  ∧ sign_is sx (binary_round prec emax sx mx ex).
Proof.
  intros HB HBr. unfold binary_round.
  change (Z.pos (digits2_pos mx)) with (Zdigits2 (Z.pos mx)).
  set (f := fexp prec emax (Zdigits2 (Z.pos mx) + ex)).
  destruct (shl_align_spec mx ex f) as [He Hmz].
  destruct (shl_align mx ex f) as [mz ez]. cbn [fst snd] in He, Hmz. subst ez.
  pose proof (Zdigits2_nonneg (Z.pos mx)).
  assert (f ≤ 970) by (unfold f; rewrite fexp_eq; lia).
  apply binary_round_aux_bounded; [lia| |lia|lia].
  rewrite Hmz, Zdigits2_shift by lia. lia.
Qed.

(** Rounding a value that is at most the largest float stays finite. *)
Lemma binary_round_top sx mx ex :
  -1074 ≤ ex → Zpos mx * 2 ^ (ex + 1074) ≤ value_max →
  bounded_float 1024 (binary_round prec emax sx mx ex)
  ∧ sign_is sx (binary_round prec emax sx mx ex).
Proof.
  intros Hex Hval.
  destruct (Zdigits2_bounds (Z.pos mx)) as [Dlo Dhi]; [lia|].
  set (d := Zdigits2 (Z.pos mx)) in *.
  assert (1 ≤ d) by (unfold d; simpl; lia).
  assert (d + ex ≤ 1024) as Hd.
  { destruct (decide (d + ex ≤ 1024)) as [|Hn]; [done|exfalso].
    assert (2 ^ 2098 ≤ 2 ^ (d - 1) * 2 ^ (ex + 1074)).
    { rewrite <- Z.pow_add_r by lia. apply pow2_le; lia. }
    pose proof (pow2_pos (ex + 1074) ltac:(lia)).
    assert (2 ^ (d - 1) * 2 ^ (ex + 1074) ≤ Z.pos mx * 2 ^ (ex + 1074)) by nia.
    unfold value_max in Hval.
    assert ((2 ^ 53 - 1) * 2 ^ 2045 < 2 ^ 2098) by (vm_compute; reflexivity).
    lia. }
  destruct (decide (d + ex ≤ 1023)) as [Hlow|Hhigh].
  { apply (binary_round_bounded sx mx ex 1023); [done|lia]. }
  assert (d + ex = 1024) as Hd' by lia.
  unfold binary_round.
  change (Z.pos (digits2_pos mx)) with d. rewrite fexp_eq.
  replace (Z.max (d + ex - 53) (-1074)) with 971 by lia.
  destruct (shl_align_spec mx ex 971) as [He Hmz].
  destruct (shl_align mx ex 971) as [mz ez]. cbn [fst snd] in He, Hmz.
  rewrite <- He in Hmz.
  assert (Zdigits2 (Z.pos mz) + ez = 1024) as Hdz
    by (rewrite Hmz, Zdigits2_shift by lia; fold d; lia).
  destruct (binary_round_aux_anatomy sx (Z.pos mz) ez loc_Exact) as (m2 & Hm2 & Hexact & ->);
    [lia|].
  rewrite Hdz, fexp_eq in Hm2, Hexact |- *.
  replace (Z.max ez (Z.max (1024 - 53) (-1074))) with 971 in * by lia.
  set (k := 971 - ez) in *. assert (0 ≤ k) by lia.
  pose proof (pow2_pos k ltac:(lia)) as Hk.
  assert (Z.pos mz ≤ (2 ^ 53 - 1) * 2 ^ k) as Hmzle.
  { assert (Z.pos mz * 2 ^ (ez + 1074) ≤ (2 ^ 53 - 1) * 2 ^ k * 2 ^ (ez + 1074)) as Hsc.
    { rewrite <- Z.mul_assoc, <- Z.pow_add_r by lia.
      replace (k + (ez + 1074)) with 2045 by lia.
      rewrite Hmz, <- Z.mul_assoc, <- Z.pow_add_r by lia.
      replace (ex - ez + (ez + 1074)) with (ex + 1074) by lia. exact Hval. }
    pose proof (pow2_pos (ez + 1074) ltac:(lia)). nia. }
  assert (m2 < 2 ^ 53) as Hm2lt.
  { assert (Z.pos mz = 2 ^ k * (Z.pos mz / 2 ^ k) + Z.pos mz mod 2 ^ k) as Hdm
      by (apply Z.div_mod; lia).
    assert (0 ≤ Z.pos mz mod 2 ^ k < 2 ^ k) as Hmb by (apply Z.mod_pos_bound; lia).
    destruct (decide (Z.pos mz mod 2 ^ k = 0)) as [Hz|Hnz].
    - rewrite (Hexact eq_refl Hz). rewrite Hz in Hdm.
      revert Hdm Hmzle Hk. generalize (Z.pos mz / 2 ^ k) (2 ^ k) (Z.pos mz).
      change (2 ^ 53) with 9007199254740992. intros. nia.
    - assert (Z.pos mz / 2 ^ k < 2 ^ 53 - 1); [|lia].
      revert Hdm Hmb Hnz Hmzle Hk.
      generalize (Z.pos mz / 2 ^ k) (Z.pos mz mod 2 ^ k) (2 ^ k) (Z.pos mz).
      change (2 ^ 53) with 9007199254740992. intros. nia. }
  assert (0 ≤ Z.pos mz / 2 ^ k) by (apply Z.div_pos; lia).
  destruct (second_step m2 971) as [(_ & -> & ->)|(-> & _)]; [lia|lia| |lia].
  destruct m2 as [|m|m]; [by split| |lia]. cbn [Z.leb Z.compare Pos.compare Pos.compare_cont].
  split; [|done]. cbn [bounded_float].
  change (Z.pos (digits2_pos m)) with (Zdigits2 (Z.pos m)).
  assert (Zdigits2 (Z.pos m) ≤ 53) by (apply Zdigits2_le; lia). lia.
Qed.

Lemma Zdigits2_abs m : Zdigits2 (Z.abs m) = Zdigits2 m.
Proof. by destruct m. Qed.

Lemma binary_normalize_bounded m e szero B :
  Zdigits2 m + e ≤ B → -1074 ≤ B ≤ 1023 →
  bounded_float (B + 1) (binary_normalize prec emax m e szero).
Proof.
  intros HB HBr. destruct m as [|m|m]; cbn [binary_normalize]; [done|..];
    by apply binary_round_bounded.
Qed.

Lemma binary_normalize_top m e szero :
  -1074 ≤ e → Z.abs m * 2 ^ (e + 1074) ≤ value_max →
  bounded_float 1024 (binary_normalize prec emax m e szero).
Proof.
  intros He Hval. destruct m as [|m|m]; cbn [binary_normalize]; [done|..];
    by apply binary_round_top.
Qed.

Lemma valid_bounded x :
  valid_binary prec emax x = true → is_finite x = true → bounded_float 1024 x.
Proof.
  destruct x as [s|s| |s m e]; try done. cbn [valid_binary bounded_float]. intros Hv _.
  unfold bounded, canonical_mantissa in Hv.
  apply andb_true_iff in Hv as [Hc%Z.eqb_eq He%Z.leb_le].
  rewrite fexp_eq in Hc. change (emax - prec) with 971 in He. lia.
Qed.

Lemma bounded_value s m e :
  bounded_float 1024 (S754_finite s m e) → Zpos m * 2 ^ (e + 1074) ≤ value_max.
Proof.
  cbn [bounded_float]. intros (He & Hd & _).
  assert (Z.pos m < 2 ^ 53) by (apply Zdigits2_lt_pow; [lia|done]).
  assert (2 ^ (e + 1074) ≤ 2 ^ 2045) by (apply pow2_le; lia).
  pose proof (pow2_pos (e + 1074) ltac:(lia)).
  unfold value_max. revert H H0 H1.
  generalize (2 ^ (e + 1074)) (Z.pos m).
  change (2 ^ 53) with 9007199254740992. intros. nia.
Qed.

Lemma bounded_weaken B B' x : B ≤ B' → bounded_float B x → bounded_float B' x.
Proof. intros HB. destruct x; cbn [bounded_float]; try done. lia. Qed.

Lemma bounded_finite B x : bounded_float B x → is_finite x = true.
Proof. by destruct x. Qed.

Lemma bounded_not_negative B x :
  bounded_float B x → sign_is false x → ltb x zero = false.
Proof. destruct x as [s|s| |s m e]; try done; cbn [sign_is]; by intros _ ->. Qed.

Lemma binary_normalize_nonneg m e B :
  0 ≤ m → Zdigits2 m + e ≤ B → -1074 ≤ B ≤ 1023 →
  sign_is false (binary_normalize prec emax m e false).
Proof.
  intros Hm HB HBr. destruct m as [|m|m]; cbn [binary_normalize]; [done| |lia].
  by apply (binary_round_bounded false m e B).
Qed.

Lemma ten_eq : of_Z 10 = S754_finite false 5629499534213120 (-49).
Proof. vm_compute. reflexivity. Qed.

Lemma one_eq : of_Z 1 = S754_finite false 4503599627370496 (-52).
Proof. vm_compute. reflexivity. Qed.

(** The remainder of a non-negative float by ten is a small non-negative
    float. *)
Lemma fmod_ten_bounded x :
  bounded_float 1024 x → sign_is false x →
  bounded_float 5 (fmod x (of_Z 10)) ∧ sign_is false (fmod x (of_Z 10)).
Proof.
  rewrite ten_eq. destruct x as [s|s| |s m e]; try done.
  cbn [sign_is bounded_float]. intros (He & Hd & _) ->.
  cbn [fmod cond_Zopp].
  set (e0 := Z.min e (-49)).
  set (X := Z.pos m * 2 ^ (e - e0)).
  set (Y := 5629499534213120 * 2 ^ (-49 - e0)).
  pose proof (pow2_pos (-49 - e0) ltac:(lia)) as HpY.
  pose proof (pow2_pos (e - e0) ltac:(lia)) as HpX.
  assert (0 < Y) as HY by (unfold Y; lia).
  assert (0 ≤ X mod Y < Y) as HR by (apply Z.mod_pos_bound; lia).
  assert (Y < 2 ^ (4 - e0)) as HYlt.
  { replace (4 - e0) with (53 + (-49 - e0)) by lia.
    rewrite Z.pow_add_r by lia. change (2 ^ 53) with 9007199254740992.
    unfold Y. lia. }
  revert HR. generalize (X mod Y). intros R HR.
  assert (Zdigits2 R + e0 ≤ 4) as Hdig.
  { assert (Zdigits2 R ≤ 4 - e0); [|lia].
    apply Zdigits2_le; lia. }
  split.
  - by apply (binary_normalize_bounded _ _ _ 4).
  - by apply (binary_normalize_nonneg _ _ 4); [lia|..].
Qed.

(** The difference of two non-negative floats does not overflow. *)
Lemma sub_nonneg_bounded x y :
  bounded_float 1024 x → sign_is false x →
  bounded_float 1024 y → sign_is false y →
  bounded_float 1024 (sub x y).
Proof.
  intros Hx Sx Hy Sy. unfold sub.
  destruct x as [sx|sx| |sx mx ex], y as [sy|sy| |sy my ey]; try done;
    cbn [sign_is] in Sx, Sy; subst; cbn [SFsub]; try done.
  pose proof (bounded_value _ _ _ Hx) as Vx.
  pose proof (bounded_value _ _ _ Hy) as Vy.
  destruct Hx as (Hex & _), Hy as (Hey & _).
  set (ez := Z.min ex ey).
  destruct (shl_align_spec mx ex ez) as [_ ->].
  destruct (shl_align_spec my ey ez) as [_ ->].
  replace (Z.min ex ez) with ez by lia. replace (Z.min ey ez) with ez by lia.
  cbn [cond_Zopp].
  apply binary_normalize_top; [lia|].
  pose proof (pow2_pos (ez + 1074) ltac:(lia)) as Hp.
  assert (Z.pos mx * 2 ^ (ex - ez) * 2 ^ (ez + 1074) = Z.pos mx * 2 ^ (ex + 1074)) as EA.
  { rewrite <- Z.mul_assoc, <- Z.pow_add_r by lia. do 2 f_equal. lia. }
  assert (Z.pos my * 2 ^ (ey - ez) * 2 ^ (ez + 1074) = Z.pos my * 2 ^ (ey + 1074)) as EB.
  { rewrite <- Z.mul_assoc, <- Z.pow_add_r by lia. do 2 f_equal. lia. }
  pose proof (pow2_pos (ex - ez) ltac:(lia)). pose proof (pow2_pos (ey - ez) ltac:(lia)).
  revert EA EB Vx Vy Hp H H0.
  generalize (2 ^ (ex + 1074)) (2 ^ (ey + 1074)) (2 ^ (ez + 1074))
             (2 ^ (ex - ez)) (2 ^ (ey - ez)) value_max.
  intros. nia.
Qed.

(** A float divided by ten does not overflow. *)
Lemma div_ten_bounded x :
  bounded_float 1024 x → bounded_float 1022 (SFdiv prec emax x (of_Z 10)).
Proof.
  rewrite ten_eq. destruct x as [s|s| |s m e]; try done.
  cbn [bounded_float]. intros (He & Hd & Hde).
  cbn [SFdiv]. unfold SFdiv_core_binary.
  change (Zdigits2 (Z.pos 5629499534213120)) with 53.
  set (d1 := Zdigits2 (Z.pos m)).
  assert (1 ≤ d1 ≤ 53) as Hd1 by (unfold d1; simpl; lia).
  set (e' := Z.min (fexp prec emax (d1 + e - (53 + -49))) (e - -49)).
  assert (e' ≤ 967 ∧ 0 ≤ e - -49 - e') as (He' & Hs)
    by (unfold e'; rewrite fexp_eq; simpl in Hde; lia).
  set (s' := e - -49 - e') in *.
  set (m' := match s' with Z.pos _ => Z.shiftl (Z.pos m) s' | 0 => Z.pos m | Z.neg _ => 0 end).
  assert (m' = Z.pos m * 2 ^ s') as Hm'.
  { unfold m'. destruct s' as [|k|k] eqn:Hk; [simpl; lia| |lia].
    by rewrite Z.shiftl_mul_pow2. }
  assert (0 < 2 ^ s') as Hps by (apply pow2_pos; lia).
  destruct (Z.div_eucl m' 5629499534213120) as [q r] eqn:Hqr.
  assert (q = m' / 5629499534213120) as Hq by (unfold Z.div; by rewrite Hqr).
  clearbody m'. subst m'.
  assert (0 ≤ q) as Hq0 by (rewrite Hq; apply Z.div_pos; lia).
  assert (Zdigits2 q + e' ≤ 1021) as Hdig.
  { assert (q ≤ Z.pos m * 2 ^ s' / 2 ^ 52) as Hle.
    { rewrite Hq. apply Z.div_le_compat_l; [lia|]. split; [done|]. by vm_compute. }
    destruct (Zdigits2_bounds (Z.pos m)) as [_ Dhi]; [lia|]. fold d1 in Dhi.
    assert (Z.pos m * 2 ^ s' < 2 ^ (d1 + s')) as Hlt
      by (rewrite Z.pow_add_r by lia; nia).
    destruct (decide (52 ≤ d1 + s')) as [Hbig|Hsmall].
    - assert (Zdigits2 q ≤ d1 + s' - 52); [|simpl in Hde; fold d1 in Hde; lia].
      apply Zdigits2_le; [lia..|].
      eapply Z.le_lt_trans; [exact Hle|].
      apply div_pow2_lt; [lia..|].
      by replace (52 + (d1 + s' - 52)) with (d1 + s') by lia.
    - assert (q = 0) as ->; [|simpl; lia].
      rewrite Hq. apply Z.div_small. split; [lia|].
      assert (2 ^ (d1 + s') ≤ 2 ^ 52) by (apply pow2_le; lia).
      change (2 ^ 52) with 4503599627370496 in *. lia. }
  change 1022 with (1021 + 1).
  apply binary_round_aux_bounded; lia.
Qed.

Lemma floor_bounded B x : 55 ≤ B → bounded_float B x → bounded_float B (floor x).
Proof.
  intros HB. destruct x as [s|s| |s m e]; try done.
  cbn [bounded_float floor]. intros (He & Hd & Hde).
  destruct (Z.leb_spec 0 e) as [Hpos|Hneg]; [done|].
  assert (0 < 2 ^ (- e)) as Hp by (apply pow2_pos; lia).
  assert (0 ≤ Z.pos m / 2 ^ (- e) < 2 ^ 53) as Hq.
  { split; [apply Z.div_pos; lia|].
    apply Z.div_lt_upper_bound; [done|].
    assert (Z.pos m < 2 ^ 53) by (apply Zdigits2_lt_pow; [lia|done]).
    change (2 ^ 53) with 9007199254740992 in *. nia. }
  revert Hq. generalize (Z.pos m / 2 ^ (- e)). intros q Hq.
  apply (bounded_weaken 55); [done|].
  assert (∀ n, Z.abs n ≤ 2 ^ 53 → Zdigits2 n + 0 ≤ 54) as Hdig.
  { intros n Hn. rewrite <- Zdigits2_abs, Z.add_0_r.
    apply Zdigits2_le; [lia..|]. change (2 ^ 54) with (2 * 2 ^ 53). lia. }
  destruct s; [destruct (_ =? _)|]; apply (binary_normalize_bounded _ _ _ 54);
    try apply Hdig; lia.
Qed.

Lemma add_one_bounded B x :
  0 ≤ B ≤ 1022 → bounded_float B x → bounded_float 1024 (add x (of_Z 1)).
Proof.
  intros HB. rewrite one_eq. unfold add.
  destruct x as [s|s| |s m e]; try done; cbn [SFadd bounded_float].
  intros (He & Hd & Hde).
  set (ez := Z.min e (-52)).
  destruct (shl_align_spec m e ez) as [_ ->].
  destruct (shl_align_spec 4503599627370496 (-52) ez) as [_ ->].
  replace (Z.min e ez) with ez by lia. replace (Z.min (-52) ez) with ez by lia.
  apply (bounded_weaken (B + 1 + 1)); [lia|].
  apply binary_normalize_bounded; [|lia].
  assert (Z.pos m * 2 ^ (e - ez) < 2 ^ (B - ez)) as HA.
  { replace (B - ez) with (B - e + (e - ez)) by lia.
    rewrite Z.pow_add_r by lia.
    assert (Z.pos m < 2 ^ (B - e)) by (apply Zdigits2_lt_pow; [lia|simpl; lia]).
    pose proof (pow2_pos (e - ez) ltac:(lia)). nia. }
  assert (4503599627370496 * 2 ^ (-52 - ez) ≤ 2 ^ (B - ez)) as HO.
  { change 4503599627370496 with (2 ^ 52). rewrite <- Z.pow_add_r by lia.
    apply pow2_le; lia. }
  pose proof (pow2_pos (e - ez) ltac:(lia)). pose proof (pow2_pos (-52 - ez) ltac:(lia)).
  assert (Zdigits2 (cond_Zopp s (Z.pos m * 2 ^ (e - ez))
                    + cond_Zopp false (4503599627370496 * 2 ^ (-52 - ez)))
          ≤ B + 1 - ez); [|lia].
  rewrite <- Zdigits2_abs. apply Zdigits2_le; [lia..|].
  replace (B + 1 - ez) with (Z.succ (B - ez)) by lia. rewrite Z.pow_succ_r by lia.
  assert (0 < Z.pos m * 2 ^ (e - ez)) as PA by lia.
  assert (0 < 4503599627370496 * 2 ^ (-52 - ez)) as PO by lia.
  revert HA HO PA PO.
  generalize (2 ^ (B - ez)) (Z.pos m * 2 ^ (e - ez)) (4503599627370496 * 2 ^ (-52 - ez)).
  destruct s; cbn [cond_Zopp]; lia.
Qed.

(** [x // 10] on a non-negative float is a float, not an infinity. *)
Lemma floordiv_ten_bounded x :
  bounded_float 1024 x → sign_is false x →
  ∃ t, floordiv x (of_Z 10) = Ok t ∧ bounded_float 1024 t.
Proof.
  intros Hx Sx. unfold floordiv.
  assert (eqb (of_Z 10) zero = false) as -> by (vm_compute; reflexivity).
  assert (ltb (of_Z 10) zero = false) as -> by (vm_compute; reflexivity).
  destruct (fmod_ten_bounded x Hx Sx) as [Hr Sr].
  rewrite (bounded_not_negative _ _ Hr Sr). cbn [xorb]. rewrite andb_false_r.
  pose proof (sub_nonneg_bounded x _ Hx Sx (bounded_weaken 5 1024 _ ltac:(lia) Hr) Sr) as Hd.
  pose proof (div_ten_bounded _ Hd) as Hq.
  set (q := SFdiv prec emax (sub x (fmod x (of_Z 10))) (of_Z 10)) in *.
  destruct (negb (eqb q zero)); [|by eexists].
  pose proof (floor_bounded 1022 q ltac:(lia) Hq) as Hfl.
  destruct (ltb (of_ratio 1 2) (sub q (floor q))).
  - eexists. split; [done|]. by apply (add_one_bounded 1022).
  - eexists. split; [done|]. by apply (bounded_weaken 1022).
Qed.

End F64Facts.

(** ** Numbers to patterns *)

Section PatternFacts.

Variable pow : float -> float -> float.
Variable round_ndigits : float -> Z -> float.

Lemma select_pattern_total number :
  select_pattern number = Ok (pattern_by_divisibility number).
Proof.
  unfold select_pattern, pattern_by_divisibility, multiple_of.
  assert (∀ k, F64.eqb (F64.of_Z k) F64.zero = false →
               ∃ r, F64.rem number (F64.of_Z k) = Ok r) as Hrem.
  { intros k Hk. unfold F64.rem. rewrite Hk.
    repeat match goal with |- context [if ?c then _ else _] => destruct c end; eauto. }
  destruct (Hrem 7) as [r7 ->]; [done|].
  destruct (Hrem 5) as [r5 ->]; [done|].
  destruct (Hrem 3) as [r3 ->]; [done|].
  destruct (Hrem 2) as [r2 ->]; [done|].
  cbn [mbind result_bind].
  by repeat match goal with |- context [if ?c then _ else _] => destruct c end.
Qed.

Lemma number_to_pattern_fields number obj :
  number_to_pattern pow round_ndigits number = Ok obj →
  field (Ok obj) "pattern" = Some (JStr (pattern_by_divisibility number))
  ∧ field (Ok obj) "is_negative" = Some (JBool (F64.ltb number F64.zero))
  ∧ field (Ok obj) "magnitude" = Some (JFloat (F64.abs number)).
Proof.
  unfold number_to_pattern. rewrite select_pattern_total.
  repeat match goal with
         | |- context [mbind _ ?m] =>
             lazymatch m with
             | Ok _ => cbn [mbind result_bind]
             | _ => destruct m; cbn [mbind result_bind]; [|done]
             end
         end.
  intros [= <-]. repeat split.
Qed.

Lemma rem_ok v k :
  F64.eqb (F64.of_Z k) F64.zero = false → ∃ r, F64.rem v (F64.of_Z k) = Ok r.
Proof.
  intros Hk. unfold F64.rem. rewrite Hk.
  repeat match goal with |- context [if ?c then _ else _] => destruct c end; eauto.
Qed.

(** On every finite float [number_to_pattern] returns a result. *)
Lemma number_to_pattern_total number :
  is_binary64 number = true → F64.is_finite number = true →
  ∃ obj, number_to_pattern pow round_ndigits number = Ok obj.
Proof.
  intros Hvalid Hfin.
  pose proof (F64Facts.valid_bounded number Hvalid Hfin) as Hb.
  assert (bounded_float 1024 (F64.abs number)
          ∧ sign_is false (F64.abs number)) as [Hab Hsign]
    by (by destruct number).
  unfold number_to_pattern. rewrite select_pattern_total.
  destruct (rem_ok (F64.abs number) 100) as [r1 ->]; [done|].
  destruct (rem_ok (F64.abs number) 10) as [r2 ->]; [done|].
  destruct (rem_ok (F64.mul (F64.abs number) (F64.of_Z 30)) 360) as [r3 ->]; [done|].
  destruct (F64Facts.floordiv_ten_bounded _ Hab Hsign) as (tens & -> & Htens).
  cbn [mbind result_bind].
  assert (∀ x B, bounded_float B x → ∃ z, F64.to_int x = Ok z) as Hint
    by (intros [| | |] B; try done; by eexists).
  destruct (Hint _ _ Hab) as [whole ->]. destruct (Hint _ _ Htens) as [t ->].
  assert (∃ e, F64.div r1 (F64.of_Z 100) = Ok e) as [e ->] by by eexists.
  cbn [mbind result_bind]. by eexists.
Qed.

End PatternFacts.

(** ** Content type detection *)

Lemma float_of_str_empty : Parse.float_of_str [] = Raise ValueError.
Proof. reflexivity. Qed.

Lemma detect_content_type_stripped s :
  s ≠ [] →
  detect_content_type (JStr s)
  = if is_hex_color (strip s) then detected "color" (JStr (strip s))
    else match Parse.float_of_str (strip s) with
         | Ok num => detected "number" (JFloat num)
         | Raise _ =>
             if negb (bool_decide (strip s = []))
             then detected "text" (JStr (strip s))
             else unknown
         end.
Proof. by destruct s. Qed.

(** C6: [detect_content_type] tries colour, then number, then text. A
    string whose stripped form is [#] and three or six hexadecimal digits
    is a colour, with the stripped string as value; otherwise a stripped
    string that [float] parses is a number, with the parsed value;
    otherwise a stripped string that is not empty is text; a value that
    is no string, and a string that is empty or white space only, is
    unknown with value null. So [#FF0000] is a colour, [42] the number
    42.0, [hello] text and the empty string unknown. *)
Theorem detect_content_type_order :
  (∀ s, is_hex_color (strip s) = true →
        detect_content_type (JStr s) = detected "color" (JStr (strip s)))
  ∧ (∀ s x, is_hex_color (strip s) = false → Parse.float_of_str (strip s) = Ok x →
            detect_content_type (JStr s) = detected "number" (JFloat x))
  ∧ (∀ s e, is_hex_color (strip s) = false → Parse.float_of_str (strip s) = Raise e →
            strip s ≠ [] →
            detect_content_type (JStr s) = detected "text" (JStr (strip s)))
  ∧ (∀ s, strip s = [] → detect_content_type (JStr s) = detected "unknown" JNull)
  ∧ (∀ v, (∀ s, v ≠ JStr s) → detect_content_type v = detected "unknown" JNull)
  ∧ detect_content_type (JStr (str_of "#FF0000"))
    = detected "color" (JStr (str_of "#FF0000"))
  ∧ detect_content_type (JStr (str_of "42")) = detected "number" (JFloat (F64.of_Z 42))
  ∧ detect_content_type (JStr (str_of "hello")) = detected "text" (JStr (str_of "hello"))
  ∧ detect_content_type (JStr (str_of "")) = detected "unknown" JNull.
Proof.
  split; [|split; [|split; [|split; [|split]]]].
  - intros s Hcol. rewrite detect_content_type_stripped.
    + by rewrite Hcol.
    + intros ->. discriminate Hcol.
  - intros s x Hcol Hnum. rewrite detect_content_type_stripped.
    + by rewrite Hcol, Hnum.
    + intros ->. discriminate Hnum.
  - intros s e Hcol Hnum Hne. rewrite detect_content_type_stripped.
    + rewrite Hcol, Hnum. by rewrite bool_decide_eq_false_2.
    + by intros ->.
  - intros s Hempty. destruct (decide (s = [])) as [->|Hne]; [done|].
    rewrite detect_content_type_stripped by done. by rewrite Hempty.
  - intros v Hv. destruct v; try done. by destruct (Hv s).
  - repeat split; vm_compute; reflexivity.
Qed.

Lemma detect_content_type_order_witness :
  detect_content_type (JStr (str_of " #F00 ")) = detected "color" (JStr (str_of "#F00"))
  ∧ detect_content_type (JStr (str_of " 4_2e0 ")) = detected "number" (JFloat (F64.of_Z 42))
  ∧ detect_content_type (JStr (str_of " #12G ")) = detected "text" (JStr (str_of "#12G"))
  ∧ detect_content_type (JStr (str_of "  ")) = detected "unknown" JNull
  ∧ detect_content_type (JInt 42) = detected "unknown" JNull.
Proof.
  destruct detect_content_type_order as (Hcolor & Hnumber & Htext & Hblank & Hother & _).
  split; [|split; [|split; [|split]]].
  - apply (Hcolor (str_of " #F00 ")). vm_compute. reflexivity.
  - apply (Hnumber (str_of " 4_2e0 ")); vm_compute; reflexivity.
  - apply (Htext (str_of " #12G ") ValueError); [vm_compute; reflexivity..|].
    vm_compute. discriminate.
  - apply (Hblank (str_of "  ")). vm_compute. reflexivity.
  - apply (Hother (JInt 42)). discriminate.
Defined.

(** ** Values that are not finite *)

Lemma tolower_inv c l :
  Parse.tolower c = l →
  c = l ∨ (((97 <=? l) && (l <=? 122))%N = true ∧ c = (l - 32)%N).
Proof.
  unfold Parse.tolower.
  destruct ((65 <=? c) && (c <=? 90))%N eqn:Hup; [|by left].
  apply andb_true_iff in Hup as [Hlo%N.leb_le Hhi%N.leb_le].
  intros <-. right. split; [|lia].
  apply andb_true_iff. split; apply N.leb_le; lia.
Qed.

Lemma case_variants_complete t : ∀ w, map Parse.tolower w = t → w ∈ case_variants t.
Proof.
  induction t as [|l t IH]; intros [|c w] Hmap; try done.
  - apply list_elem_of_singleton. done.
  - injection Hmap as Hc Hw. cbn [case_variants].
    apply list_elem_of_In, in_flat_map. exists w.
    split; [by apply list_elem_of_In, IH|].
    apply list_elem_of_In.
    destruct (tolower_inv c l Hc) as [->|[Hlow ->]].
    + destruct ((97 <=? l) && (l <=? 122))%N; apply elem_of_cons; by left.
    + rewrite Hlow. apply elem_of_cons. right. apply elem_of_cons. by left.
Qed.

Lemma split_sign_cases s :
  s = (Parse.split_sign s).2
  ∨ s = 43%N :: (Parse.split_sign s).2
  ∨ s = 45%N :: (Parse.split_sign s).2.
Proof.
  destruct s as [|c r]; [by left|]. unfold Parse.split_sign.
  destruct (N.eqb_spec c 45) as [->|_]; [by right; right|].
  destruct (N.eqb_spec c 43) as [->|_]; [by right; left|by left].
Qed.

Lemma nonfinite_spelling_listed s :
  is_nonfinite_spelling s = true → s ∈ nonfinite_spellings.
Proof.
  unfold is_nonfinite_spelling. intros Hw%bool_decide_eq_true.
  set (w := (Parse.split_sign s).2) in *.
  assert (w ∈ flat_map case_variants nonfinite_words) as Hin.
  { apply list_elem_of_In, in_flat_map. exists (map Parse.tolower w).
    split; [by apply list_elem_of_In|]. by apply list_elem_of_In, case_variants_complete. }
  apply list_elem_of_In, in_flat_map. exists w.
  split; [by apply list_elem_of_In|].
  apply list_elem_of_In.
  destruct (split_sign_cases s) as [Hs|[Hs|Hs]]; fold w in Hs; rewrite Hs at 1.
  - apply elem_of_cons. by left.
  - apply elem_of_cons. right. apply elem_of_cons. by left.
  - do 2 (apply elem_of_cons; right). apply elem_of_cons. by left.
Qed.

Lemma nonfinite_spellings_detected :
  forallb detected_nonfinite nonfinite_spellings = true.
Proof. vm_compute. reflexivity. Qed.

Section AutoFacts.

Variable pow : float -> float -> float.
Variable log2 : float -> float.
Variable round_ndigits : float -> Z -> float.
Variable sum_floats : list json -> json.
Variable self : ContentMapper.

#[local] Abbreviation auto := (map_auto pow log2 round_ndigits sum_floats self).
#[local] Abbreviation pattern := (number_to_pattern pow round_ndigits).

(** A detected number goes to [number_to_pattern] as it is. *)
Lemma map_auto_number data content x :
  dict_get data (str_of "content") = Some content →
  detect_content_type content = detected "number" (JFloat x) →
  auto data
  = (mapping ← pattern x;
     Ok (JObj [ (str_of "detected", JObj (detected "number" (JFloat x)));
                (str_of "mapping", mapping) ])).
Proof.
  intros Hget Hdet. unfold map_auto. rewrite Hget. cbv [default from_option id].
  rewrite Hdet. reflexivity.
Qed.

Lemma number_to_pattern_nonfinite x :
  F64.is_finite x = false → is_ok (pattern x) = false.
Proof.
  unfold number_to_pattern. rewrite select_pattern_total.
  destruct x as [s|s| |s m e]; try discriminate; intros _.
  - by destruct s.
  - reflexivity.
Qed.

(** C10: the strings [nan], [inf] and [infinity], in any letter case and
    after an optional sign, are detected as a number whose value is not
    finite, and [map_auto] hands that value to [number_to_pattern]
    unchanged (which then raises, so the route has no result). *)
Theorem nonfinite_spellings_reach_number_to_pattern (data : dict) (s : str) :
  is_nonfinite_spelling s = true →
  dict_get data (str_of "content") = Some (JStr s) →
  ∃ x,
    detect_content_type (JStr s) = detected "number" (JFloat x)
    ∧ F64.is_finite x = false
    ∧ auto data
      = (mapping ← pattern x;
         Ok (JObj [ (str_of "detected", JObj (detected "number" (JFloat x)));
                    (str_of "mapping", mapping) ]))
    ∧ is_ok (auto data) = false.
Proof.
  intros Hs%nonfinite_spelling_listed Hget.
  pose proof nonfinite_spellings_detected as Hall.
  rewrite forallb_forall in Hall.
  specialize (Hall s (proj1 (list_elem_of_In _ _) Hs)).
  unfold detected_nonfinite in Hall.
  destruct (detect_content_type (JStr s)) as [|[k1 [| | | |t| |]] [|[k2 [| | |x| | |]] [|]]] eqn:Hdet;
    try done.
  repeat (apply andb_true_iff in Hall as [Hall ?]).
  repeat match goal with H : bool_decide _ = true |- _ => apply bool_decide_eq_true in H end.
  subst k1 k2 t. exists x.
  assert (F64.is_finite x = false) as Hnf by by apply negb_true_iff.
  pose proof (map_auto_number data (JStr s) x Hget Hdet) as Hauto.
  repeat split; try done.
  rewrite Hauto. pose proof (number_to_pattern_nonfinite x Hnf) as Hraise.
  by destruct (pattern x).
Qed.

End AutoFacts.

Lemma nonfinite_spellings_reach_number_to_pattern_witness :
  ∃ x,
    detect_content_type (JStr (str_of "-InFiNiTy")) = detected "number" (JFloat x)
    ∧ F64.is_finite x = false
    ∧ map_auto (fun x _ => x) (fun x => x) (fun x _ => x) (fun _ => JNull)
        (new_mapper (str_of "pentatonic")) [ (str_of "content", JStr (str_of "-InFiNiTy")) ]
      = (mapping ← number_to_pattern (fun x _ => x) (fun x _ => x) x;
         Ok (JObj [ (str_of "detected", JObj (detected "number" (JFloat x)));
                    (str_of "mapping", mapping) ]))
    ∧ is_ok (map_auto (fun x _ => x) (fun x => x) (fun x _ => x) (fun _ => JNull)
               (new_mapper (str_of "pentatonic"))
               [ (str_of "content", JStr (str_of "-InFiNiTy")) ]) = false.
Proof.
  apply (nonfinite_spellings_reach_number_to_pattern
           (fun x _ => x) (fun x => x) (fun x _ => x) (fun _ => JNull)
           (new_mapper (str_of "pentatonic"))
           [ (str_of "content", JStr (str_of "-InFiNiTy")) ] (str_of "-InFiNiTy"));
    vm_compute; reflexivity.
Defined.

Section PatternClaim.

Variable pow : float -> float -> float.
Variable round_ndigits : float -> Z -> float.

#[local] Abbreviation to_pattern := (number_to_pattern pow round_ndigits).

(** On the ints from -1000 to 1000, [number % k == 0] on the float is
    divisibility of the int. *)
Lemma pattern_by_divisibility_small_ints z :
  -1000 ≤ z ≤ 1000 → pattern_by_divisibility (F64.of_Z z) = pattern_of_int z.
Proof.
  intros Hz.
  pose (check := fun z =>
    bool_decide (pattern_by_divisibility (F64.of_Z z) = pattern_of_int z)).
  assert (forallb check (seqZ (-1000) 2001) = true) as Hall by (vm_compute; reflexivity).
  rewrite forallb_forall in Hall.
  assert (z ∈ seqZ (-1000) 2001) as Hin by (apply elem_of_seqZ; lia).
  specialize (Hall z (proj1 (list_elem_of_In _ _) Hin)).
  by apply bool_decide_eq_true in Hall.
Qed.

(** C5: for every finite number [number_to_pattern] returns a result
    whose pattern is chosen by [number % k == 0] on the signed number
    itself, in the order 7 (wave), 5 (sweep), 3 (arpeggio), 2 (pulse),
    else steady, with [number < 0] as [is_negative] and [abs(number)] as
    [magnitude]. On ints the test is integer divisibility, and 49 gives
    wave, 25 sweep, 9 arpeggio, 4 pulse, 1 steady, while -10 gives
    [is_negative] true and [magnitude] 10. *)
Theorem number_to_pattern_by_divisibility :
  (∀ number,
     is_binary64 number = true → F64.is_finite number = true →
     ∃ obj,
       to_pattern number = Ok obj
       ∧ field (Ok obj) "pattern" = Some (JStr (pattern_by_divisibility number))
       ∧ field (Ok obj) "is_negative" = Some (JBool (F64.ltb number F64.zero))
       ∧ field (Ok obj) "magnitude" = Some (JFloat (F64.abs number)))
  ∧ (∀ z, -1000 ≤ z ≤ 1000 →
          pattern_by_divisibility (F64.of_Z z) = pattern_of_int z)
  ∧ field (to_pattern (F64.of_Z 49)) "pattern" = Some (JStr (str_of "wave"))
  ∧ field (to_pattern (F64.of_Z 25)) "pattern" = Some (JStr (str_of "sweep"))
  ∧ field (to_pattern (F64.of_Z 9)) "pattern" = Some (JStr (str_of "arpeggio"))
  ∧ field (to_pattern (F64.of_Z 4)) "pattern" = Some (JStr (str_of "pulse"))
  ∧ field (to_pattern (F64.of_Z 1)) "pattern" = Some (JStr (str_of "steady"))
  ∧ field (to_pattern (F64.of_Z (-10))) "is_negative" = Some (JBool true)
  ∧ field (to_pattern (F64.of_Z (-10))) "magnitude" = Some (JFloat (F64.of_Z 10)).
Proof.
  split.
  { intros number Hvalid Hfin.
    destruct (number_to_pattern_total pow round_ndigits number Hvalid Hfin) as [obj Hobj].
    exists obj. split; [done|]. by apply (number_to_pattern_fields pow round_ndigits). }
  split; [apply pattern_by_divisibility_small_ints|].
  repeat split; vm_compute; reflexivity.
Qed.

End PatternClaim.

Lemma number_to_pattern_by_divisibility_witness :
  ∃ obj,
    number_to_pattern (fun x _ => x) (fun x _ => x) (F64.of_Z (-14)) = Ok obj
    ∧ field (Ok obj) "pattern" = Some (JStr (pattern_by_divisibility (F64.of_Z (-14))))
    ∧ field (Ok obj) "is_negative" = Some (JBool (F64.ltb (F64.of_Z (-14)) F64.zero))
    ∧ field (Ok obj) "magnitude" = Some (JFloat (F64.abs (F64.of_Z (-14)))).
Proof.
  apply (proj1 (number_to_pattern_by_divisibility (fun x _ => x) (fun x _ => x))
           (F64.of_Z (-14))); vm_compute; reflexivity.
Defined.

Lemma preferences_defaults_and_merge_witness :
  get_preferences (fun s => s) (new_preferences None) (str_of "alice") = defaults.
Proof.
  apply (proj1 (preferences_defaults_and_merge (fun s => s) true
                  (new_preferences None) (str_of "alice"))).
  reflexivity.
Defined.

(** * Further properties *)

(** ** The preference store: presets, saving and merging *)

Lemma dict_set_keys_in (d : dict) k v : k ∈ d.*1 → (dict_set d k v).*1 = d.*1.
Proof.
  induction d as [|[k' v'] d IH]; simpl; [by intros ?%elem_of_nil|].
  intros Hin. destruct (decide (k' = k)) as [->|Hne].
  - by rewrite bool_decide_eq_true_2.
  - rewrite bool_decide_eq_false_2 by done. simpl. f_equal. apply IH.
    apply elem_of_cons in Hin as [?|?]; [congruence|done].
Qed.

Lemma dict_set_new (d : dict) k v : k ∉ d.*1 → dict_set d k v = d ++ [(k, v)].
Proof.
  induction d as [|[k' v'] d IH]; simpl; [done|].
  intros [Hne Hin]%not_elem_of_cons.
  rewrite bool_decide_eq_false_2 by congruence. by rewrite IH.
Qed.

Lemma dict_update_cons_other (e d : dict) k v :
  k ∉ e.*1 → dict_update ((k, v) :: d) e = (k, v) :: dict_update d e.
Proof.
  unfold dict_update. revert d.
  induction e as [|[k' v'] e IH]; intros d Hk; simpl; [done|].
  rewrite fmap_cons in Hk. apply not_elem_of_cons in Hk as [Hne Hk].
  rewrite bool_decide_eq_false_2 by done. by apply IH.
Qed.

Lemma dict_update_same_keys (e : dict) : ∀ d : dict,
  NoDup e.*1 → d.*1 = e.*1 → dict_update d e = e.
Proof.
  induction e as [|[k v] e IH]; intros [|[k' v'] d] Hnd Hkeys; try done.
  rewrite !fmap_cons in Hkeys. injection Hkeys as -> Hkeys.
  rewrite fmap_cons in Hnd. apply NoDup_cons in Hnd as [Hk Hnd].
  change (dict_update (dict_set ((k, v') :: d) k v) e = (k, v) :: e).
  cbn [dict_set]. rewrite bool_decide_eq_true_2 by done.
  rewrite dict_update_cons_other by done. f_equal. by apply IH.
Qed.

Lemma dict_update_app (d e1 e2 : dict) :
  dict_update d (e1 ++ e2) = dict_update (dict_update d e1) e2.
Proof. unfold dict_update. apply fold_left_app. Qed.

(** Writing a record back over itself with one key changed, as
    [add_preset] does, gives the changed record. *)
Lemma dict_update_set_self (d : dict) k v :
  NoDup d.*1 → dict_update d (dict_set d k v) = dict_set d k v.
Proof.
  intros Hnd. destruct (decide (k ∈ d.*1)) as [Hin|Hnew].
  - apply dict_update_same_keys.
    + by rewrite dict_set_keys_in.
    + by rewrite dict_set_keys_in.
  - rewrite (dict_set_new d k v Hnew), dict_update_app.
    rewrite (dict_update_same_keys d d) by done.
    by apply dict_set_new.
Qed.


Lemma dict_get_None (d : dict) k : k ∉ d.*1 → dict_get d k = None.
Proof.
  induction d as [|[k' v'] d IH]; simpl; [done|].
  intros [Hne Hin]%not_elem_of_cons.
  rewrite bool_decide_eq_false_2 by congruence. by apply IH.
Qed.

Lemma dict_get_Some_key (d : dict) k v : dict_get d k = Some v → k ∈ d.*1.
Proof.
  intros Hget. destruct (decide (k ∈ d.*1)) as [|Hnot]; [done|].
  by rewrite dict_get_None in Hget.
Qed.

(** Two dicts with the same keys in the same order and the same value
    at every key are equal. *)
Lemma dict_ext (a : dict) : ∀ b : dict,
  NoDup a.*1 → a.*1 = b.*1 → (∀ k, dict_get a k = dict_get b k) → a = b.
Proof.
  induction a as [|[k v] a IH]; intros [|[k' w] b] Hnd Hkeys Hget; try done.
  rewrite !fmap_cons in Hkeys. injection Hkeys as <- Hkeys.
  rewrite fmap_cons in Hnd. apply NoDup_cons in Hnd as [Hk Hnd].
  pose proof (Hget k) as Hhead. simpl in Hhead.
  rewrite !bool_decide_eq_true_2 in Hhead by done. injection Hhead as <-.
  f_equal. apply IH; [done..|].
  intros k'. destruct (decide (k = k')) as [<-|Hne].
  - rewrite !dict_get_None; [done|by rewrite <- Hkeys|done].
  - specialize (Hget k'). simpl in Hget.
    by rewrite !bool_decide_eq_false_2 in Hget by done.
Qed.

(** After an update a key has the value of its last entry in the update,
    and its old value when the update has none. *)
Lemma dict_get_update (e : dict) : ∀ (d : dict) k,
  dict_get (dict_update d e) k
  = match dict_get (reverse e) k with Some v => Some v | None => dict_get d k end.
Proof.
  induction e as [|[k0 v0] e IH] using rev_ind; intros d k; [done|].
  rewrite dict_update_app, reverse_snoc. cbn [dict_get].
  change (dict_update (dict_update d e) [(k0, v0)])
    with (dict_set (dict_update d e) k0 v0).
  destruct (decide (k0 = k)) as [->|Hne].
  - rewrite bool_decide_eq_true_2 by done. apply dict_get_set_eq.
  - rewrite bool_decide_eq_false_2 by done. rewrite dict_get_set_ne by done. apply IH.
Qed.

Lemma dict_set_NoDup (d : dict) k v : NoDup d.*1 → NoDup (dict_set d k v).*1.
Proof.
  intros Hnd. destruct (decide (k ∈ d.*1)) as [Hin|Hnew].
  - by rewrite dict_set_keys_in.
  - rewrite dict_set_new, fmap_app by done. apply NoDup_app. split; [done|].
    split; [|apply NoDup_singleton].
    intros x Hx ->%list_elem_of_singleton. done.
Qed.

Lemma dict_update_NoDup (e : dict) : ∀ d : dict, NoDup d.*1 → NoDup (dict_update d e).*1.
Proof.
  induction e as [|[k v] e IH]; intros d Hnd; [done|].
  apply (IH (dict_set d k v)). by apply dict_set_NoDup.
Qed.

Lemma dict_update_keys_in (e : dict) : ∀ d : dict,
  (∀ k, k ∈ e.*1 → k ∈ d.*1) → (dict_update d e).*1 = d.*1.
Proof.
  induction e as [|[k v] e IH]; intros d Hsub; [done|].
  change (dict_update d ((k, v) :: e)) with (dict_update (dict_set d k v) e).
  assert (k ∈ d.*1) as Hk by (apply Hsub; rewrite fmap_cons; apply elem_of_cons; by left).
  rewrite IH; [by apply dict_set_keys_in|].
  intros k' Hk'. rewrite dict_set_keys_in by done.
  apply Hsub. rewrite fmap_cons. apply elem_of_cons. by right.
Qed.

Lemma dict_update_has_keys (e d : dict) k : k ∈ e.*1 → k ∈ (dict_update d e).*1.
Proof.
  intros Hin. apply list_elem_of_fmap in Hin as ([k' v] & Heq & Hin).
  simpl in Heq. subst k.
  assert (is_Some (dict_get (reverse e) k')) as [w Hw].
  { assert (k' ∈ (reverse e).*1) as Hrev
      by (apply list_elem_of_fmap; exists (k', v); by rewrite elem_of_reverse).
    destruct (dict_get (reverse e) k') eqn:Hget; [by eexists|].
    clear -Hrev Hget. induction (reverse e) as [|[k0 v0] r IH]; [by apply elem_of_nil in Hrev|].
    simpl in *. destruct (decide (k0 = k')) as [->|Hne].
    - by rewrite bool_decide_eq_true_2 in Hget.
    - rewrite bool_decide_eq_false_2 in Hget by done.
      apply elem_of_cons in Hrev as [?|?]; [congruence|]. by apply IH. }
  apply (dict_get_Some_key _ _ w). by rewrite dict_get_update, Hw.
Qed.

(** Applying the same update twice is applying it once. *)
Lemma dict_update_idempotent (d e : dict) :
  NoDup d.*1 → dict_update (dict_update d e) e = dict_update d e.
Proof.
  intros Hnd.
  assert ((dict_update (dict_update d e) e).*1 = (dict_update d e).*1) as Hkeys
    by (apply dict_update_keys_in; intros k; apply dict_update_has_keys).
  apply dict_ext.
  - rewrite Hkeys. by apply dict_update_NoDup.
  - done.
  - intros k. rewrite (dict_get_update e (dict_update d e)).
    destruct (dict_get (reverse e) k) as [v|] eqn:Hv; [|done].
    by rewrite dict_get_update, Hv.
Qed.

Section PresetFacts.

Variable sha256_hexdigest : str -> str.
Variable json_dumps : dict -> str.
Variable io_ok : bool.

#[local] Abbreviation get := (get_preferences sha256_hexdigest).
#[local] Abbreviation set := (set_preferences sha256_hexdigest io_ok).
#[local] Abbreviation add := (add_preset sha256_hexdigest json_dumps io_ok).
#[local] Abbreviation uid := (_get_user_id sha256_hexdigest).
#[local] Abbreviation stamped := (with_id sha256_hexdigest json_dumps).

Lemma get_set_fst self u prefs u' :
  get (set self u prefs).1 u'
  = if bool_decide (uid u' = uid u) then dict_update (get self u) prefs else get self u'.
Proof.
  unfold set_preferences, get_preferences. cbn [fst].
  rewrite preferences_save. cbn [preferences].
  destruct (decide (uid u' = uid u)) as [Heq|Hne].
  - rewrite bool_decide_eq_true_2 by done. by rewrite Heq, lookup_insert_eq.
  - rewrite bool_decide_eq_false_2 by done. by rewrite lookup_insert_ne.
Qed.


(** X2: [set_preferences] stores whatever it is given under
    [presets]; when that is no list, the next [add_preset] of the user
    raises an [AttributeError]. *)
Theorem add_preset_needs_a_list self u v preset :
  is_list v = false →
  dict_get (get (set self u [(str_of "presets", v)]).1 u) (str_of "presets") = Some v
  ∧ add (set self u [(str_of "presets", v)]).1 u preset = Raise AttributeError.
Proof.
  intros Hv.
  assert (dict_get (get (set self u [(str_of "presets", v)]).1 u) (str_of "presets") = Some v)
    as Hstored.
  { rewrite get_set_fst, bool_decide_eq_true_2 by done. apply dict_get_set_eq. }
  split; [done|].
  unfold add_preset. rewrite Hstored. cbv [default from_option id].
  by destruct v.
Qed.

(** X3: setting the same preferences twice is setting them once: the
    second call returns the record of the first and leaves the store as
    it is. *)
Theorem set_preferences_idempotent self u prefs :
  distinct_keys (get self u) = true →
  (set (set self u prefs).1 u prefs).2 = (set self u prefs).2
  ∧ preferences (set (set self u prefs).1 u prefs).1 = preferences (set self u prefs).1.
Proof.
  intros Hnd%bool_decide_eq_true.
  assert ((set (set self u prefs).1 u prefs).2 = (set self u prefs).2) as Hsame.
  { unfold set_preferences at 1. cbn [snd]. rewrite get_set_fst, bool_decide_eq_true_2 by done.
    unfold set_preferences. cbn [snd]. by apply dict_update_idempotent. }
  split; [done|].
  unfold set_preferences at 1. cbn [fst]. rewrite preferences_save. cbn [preferences].
  change (dict_update (get (set self u prefs).1 u) prefs)
    with (set (set self u prefs).1 u prefs).2.
  rewrite Hsame.
  unfold set_preferences. cbn [fst snd]. rewrite preferences_save. cbn [preferences].
  apply insert_insert_eq.
Qed.

End PresetFacts.

Section StorageFacts.

Variable sha256_hexdigest : str -> str.

#[local] Abbreviation get := (get_preferences sha256_hexdigest).
#[local] Abbreviation set := (set_preferences sha256_hexdigest).


End StorageFacts.


Lemma add_preset_needs_a_list_witness :
  add_preset (fun s => s) (fun _ => []) true
    (set_preferences (fun s => s) true (new_preferences None) (str_of "ann")
       [ (str_of "presets", JStr (str_of "none")) ]).1
    (str_of "ann") (named_preset 1)
  = Raise AttributeError.
Proof.
  apply (add_preset_needs_a_list (fun s => s) (fun _ => []) true
           (new_preferences None) (str_of "ann") (JStr (str_of "none")) (named_preset 1)).
  reflexivity.
Defined.

Lemma set_preferences_idempotent_witness :
  (set_preferences (fun s => s) true
     (set_preferences (fun s => s) true (new_preferences None) (str_of "ann")
        [ (str_of "volume", JInt 80) ]).1
     (str_of "ann") [ (str_of "volume", JInt 80) ]).2
  = (set_preferences (fun s => s) true (new_preferences None) (str_of "ann")
       [ (str_of "volume", JInt 80) ]).2.
Proof.
  apply (set_preferences_idempotent (fun s => s) true
           (new_preferences None) (str_of "ann") [ (str_of "volume", JInt 80) ]).
  vm_compute. reflexivity.
Defined.

(** ** Letters, digits and notes *)

Lemma Ok_inj {A} (a b : A) : Ok a = Ok b → a = b.
Proof. by intros [= ->]. Qed.

Lemma get_scale_cases name : _get_scale name ∈ scales.
Proof.
  unfold _get_scale, scales.
  repeat case_bool_decide; repeat first [apply list_elem_of_here | apply list_elem_of_further].
Qed.

Lemma list_index_ok {A} (l : list A) (i : Z) (d : A) :
  0 ≤ i < Z.of_nat (length l) →
  list_index l i = Ok (nth (Z.to_nat i) l d) ∧ nth (Z.to_nat i) l d ∈ l.
Proof.
  intros Hi. unfold list_index.
  destruct (Z.ltb_spec i 0) as [|_]; [lia|].
  destruct (Z.ltb_spec i 0) as [|_]; [lia|].
  assert (is_Some (l !! Z.to_nat i)) as [x Hx] by (apply lookup_lt_is_Some; lia).
  rewrite Hx. rewrite (nth_lookup_Some _ _ d _ Hx).
  split; [done|]. by eapply list_elem_of_lookup_2.
Qed.

Lemma int_mod_ok a b : b ≠ 0 → int_mod a b = Ok (a mod b).
Proof. intros Hb. unfold int_mod. by destruct (Z.eqb_spec b 0). Qed.

Lemma int_floordiv_ok a b : b ≠ 0 → int_floordiv a b = Ok (a / b).
Proof. intros Hb. unfold int_floordiv. by destruct (Z.eqb_spec b 0). Qed.

Lemma int_truediv_twelfth s : 0 ≤ s ≤ 71 → ∃ e, F64.int_truediv s 12 = Ok e.
Proof.
  intros Hs.
  assert (forallb (fun s => is_ok (F64.int_truediv s 12)) (seqZ 0 72) = true) as Hall
    by (vm_compute; reflexivity).
  rewrite forallb_forall in Hall.
  assert (s ∈ seqZ 0 72) as Hin by (apply elem_of_seqZ; lia).
  specialize (Hall s (proj1 (list_elem_of_In _ _) Hin)).
  destruct (F64.int_truediv s 12) as [e|]; [by exists e|discriminate Hall].
Qed.

Lemma letter_semitones_range scale n :
  scale ∈ scales → 0 ≤ n ≤ 25 →
  scale ≠ [] ∧ 0 ≤ letter_semitones scale n ≤ 71.
Proof.
  intros Hscale Hn.
  assert (forallb (fun scale =>
            negb (bool_decide (scale = []))
            && forallb (fun n => (0 <=? letter_semitones scale n)
                                 && (letter_semitones scale n <=? 71)) (seqZ 0 26))
            scales = true) as Hall by (vm_compute; reflexivity).
  rewrite forallb_forall in Hall.
  specialize (Hall scale (proj1 (list_elem_of_In _ _) Hscale)).
  apply andb_true_iff in Hall as [Hne%negb_true_iff%bool_decide_eq_false Hall].
  split; [done|].
  rewrite forallb_forall in Hall.
  assert (n ∈ seqZ 0 26) as Hin by (apply elem_of_seqZ; lia).
  specialize (Hall n (proj1 (list_elem_of_In _ _) Hin)).
  apply andb_true_iff in Hall as [?%Z.leb_le ?%Z.leb_le]. lia.
Qed.

Lemma ascii_letter_upper c :
  is_ascii_letter c = true →
  ord (upper [c]) = Ok (65 + letter_index c) ∧ 0 ≤ letter_index c ≤ 25.
Proof.
  intros Hc.
  assert (c ∈ map N.of_nat (seq 65 58)) as Hin.
  { apply list_elem_of_fmap. exists (N.to_nat c). split; [lia|].
    apply elem_of_seq. unfold is_ascii_letter in Hc.
    rewrite orb_true_iff, !andb_true_iff, !N.leb_le in Hc. lia. }
  assert (forallb (fun c => negb (is_ascii_letter c)
                            || match ord (upper [c]) with
                               | Ok u => u =? 65 + letter_index c
                               | Raise _ => false
                               end
                               && (0 <=? letter_index c) && (letter_index c <=? 25))
            (map N.of_nat (seq 65 58)) = true) as Hall by (vm_compute; reflexivity).
  rewrite forallb_forall in Hall.
  specialize (Hall c (proj1 (list_elem_of_In _ _) Hin)). rewrite Hc in Hall.
  cbn [negb orb] in Hall.
  apply andb_true_iff in Hall as [[Hu ?%Z.leb_le]%andb_true_iff ?%Z.leb_le].
  destruct (ord (upper [c])) as [u|]; [|discriminate Hu].
  apply Z.eqb_eq in Hu as ->. split; [done|lia].
Qed.

Section LetterFacts.

Variable pow : float -> float -> float.

#[local] Abbreviation frequency := (char_to_frequency pow).

(** A character whose uppercase is a letter [A] to [Z] sounds at the
    semitones its place in the alphabet has in the scale. *)
Lemma char_to_frequency_letter_code name c u :
  ord (upper [c]) = Ok u → 65 ≤ u ≤ 90 →
  ∃ e,
    F64.int_truediv (letter_semitones (_get_scale name) (u - 65)) 12 = Ok e
    ∧ frequency (new_mapper name) [c]
      = Ok (F64.mul BASE_FREQUENCY (pow (F64.of_Z 2) e)).
Proof.
  intros Hord Hu.
  destruct (letter_semitones_range (_get_scale name) (u - 65) (get_scale_cases name))
    as [Hne Hrange]; [lia|].
  destruct (int_truediv_twelfth _ Hrange) as [e He]. exists e. split; [done|].
  unfold char_to_frequency. rewrite bool_decide_eq_false_2 by done.
  rewrite Hord. cbn [mbind result_bind scale new_mapper].
  destruct (Z.leb_spec 65 u) as [_|]; [|lia]. destruct (Z.leb_spec u 90) as [_|]; [|lia].
  cbn [andb].
  assert (Z.of_nat (length (_get_scale name)) ≠ 0) as Hlen
    by (destruct (_get_scale name); [done|simpl; lia]).
  rewrite (int_mod_ok _ _ Hlen), (int_floordiv_ok _ _ Hlen). cbn [mbind result_bind].
  destruct (list_index_ok (_get_scale name)
              ((u - 65) mod Z.of_nat (length (_get_scale name))) 0) as [-> _].
  { apply Z.mod_pos_bound. lia. }
  cbn [mbind result_bind]. unfold letter_semitones in He. by rewrite He.
Qed.

Lemma char_to_frequency_digit_code self c u :
  ord (upper [c]) = Ok u → 48 ≤ u ≤ 57 →
  ∃ e,
    F64.int_truediv (u - 48) 12 = Ok e
    ∧ frequency self [c] = Ok (F64.mul BASE_FREQUENCY (pow (F64.of_Z 2) e)).
Proof.
  intros Hord Hu.
  destruct (int_truediv_twelfth (u - 48)) as [e He]; [lia|]. exists e. split; [done|].
  unfold char_to_frequency. rewrite bool_decide_eq_false_2 by done.
  rewrite Hord. cbn [mbind result_bind].
  destruct (Z.leb_spec 65 u) as [|_]; [lia|]. cbn [andb].
  destruct (Z.leb_spec 48 u) as [_|]; [|lia]. destruct (Z.leb_spec u 57) as [_|]; [|lia].
  cbn [andb]. by rewrite He.
Qed.

(** X11: [set_scale] takes one of the three scales, the pentatonic one
    for every name but [major] and [minor], and with it every ASCII
    letter, upper or lower case, sounds at the base frequency times 2 to
    the power of a twelfth of its semitones: those of its place in the
    alphabet, read around the scale, an octave up for each turn. *)
Theorem char_to_frequency_of_letter self name c :
  is_ascii_letter c = true →
  scale (set_scale self name) ∈ scales
  ∧ (name ∉ [str_of "major"; str_of "minor"] →
     scale (set_scale self name) = PENTATONIC_SCALE)
  ∧ ∃ e,
      F64.int_truediv
        (letter_semitones (scale (set_scale self name)) (letter_index c)) 12 = Ok e
      ∧ frequency (set_scale self name) [c]
        = Ok (F64.mul BASE_FREQUENCY (pow (F64.of_Z 2) e)).
Proof.
  intros Hc. split; [apply get_scale_cases|]. split.
  - intros Hname. cbn [scale set_scale]. unfold _get_scale.
    repeat case_bool_decide; try reflexivity; subst name;
      exfalso; apply Hname; repeat first [apply list_elem_of_here | apply list_elem_of_further].
  - destruct (ascii_letter_upper c Hc) as [Hord Hindex].
    destruct (char_to_frequency_letter_code name c _ Hord) as (e & He & Hfreq); [lia|].
    exists e. replace (65 + letter_index c - 65) with (letter_index c) in He by lia. done.
Qed.

Lemma char_to_frequency_ok_iff name c :
  is_ok (frequency (new_mapper name) [c]) = (length (upper [c]) =? 1)%nat
  ∧ (length (upper [c]) ≠ 1%nat → frequency (new_mapper name) [c] = Raise TypeError).
Proof.
  assert (length (upper [c]) ≠ 1%nat → frequency (new_mapper name) [c] = Raise TypeError)
    as Hlong.
  { intros Hlen. unfold char_to_frequency. rewrite bool_decide_eq_false_2 by done.
    destruct (upper [c]) as [|u [|]]; done. }
  split; [|done].
  destruct (Nat.eqb_spec (length (upper [c])) 1) as [Hone|Hlen]; [|by rewrite Hlong].
  destruct (upper [c]) as [|u [|]] eqn:Hup; try done.
  assert (ord (upper [c]) = Ok (Z.of_N u)) as Hord by by rewrite Hup.
  destruct (decide (65 ≤ Z.of_N u ≤ 90)) as [Hletter|Hother].
  { destruct (char_to_frequency_letter_code name c _ Hord Hletter) as (e & _ & ->). done. }
  destruct (decide (48 ≤ Z.of_N u ≤ 57)) as [Hdigit|Hnone].
  { destruct (char_to_frequency_digit_code (new_mapper name) c _ Hord Hdigit) as (e & _ & ->).
    done. }
  rewrite char_to_frequency_sounds_base; [done|].
  unfold sounds_base. rewrite Hord.
  apply andb_true_iff. split; apply negb_true_iff, andb_false_iff;
    rewrite !Z.leb_gt; lia.
Qed.

(** X12: on a one-character string [char_to_frequency] returns a
    frequency exactly when the uppercase of the character is one
    character; otherwise it raises a [TypeError]. *)
Theorem char_to_frequency_raises_only_on_long_uppercase name c :
  is_ok (frequency (new_mapper name) [c]) = (length (upper [c]) =? 1)%nat
  ∧ (length (upper [c]) ≠ 1%nat → frequency (new_mapper name) [c] = Raise TypeError).
Proof. apply char_to_frequency_ok_iff. Qed.

(** X13: [char_to_frequency] depends on a string through its uppercase
    only, so a lower-case ASCII letter sounds as its capital. *)
Theorem char_to_frequency_ignores_case self :
  (∀ x y, x ≠ [] → y ≠ [] → upper x = upper y → frequency self x = frequency self y)
  ∧ (∀ c, (97 ≤ c ≤ 122)%N → frequency self [c] = frequency self [(c - 32)%N]).
Proof.
  assert (∀ x y, x ≠ [] → y ≠ [] → upper x = upper y → frequency self x = frequency self y)
    as Hupper.
  { intros x y Hx Hy Heq. unfold char_to_frequency.
    rewrite !bool_decide_eq_false_2 by done. by rewrite Heq. }
  split; [done|].
  intros c Hc. apply Hupper; [done..|].
  assert (c ∈ map N.of_nat (seq 97 26)) as Hin.
  { apply list_elem_of_fmap. exists (N.to_nat c). split; [lia|]. apply elem_of_seq. lia. }
  assert (forallb (fun c => bool_decide (upper [c] = upper [(c - 32)%N]))
            (map N.of_nat (seq 97 26)) = true) as Hall by (vm_compute; reflexivity).
  rewrite forallb_forall in Hall.
  eapply bool_decide_eq_true_1, Hall. by apply list_elem_of_In.
Qed.

(** X14: the scale matters for the letters only: a character whose
    uppercase is no letter [A] to [Z] has the same frequency in every
    scale, and the digit [d] sounds at the base frequency times 2 to the
    power of [d / 12]. *)
Theorem char_to_frequency_scale_matters_for_letters_only :
  (∀ self self' c, sounds_letter c = false → frequency self [c] = frequency self' [c])
  ∧ (∀ self d, 0 ≤ d ≤ 9 →
       ∃ e,
         F64.int_truediv d 12 = Ok e
         ∧ frequency self [Z.to_N (48 + d)]
           = Ok (F64.mul BASE_FREQUENCY (pow (F64.of_Z 2) e))).
Proof.
  split.
  - intros self self' c. unfold sounds_letter, char_to_frequency.
    rewrite bool_decide_eq_false_2 by done.
    destruct (ord (upper [c])) as [u|]; [|done].
    cbn [mbind result_bind]. by intros ->.
  - intros self d Hd.
    assert (ord (upper [Z.to_N (48 + d)]) = Ok (48 + d)) as Hord.
    { assert (forallb (fun d => bool_decide (upper [Z.to_N (48 + d)] = [Z.to_N (48 + d)]))
                (seqZ 0 10) = true) as Hall by (vm_compute; reflexivity).
      rewrite forallb_forall in Hall.
      assert (upper [Z.to_N (48 + d)] = [Z.to_N (48 + d)]) as ->
        by (eapply bool_decide_eq_true_1, Hall; apply list_elem_of_In, elem_of_seqZ; lia).
      cbn [ord]. f_equal. lia. }
    destruct (char_to_frequency_digit_code self _ _ Hord) as (e & He & Hfreq); [lia|].
    exists e. by replace (48 + d - 48) with d in He by lia.
Qed.

End LetterFacts.

Lemma strip_single c : strip [c] = if Unicode.isspace c then [] else [c].
Proof. unfold strip, rstrip_with. cbn. destruct (Unicode.isspace c) eqn:Hc; cbn; by rewrite ?Hc. Qed.

Section EntryFacts.

Variable pow : float -> float -> float.
Variable log2 : float -> float.
Variable round_ndigits : float -> Z -> float.
Variable self : ContentMapper.

#[local] Abbreviation mapping := (frequency_mapping pow log2 round_ndigits self).
#[local] Abbreviation mappings_from := (text_to_frequencies_from pow log2 round_ndigits self).
#[local] Abbreviation mappings := (text_to_frequencies pow log2 round_ndigits self).

Lemma frequency_mapping_fields i c entry :
  mapping i c = Ok entry →
  ∃ obj,
    entry = JObj obj
    ∧ obj.*1 = entry_keys
    ∧ dict_get obj (str_of "index") = Some (JInt i)
    ∧ dict_get obj (str_of "char") = Some (JStr [c])
    ∧ dict_get obj (str_of "duration")
      = Some (JFloat (F64.of_decimal false (if Unicode.isspace c then 1 else 2) (-1)))
    ∧ (Unicode.isspace c = true → entry = rest_entry i c).
Proof.
  unfold frequency_mapping. rewrite strip_single.
  destruct (Unicode.isspace c).
  - rewrite bool_decide_eq_true_2 by done. cbn [negb].
    intros <-%Ok_inj. eexists. split; [reflexivity|]. by repeat split.
  - rewrite bool_decide_eq_false_2 by done. cbn [negb].
    destruct (char_to_frequency pow self [c]) as [freq|]; [|discriminate].
    cbn [mbind result_bind].
    destruct (_frequency_to_note log2 freq) as [note|]; [|discriminate].
    cbn [mbind result_bind].
    intros <-%Ok_inj. eexists. split; [reflexivity|].
    split; [reflexivity|]. split; [reflexivity|]. split; [reflexivity|].
    split; [reflexivity|]. discriminate.
Qed.

Lemma text_to_frequencies_from_entries text : ∀ start entries,
  mappings_from start text = Ok entries →
  length entries = length text
  ∧ ∀ (i : nat) c, text !! i = Some c →
      ∃ entry, entries !! i = Some entry ∧ mapping (start + Z.of_nat i) c = Ok entry.
Proof.
  induction text as [|c0 rest IH]; intros start entries; cbn [text_to_frequencies_from].
  - intros <-%Ok_inj. split; [done|]. intros i c Hi. by rewrite lookup_nil in Hi.
  - destruct (mapping start c0) as [entry|] eqn:Hentry; [|discriminate].
    cbn [mbind result_bind].
    destruct (mappings_from (start + 1) rest) as [tail|] eqn:Htail; [|discriminate].
    cbn [mbind result_bind]. intros <-%Ok_inj.
    destruct (IH _ _ Htail) as [Hlen Hnth].
    split; [simpl; by rewrite Hlen|].
    intros [|i] c Hi.
    + injection Hi as <-. exists entry. by rewrite Z.add_0_r.
    + destruct (Hnth i c Hi) as (e & He & Hmap). exists e. split; [done|].
      rewrite <- Hmap. f_equal. lia.
Qed.

(** X15: a result of [text_to_frequencies] has one entry for each
    character of the text, in order; the entry has the five keys [index],
    [char], [frequency], [note] and [duration], its index is the place of
    the character, its duration 0.1 for white space and 0.2 otherwise,
    and for white space it is the rest entry. *)
Theorem text_to_frequencies_entries text entries :
  mappings text = Ok entries →
  length entries = length text
  ∧ ∀ (i : nat) c, text !! i = Some c →
      ∃ obj,
        entries !! i = Some (JObj obj)
        ∧ obj.*1 = entry_keys
        ∧ dict_get obj (str_of "index") = Some (JInt (Z.of_nat i))
        ∧ dict_get obj (str_of "char") = Some (JStr [c])
        ∧ dict_get obj (str_of "duration")
          = Some (JFloat (F64.of_decimal false (if Unicode.isspace c then 1 else 2) (-1)))
        ∧ (Unicode.isspace c = true → JObj obj = rest_entry (Z.of_nat i) c).
Proof.
  intros Hok. destruct (text_to_frequencies_from_entries text 0 entries Hok) as [Hlen Hnth].
  split; [done|]. intros i c Hi.
  destruct (Hnth i c Hi) as (entry & Hentry & Hmap).
  destruct (frequency_mapping_fields _ _ _ Hmap) as (obj & -> & Hfields).
  exists obj. split; [done|]. exact Hfields.
Qed.

Lemma text_to_frequencies_from_blank text : ∀ start,
  forallb Unicode.isspace text = true →
  mappings_from start text = Ok (imap (fun i c => rest_entry (start + Z.of_nat i) c) text).
Proof.
  induction text as [|c rest IH]; intros start; [done|].
  cbn [forallb]. intros [Hc Hrest]%andb_true_iff.
  cbn [text_to_frequencies_from].
  rewrite (whitespace_is_rest pow log2 round_ndigits self start c Hc).
  cbn [mbind result_bind]. rewrite (IH (start + 1) Hrest). cbn [mbind result_bind imap].
  fold (rest_entry start c). rewrite Z.add_0_r. do 2 f_equal.
  apply imap_ext. intros i x _. unfold compose. f_equal. lia.
Qed.

(** X16: on a text of white space only [text_to_frequencies] calls
    neither [char_to_frequency] nor the host's functions: it returns the
    rest entries. *)
Theorem text_to_frequencies_of_blank_text text :
  forallb Unicode.isspace text = true →
  mappings text = Ok (imap (fun i c => rest_entry (Z.of_nat i) c) text).
Proof. intros Hblank. exact (text_to_frequencies_from_blank text 0 Hblank). Qed.

Lemma frequency_to_note_cases f :
  (F64.leb f F64.zero = true → _frequency_to_note log2 f = Ok (str_of "rest"))
  ∧ (∀ e, _frequency_to_note log2 f = Raise e → e = ValueError ∨ e = OverflowError)
  ∧ (∀ s, _frequency_to_note log2 f = Ok s →
          s = str_of "rest"
          ∨ ∃ name octave, name ∈ notes ∧ s = name ++ str_of_int octave).
Proof.
  unfold _frequency_to_note.
  destruct (F64.leb f F64.zero).
  { split; [done|]. split; [discriminate|]. intros s <-%Ok_inj. by left. }
  split; [discriminate|].
  assert (F64.eqb (F64.of_Z 440) F64.zero = false) as H440 by (vm_compute; reflexivity).
  unfold F64.div. rewrite H440. cbn [mbind result_bind].
  set (ratio := SFdiv F64.prec F64.emax f (F64.of_Z 440)).
  assert (∀ z, ∃ name,
            list_index notes (z mod 12) = Ok name ∧ name ∈ notes) as Hname.
  { intros z. destruct (list_index_ok notes (z mod 12) []) as [Hidx Hin].
    - apply Z.mod_pos_bound. simpl. lia.
    - eauto. }
  assert (∀ l,
    let result :=
      rounded ← F64.round_int (F64.add (F64.mul (F64.of_Z 12) l) (F64.of_Z 69));
      note_index ← int_mod rounded 12;
      octaves ← int_floordiv rounded 12;
      name ← list_index notes note_index;
      Ok (name ++ str_of_int (octaves - 1)) in
    (∀ e, result = Raise e → e = ValueError ∨ e = OverflowError)
    ∧ (∀ s, result = Ok s →
            s = str_of "rest" ∨ ∃ name octave, name ∈ notes ∧ s = name ++ str_of_int octave))
    as Hrest.
  { intros l. cbv zeta.
    destruct (F64.add _ _) as [sg|sg| |sg m e]; cbn [F64.round_int mbind result_bind].
    - rewrite (int_mod_ok _ 12), (int_floordiv_ok _ 12) by lia. cbn [mbind result_bind].
      destruct (Hname 0) as (name & -> & Hin).
      cbn [mbind result_bind]. split; [discriminate|]. intros s <-%Ok_inj. right. eauto.
    - split; [intros e0 [= <-]; by right|discriminate].
    - split; [intros e0 [= <-]; by left|discriminate].
    - destruct (0 <=? e);
        cbn [mbind result_bind];
        rewrite (int_mod_ok _ 12), (int_floordiv_ok _ 12) by lia; cbn [mbind result_bind];
        match goal with |- context [list_index notes (?z mod 12)] =>
          destruct (Hname z) as (name & -> & Hin) end;
        cbn [mbind result_bind]; (split; [discriminate|]); intros s <-%Ok_inj; right; eauto. }
  unfold math_log2.
  destruct ratio as [sg|sg| |sg m e].
  - destruct (F64.leb _ _); [split; [intros e0 [= <-]; by left|discriminate]|apply Hrest].
  - destruct (F64.leb _ _); [split; [intros e0 [= <-]; by left|discriminate]|apply Hrest].
  - apply Hrest.
  - destruct (F64.leb _ _); [split; [intros e0 [= <-]; by left|discriminate]|apply Hrest].
Qed.

(** X17: [_frequency_to_note] answers [rest] for a frequency that is not
    positive; what it returns is [rest] or one of the twelve note names
    followed by an octave number, and what it raises is a [ValueError] or
    an [OverflowError], never an [IndexError] of the note table. *)
Theorem frequency_to_note_shape f :
  (F64.leb f F64.zero = true → _frequency_to_note log2 f = Ok (str_of "rest"))
  ∧ (∀ e, _frequency_to_note log2 f = Raise e → e = ValueError ∨ e = OverflowError)
  ∧ (∀ s, _frequency_to_note log2 f = Ok s →
          s = str_of "rest"
          ∨ ∃ name octave, name ∈ notes ∧ s = name ++ str_of_int octave).
Proof. apply frequency_to_note_cases. Qed.

End EntryFacts.

Section TextErrors.

Variable pow : float -> float -> float.
Variable log2 : float -> float.
Variable round_ndigits : float -> Z -> float.

#[local] Abbreviation mapping := (frequency_mapping pow log2 round_ndigits).
#[local] Abbreviation mappings_from := (text_to_frequencies_from pow log2 round_ndigits).
#[local] Abbreviation mappings := (text_to_frequencies pow log2 round_ndigits).

Lemma frequency_mapping_errors name i c e :
  mapping (new_mapper name) i c = Raise e →
  e = ValueError ∨ e = OverflowError
  ∨ (e = TypeError ∧ Unicode.isspace c = false ∧ length (upper [c]) ≠ 1%nat).
Proof.
  unfold frequency_mapping. rewrite strip_single.
  destruct (Unicode.isspace c) eqn:Hspace.
  { rewrite bool_decide_eq_true_2 by done. discriminate. }
  rewrite bool_decide_eq_false_2 by done. cbn [negb].
  destruct (char_to_frequency_ok_iff pow name c) as [Hok Hlong].
  destruct (char_to_frequency pow (new_mapper name) [c]) as [f|e'] eqn:Hfreq.
  - cbn [mbind result_bind].
    destruct (frequency_to_note_cases log2 f) as (_ & Hraise & _).
    destruct (_frequency_to_note log2 f) as [note|e''] eqn:Hnote; [discriminate|].
    cbn [mbind result_bind]. intros [= <-].
    destruct (Hraise e'' eq_refl) as [->| ->]; auto.
  - cbn [mbind result_bind]. intros [= <-].
    destruct (Nat.eqb_spec (length (upper [c])) 1) as [|Hlen]; [discriminate Hok|].
    injection (Hlong Hlen) as ->. auto.
Qed.

Lemma text_to_frequencies_from_errors name text : ∀ start e,
  mappings_from (new_mapper name) start text = Raise e →
  e = ValueError ∨ e = OverflowError
  ∨ (e = TypeError
     ∧ ∃ c, c ∈ text ∧ Unicode.isspace c = false ∧ length (upper [c]) ≠ 1%nat).
Proof.
  induction text as [|c rest IH]; intros start e; cbn [text_to_frequencies_from];
    [discriminate|].
  destruct (mapping (new_mapper name) start c) as [entry|e'] eqn:Hentry.
  - cbn [mbind result_bind].
    destruct (mappings_from (new_mapper name) (start + 1) rest) as [tail|e''] eqn:Htail;
      [discriminate|].
    cbn [mbind result_bind]. intros [= <-].
    destruct (IH _ _ Htail) as [->|[->|(-> & c' & Hin & Hc')]]; auto.
    right. right. split; [done|]. exists c'. split; [by apply list_elem_of_further|done].
  - cbn [mbind result_bind]. intros [= <-].
    destruct (frequency_mapping_errors name start c e' Hentry)
      as [->|[->|(-> & Hc)]]; auto.
    right. right. split; [done|]. exists c. split; [apply list_elem_of_here|done].
Qed.

(** X18: when [text_to_frequencies] raises, the error is a
    [ValueError] or an [OverflowError] of the note computation, or it is
    the [TypeError] of a character of the text that is no white space and
    whose uppercase is not one character. *)
Theorem text_to_frequencies_errors name text e :
  mappings (new_mapper name) text = Raise e →
  e = ValueError ∨ e = OverflowError
  ∨ (e = TypeError
     ∧ ∃ c, c ∈ text ∧ Unicode.isspace c = false ∧ length (upper [c]) ≠ 1%nat).
Proof. apply text_to_frequencies_from_errors. Qed.

End TextErrors.


Lemma char_to_frequency_of_letter_witness :
  scale (set_scale (new_mapper (str_of "major")) (str_of "blues")) ∈ scales.
Proof.
  apply (proj1 (char_to_frequency_of_letter (fun x _ => x)
                  (new_mapper (str_of "major")) (str_of "blues") 113
                  ltac:(vm_compute; reflexivity))).
Defined.

Lemma text_to_frequencies_entries_witness :
  ∃ entries,
    text_to_frequencies (fun _ _ => F64.of_Z 1) (fun _ => F64.zero) (fun x _ => x)
      (new_mapper (str_of "major")) (str_of "a b") = Ok entries
    ∧ length entries = 3%nat.
Proof.
  assert (∃ entries,
            text_to_frequencies (fun _ _ => F64.of_Z 1) (fun _ => F64.zero) (fun x _ => x)
              (new_mapper (str_of "major")) (str_of "a b") = Ok entries) as [entries Hok]
    by (vm_compute; eexists; reflexivity).
  exists entries. split; [exact Hok|].
  apply (proj1 (text_to_frequencies_entries (fun _ _ => F64.of_Z 1) (fun _ => F64.zero)
                  (fun x _ => x) (new_mapper (str_of "major")) (str_of "a b") entries Hok)).
Defined.

Lemma text_to_frequencies_of_blank_text_witness :
  text_to_frequencies (fun x _ => x) (fun x => x) (fun x _ => x)
    (new_mapper (str_of "major")) [32%N; 9%N]
  = Ok [rest_entry 0 32; rest_entry 1 9].
Proof.
  apply (text_to_frequencies_of_blank_text (fun x _ => x) (fun x => x) (fun x _ => x)
           (new_mapper (str_of "major")) [32%N; 9%N]).
  reflexivity.
Defined.

Lemma text_to_frequencies_errors_witness :
  TypeError = ValueError ∨ TypeError = OverflowError
  ∨ (TypeError = TypeError
     ∧ ∃ c, c ∈ [0xDF%N] ∧ Unicode.isspace c = false ∧ length (upper [c]) ≠ 1%nat).
Proof.
  apply (text_to_frequencies_errors (fun x _ => x) (fun x => x) (fun x _ => x)
           (str_of "major") [0xDF%N] TypeError).
  reflexivity.
Defined.

(** ** Content detection ignores white space *)

Lemma lstrip_with_idem p s : lstrip_with p (lstrip_with p s) = lstrip_with p s.
Proof.
  induction s as [|c s IH]; [done|]. cbn [lstrip_with].
  destruct (p c) eqn:Hc; [done|]. cbn [lstrip_with]. by rewrite Hc.
Qed.

Lemma lstrip_with_head p s :
  lstrip_with p s = [] ∨ ∃ c t, lstrip_with p s = c :: t ∧ p c = false.
Proof.
  induction s as [|c s IH]; [by left|]. cbn [lstrip_with].
  destruct (p c) eqn:Hc; [done|]. right. by exists c, s.
Qed.

Lemma lstrip_with_snoc p s c :
  p c = false → lstrip_with p (s ++ [c]) = lstrip_with p s ++ [c].
Proof.
  intros Hc. induction s as [|x s IH]; cbn [lstrip_with app]; [by rewrite Hc|].
  by destruct (p x).
Qed.

Lemma rstrip_with_idem p s : rstrip_with p (rstrip_with p s) = rstrip_with p s.
Proof. unfold rstrip_with. by rewrite rev_involutive, lstrip_with_idem. Qed.

Lemma rstrip_with_head p c t :
  p c = false → ∃ t', rstrip_with p (c :: t) = c :: t'.
Proof.
  intros Hc. unfold rstrip_with. cbn [rev].
  rewrite (lstrip_with_snoc p _ c Hc), rev_app_distr. cbn [rev app]. eauto.
Qed.

Lemma strip_idem s : strip (strip s) = strip s.
Proof.
  unfold strip.
  destruct (lstrip_with_head Unicode.isspace s) as [->|(c & t & -> & Hc)]; [done|].
  destruct (rstrip_with_head Unicode.isspace c t Hc) as [t' Ht'].
  rewrite Ht'. cbn [lstrip_with]. rewrite Hc, <- Ht'. apply rstrip_with_idem.
Qed.

Lemma detect_content_type_blank s :
  strip s = [] → detect_content_type (JStr s) = unknown.
Proof.
  intros Hs. destruct (decide (s = [])) as [->|Hne]; [done|].
  rewrite (detect_content_type_stripped s Hne), Hs. reflexivity.
Qed.

(** X19: [detect_content_type] ignores white space around the content:
    the stripped string is detected as the string is, and a string that
    is returned as value is the stripped content. *)
Theorem detect_content_type_ignores_blanks s :
  detect_content_type (JStr (strip s)) = detect_content_type (JStr s)
  ∧ (∀ t, dict_get (detect_content_type (JStr s)) (str_of "value") = Some (JStr t) →
          t = strip s).
Proof.
  split.
  - destruct (decide (strip s = [])) as [Hblank|Hne].
    + by rewrite Hblank, (detect_content_type_blank s Hblank).
    + assert (s ≠ []) as Hs by (by intros ->).
      rewrite (detect_content_type_stripped s Hs),
        (detect_content_type_stripped (strip s) Hne), strip_idem.
      reflexivity.
  - intros t. destruct (decide (s = [])) as [->|Hs]; [discriminate|].
    rewrite (detect_content_type_stripped s Hs).
    destruct (is_hex_color (strip s)); [by intros [= <-]|].
    destruct (Parse.float_of_str (strip s)); [discriminate|].
    destruct (negb _); [by intros [= <-]|discriminate].
Qed.

(** X20: [detect_content_type] gives one of four answers: unknown with
    no value; a number; a colour whose value is [#] and three or six
    hexadecimal digits; or a text whose value is not empty, has no white
    space around it, is no colour and does not parse as a number. *)
Theorem detect_content_type_shape content :
  detect_content_type content = detected "unknown" JNull
  ∨ (∃ x, detect_content_type content = detected "number" (JFloat x))
  ∨ (∃ t, detect_content_type content = detected "color" (JStr t)
          ∧ is_hex_color t = true ∧ strip t = t)
  ∨ (∃ t, detect_content_type content = detected "text" (JStr t)
          ∧ t ≠ [] ∧ strip t = t
          ∧ is_hex_color t = false ∧ is_ok (Parse.float_of_str t) = false).
Proof.
  destruct content as [| | | |s| |]; try by left.
  destruct (decide (s = [])) as [->|Hs]; [by left|].
  rewrite (detect_content_type_stripped s Hs).
  destruct (is_hex_color (strip s)) eqn:Hcolor.
  { right. right. left. exists (strip s). by rewrite strip_idem. }
  destruct (Parse.float_of_str (strip s)) as [x|e] eqn:Hfloat.
  { right. left. by exists x. }
  destruct (decide (strip s = [])) as [Hblank|Hne].
  { left. by rewrite bool_decide_eq_true_2. }
  right. right. right. exists (strip s).
  rewrite bool_decide_eq_false_2 by done. rewrite strip_idem, Hfloat. done.
Qed.

(** ** Colours that are bytes *)

(** Every channel value is a float; scaling keeps the order of the
    bytes, and a larger channel with a smaller one gives no zero divisor:
    checked on the 256 bytes and on their pairs. *)
Lemma channels_finite : forallb (fun a => F64.is_finite a.2) indexed_channels = true.
Proof. vm_cast_no_check (eq_refl true). Qed.

Lemma channels_safe : all_pairs channel_pair_ok indexed_channels = true.
Proof. vm_cast_no_check (eq_refl true). Qed.


Lemma indexed_channel_in i : 0 ≤ i ≤ 255 → In (i, channel i) indexed_channels.
Proof.
  intros Hi.
  assert (In i (seqZ 0 256)) as Hin by (apply list_elem_of_In, elem_of_seqZ; lia).
  exact (in_map (fun i => (i, channel i)) (seqZ 0 256) i Hin).
Qed.

Lemma channel_finite i : 0 ≤ i ≤ 255 → F64.is_finite (channel i) = true.
Proof.
  intros Hi.
  exact (proj1 (forallb_forall _ _) channels_finite (i, channel i) (indexed_channel_in i Hi)).
Qed.

Lemma all_pairs_spec {A} (ok : A → A → bool) (l : list A) :
  all_pairs ok l = true → ∀ a b, In a l → In b l → ok a b = true.
Proof.
  unfold all_pairs. intros Hall a b Ha Hb.
  rewrite forallb_forall in Hall. specialize (Hall a Ha).
  rewrite forallb_forall in Hall. exact (Hall b Hb).
Qed.

Lemma channel_pair i j :
  0 ≤ i ≤ 255 → 0 ≤ j ≤ 255 →
  channel_pair_ok (i, channel i) (j, channel j) = true.
Proof.
  intros Hi Hj.
  exact (all_pairs_spec _ _ channels_safe _ _ (indexed_channel_in i Hi) (indexed_channel_in j Hj)).
Qed.

(** Scaling keeps the order of the channels. *)
Lemma channel_ltb i j :
  0 ≤ i ≤ 255 → 0 ≤ j ≤ 255 → F64.ltb (channel i) (channel j) = (i <? j).
Proof.
  intros Hi Hj. pose proof (channel_pair i j Hi Hj) as Hok.
  unfold channel_pair_ok in Hok. cbn [fst snd] in Hok.
  destruct (Bool.eqb (F64.ltb (channel i) (channel j)) (i <? j)) eqn:Heq.
  - by apply eqb_prop.
  - discriminate Hok.
Qed.

(** For a larger and a smaller channel no divisor of [rgb_to_hsl] is
    zero. *)
Lemma channel_divisors i j :
  0 ≤ j → j < i → i ≤ 255 →
  F64.eqb (F64.sub (channel i) (channel j)) F64.zero = false
  ∧ F64.eqb (F64.sub (F64.sub (F64.of_Z 2) (channel i)) (channel j)) F64.zero = false
  ∧ F64.eqb (F64.add (channel i) (channel j)) F64.zero = false.
Proof.
  intros Hj Hlt Hi. pose proof (channel_pair i j ltac:(lia) ltac:(lia)) as Hok.
  unfold channel_pair_ok in Hok. cbn [fst snd] in Hok.
  destruct (Bool.eqb (F64.ltb (channel i) (channel j)) (i <? j)); [|discriminate Hok].
  destruct (Z.leb_spec i j); [lia|].
  apply andb_true_iff in Hok as [Hok H3]. apply andb_true_iff in Hok as [H1 H2].
  apply negb_true_iff in H1. apply negb_true_iff in H2. apply negb_true_iff in H3.
  exact (conj H1 (conj H2 H3)).
Qed.

Lemma float_eqb_refl x : F64.is_finite x = true → F64.eqb x x = true.
Proof.
  destruct x as [s|s| |s m e]; try done; intros _.
  unfold F64.eqb, SFeqb, SFcompare.
  destruct s; by rewrite Z.compare_refl, Pos.compare_cont_refl.
Qed.

Lemma max3_channel r g b :
  0 ≤ r ≤ 255 → 0 ≤ g ≤ 255 → 0 ≤ b ≤ 255 →
  max3 (channel r) (channel g) (channel b) = channel (Z.max (Z.max r g) b).
Proof.
  intros Hr Hg Hb. unfold max3. rewrite (channel_ltb r g Hr Hg).
  destruct (Z.ltb_spec r g).
  - rewrite (channel_ltb g b Hg Hb). destruct (Z.ltb_spec g b); f_equal; lia.
  - rewrite (channel_ltb r b Hr Hb). destruct (Z.ltb_spec r b); f_equal; lia.
Qed.

Lemma min3_channel r g b :
  0 ≤ r ≤ 255 → 0 ≤ g ≤ 255 → 0 ≤ b ≤ 255 →
  min3 (channel r) (channel g) (channel b) = channel (Z.min (Z.min r g) b).
Proof.
  intros Hr Hg Hb. unfold min3. rewrite (channel_ltb g r Hg Hr).
  destruct (Z.ltb_spec g r).
  - rewrite (channel_ltb b g Hb Hg). destruct (Z.ltb_spec b g); f_equal; lia.
  - rewrite (channel_ltb b r Hb Hr). destruct (Z.ltb_spec b r); f_equal; lia.
Qed.

Lemma int_truediv_channel i : 0 ≤ i ≤ 255 → F64.int_truediv i 255 = Ok (channel i).
Proof.
  intros Hi. unfold F64.int_truediv. cbn [Z.eqb Z.ltb Z.compare].
  fold (channel i). rewrite (channel_finite i Hi). reflexivity.
Qed.

Lemma div_nonzero x y :
  F64.eqb y F64.zero = false → F64.div x y = Ok (SFdiv F64.prec F64.emax x y).
Proof. intros Hy. unfold F64.div. rewrite Hy. reflexivity. Qed.

Lemma two_nonzero : F64.eqb (F64.of_Z 2) F64.zero = false.
Proof. vm_compute. reflexivity. Qed.

Lemma six_nonzero : F64.eqb (F64.of_Z 6) F64.zero = false.
Proof. vm_compute. reflexivity. Qed.

(** On channels in 0..255 no division of [rgb_to_hsl] is by zero. *)
Lemma rgb_to_hsl_ok r g b :
  0 ≤ r ≤ 255 → 0 ≤ g ≤ 255 → 0 ≤ b ≤ 255 →
  ∃ h s l, rgb_to_hsl r g b = Ok (h, s, l).
Proof.
  intros Hr Hg Hb. unfold rgb_to_hsl.
  rewrite (int_truediv_channel r Hr), (int_truediv_channel g Hg), (int_truediv_channel b Hb).
  cbn [mbind result_bind].
  rewrite (max3_channel r g b Hr Hg Hb), (min3_channel r g b Hr Hg Hb).
  set (i := Z.max (Z.max r g) b). set (j := Z.min (Z.min r g) b).
  rewrite (div_nonzero _ (F64.of_Z 2) two_nonzero).
  cbn [mbind result_bind].
  destruct (F64.eqb (channel i) (channel j)) eqn:Heq.
  { eexists _, _, _. reflexivity. }
  assert (j < i) as Hlt.
  { destruct (decide (i = j)) as [Hij|Hne]; [|lia].
    rewrite Hij, (float_eqb_refl _ (channel_finite j ltac:(lia))) in Heq. discriminate Heq. }
  destruct (channel_divisors i j ltac:(lia) Hlt ltac:(lia)) as (Hd & Hhigh & Hlow).
  destruct (F64.ltb (F64.of_decimal false 5 (-1)) _);
    [rewrite (div_nonzero _ _ Hhigh)|rewrite (div_nonzero _ _ Hlow)];
    cbn [mbind result_bind];
    repeat match goal with |- context [if ?c then _ else _] => destruct c end;
    rewrite (div_nonzero _ _ Hd); cbn [mbind result_bind];
    rewrite (div_nonzero _ _ six_nonzero); cbn [mbind result_bind];
    (eexists _, _, _; reflexivity).
Qed.

Lemma hex_to_rgb_three a b c :
  forallb is_hex_digit [a; b; c] = true →
  hex_to_rgb [a; b; c] = Some (hex_byte a a, hex_byte b b, hex_byte c c)
  ∧ hex_to_rgb [a; b; c] = hex_to_rgb [a; a; b; b; c; c].
Proof.
  cbn [forallb]. rewrite !andb_true_iff. intros (Ha & Hb & Hc & _).
  destruct (hex_to_rgb_six a a b b c c) as [Hsix _];
    [cbn [forallb]; by rewrite Ha, Hb, Hc|].
  assert (hex_to_rgb [a; b; c] = Some (hex_byte a a, hex_byte b b, hex_byte c c)) as Hthree.
  { destruct (int16_hex_pair a a Ha Ha) as [E1 _].
    destruct (int16_hex_pair b b Hb Hb) as [E2 _].
    destruct (int16_hex_pair c c Hc Hc) as [E3 _].
    unfold hex_to_rgb, lstrip. cbn [lstrip_with]. rewrite (hex_digit_not_hash a Ha).
    cbn [length Nat.eqb negb flat_map app slice drop take Nat.sub].
    by rewrite E1, E2, E3. }
  split; [exact Hthree|]. by rewrite Hthree, Hsix.
Qed.

Lemma hex_byte_range a b :
  is_hex_digit a = true → is_hex_digit b = true → 0 ≤ hex_byte a b ≤ 255.
Proof. intros Ha Hb. by destruct (int16_hex_pair a b Ha Hb). Qed.

(** What [detect_content_type] takes for a colour, [hex_to_rgb] reads as
    three bytes. *)
Lemma hex_color_rgb t :
  is_hex_color t = true →
  ∃ r g b, hex_to_rgb t = Some (r, g, b) ∧ (0 ≤ r ≤ 255) ∧ (0 ≤ g ≤ 255) ∧ (0 ≤ b ≤ 255).
Proof.
  unfold is_hex_color. change (str_of "#") with [35%N].
  destruct t as [|c d]; [done|]. cbn [startswith drop].
  rewrite !andb_true_iff. intros [[[Hc%N.eqb_eq _] Hlen] Hhex]. subst c.
  rewrite hex_to_rgb_hash.
  apply orb_true_iff in Hlen as [Hlen%Nat.eqb_eq|Hlen%Nat.eqb_eq].
  - destruct d as [|a1 [|a2 [|a3 [|]]]]; try done.
    destruct (hex_to_rgb_three _ _ _ Hhex) as [-> _].
    cbn [forallb drop] in Hhex. rewrite !andb_true_iff in Hhex.
    destruct Hhex as (H1 & H2 & H3 & _).
    eexists _, _, _. split; [reflexivity|].
    split; [by apply hex_byte_range|]. split; by apply hex_byte_range.
  - destruct d as [|a1 [|a2 [|a3 [|a4 [|a5 [|a6 [|]]]]]]]; try done.
    destruct (hex_to_rgb_six _ _ _ _ _ _ Hhex) as (-> & B1 & B2 & B3).
    by eexists _, _, _.
Qed.

(** The complementary colour of three bytes is [#] and six lower-case
    digits that spell the complements. *)
Lemma complementary_of_rgb h r g b :
  hex_to_rgb h = Some (r, g, b) → 0 ≤ r ≤ 255 → 0 ≤ g ≤ 255 → 0 ≤ b ≤ 255 →
  ∃ digits,
    _get_complementary_color h = 35%N :: digits
    ∧ length digits = 6%nat
    ∧ forallb is_lower_hex_digit digits = true
    ∧ hex_to_rgb (35%N :: digits) = Some (255 - r, 255 - g, 255 - b).
Proof.
  intros Hrgb Hr Hg Hb. unfold _get_complementary_color. rewrite Hrgb.
  destruct (format_02x_byte (255 - r)) as (x1 & x2 & F1 & L1 & L2 & X1 & X2 & V1); [lia|].
  destruct (format_02x_byte (255 - g)) as (x3 & x4 & F2 & L3 & L4 & X3 & X4 & V2); [lia|].
  destruct (format_02x_byte (255 - b)) as (x5 & x6 & F3 & L5 & L6 & X5 & X6 & V3); [lia|].
  rewrite F1, F2, F3.
  change (str_of "#" ++ [x1; x2] ++ [x3; x4] ++ [x5; x6])
    with (35%N :: [x1; x2; x3; x4; x5; x6]).
  exists [x1; x2; x3; x4; x5; x6]. split; [reflexivity|]. split; [reflexivity|]. split.
  - cbn [forallb]. by rewrite L1, L2, L3, L4, L5, L6.
  - rewrite hex_to_rgb_hash.
    destruct (hex_to_rgb_six x1 x2 x3 x4 x5 x6) as (-> & _).
    + cbn [forallb]. by rewrite X1, X2, X3, X4, X5, X6.
    + by rewrite V1, V2, V3.
Qed.

Lemma complementary_by_rgb x y :
  hex_to_rgb x = hex_to_rgb y → _get_complementary_color x = _get_complementary_color y.
Proof. intros Heq. unfold _get_complementary_color. by rewrite Heq. Qed.

Section ColourSounds.

Variable round_ndigits : float -> Z -> float.

#[local] Abbreviation to_sound := (color_to_sound round_ndigits).

Lemma color_to_sound_by_rgb x y :
  hex_to_rgb x = hex_to_rgb y → to_sound x = to_sound y.
Proof.
  intros Heq. unfold color_to_sound.
  by rewrite (complementary_by_rgb x y Heq), Heq.
Qed.

Lemma color_to_sound_rgb h r g b :
  hex_to_rgb h = Some (r, g, b) → 0 ≤ r ≤ 255 → 0 ≤ g ≤ 255 → 0 ≤ b ≤ 255 →
  ∃ obj hsl frequency volume waveform,
    to_sound h = Ok (JObj obj)
    ∧ dict_get obj (str_of "error") = None
    ∧ dict_get obj (str_of "rgb")
      = Some (JObj [ (str_of "r", JInt r); (str_of "g", JInt g); (str_of "b", JInt b) ])
    ∧ dict_get obj (str_of "hsl") = Some (JObj hsl)
    ∧ dict_get obj (str_of "frequency") = Some (JFloat frequency)
    ∧ dict_get obj (str_of "volume_modifier") = Some (JFloat volume)
    ∧ dict_get obj (str_of "waveform") = Some (JStr waveform)
    ∧ waveform ∈ waveforms
    ∧ dict_get obj (str_of "complementary") = Some (JStr (_get_complementary_color h)).
Proof.
  intros Hrgb Hr Hg Hb.
  destruct (rgb_to_hsl_ok r g b Hr Hg Hb) as (hue & s & l & Hhsl).
  unfold color_to_sound. rewrite Hrgb, Hhsl. cbn [mbind result_bind].
  assert (F64.eqb (F64.of_Z 360) F64.zero = false) as H360 by (vm_compute; reflexivity).
  rewrite (div_nonzero _ _ H360). cbn [mbind result_bind].
  eexists _, _, _, _, _. split; [reflexivity|].
  split; [reflexivity|]. split; [reflexivity|]. split; [reflexivity|].
  split; [reflexivity|]. split; [reflexivity|]. split; [reflexivity|].
  split; [|reflexivity].
  unfold waveforms.
  destruct (F64.ltb (F64.of_decimal false 7 (-1)) (num_to_float s));
    [|destruct (F64.ltb (F64.of_decimal false 4 (-1)) (num_to_float s))].
  - apply elem_of_cons. by left.
  - apply elem_of_cons. right. apply elem_of_cons. by left.
  - do 2 (apply elem_of_cons; right). apply elem_of_cons. by left.
Qed.

End ColourSounds.

(** X5: on three channels from 0 to 255 [rgb_to_hsl] divides by no
    zero, so it returns a hue, a saturation and a lightness. Scaling by
    255 keeps the order of the channels: the largest scaled channel is
    the scaled largest byte, and the smallest likewise; three equal
    channels have hue 0 and saturation 0, both ints. *)
Theorem rgb_to_hsl_of_bytes r g b :
  0 ≤ r ≤ 255 → 0 ≤ g ≤ 255 → 0 ≤ b ≤ 255 →
  (∃ h s l, rgb_to_hsl r g b = Ok (h, s, l))
  ∧ max3 (channel r) (channel g) (channel b) = channel (Z.max (Z.max r g) b)
  ∧ min3 (channel r) (channel g) (channel b) = channel (Z.min (Z.min r g) b)
  ∧ (r = g → g = b → ∃ l, rgb_to_hsl r g b = Ok (Int 0, Int 0, l)).
Proof.
  intros Hr Hg Hb. split; [by apply rgb_to_hsl_ok|].
  split; [by apply max3_channel|]. split; [by apply min3_channel|].
  intros <- <-. unfold rgb_to_hsl.
  rewrite (int_truediv_channel r Hr). cbn [mbind result_bind].
  rewrite (div_nonzero _ (F64.of_Z 2) two_nonzero). cbn [mbind result_bind].
  rewrite (max3_channel r r r Hr Hr Hr), (min3_channel r r r Hr Hr Hr).
  rewrite !Z.max_id, !Z.min_id.
  rewrite (float_eqb_refl _ (channel_finite r Hr)). eexists. reflexivity.
Qed.

Lemma rgb_to_hsl_of_bytes_witness :
  ∃ h s l, rgb_to_hsl 255 128 0 = Ok (h, s, l).
Proof. apply (proj1 (rgb_to_hsl_of_bytes 255 128 0 ltac:(lia) ltac:(lia) ltac:(lia))). Defined.

(** X6: for a colour that [hex_to_rgb] reads as three bytes, the
    complementary colour reads as the three complements, the
    complementary colour of the complementary colour reads as the colour
    itself, and taking the complementary colour three times is taking it
    once. *)
Theorem complementary_involution h r g b :
  hex_to_rgb h = Some (r, g, b) → 0 ≤ r ≤ 255 → 0 ≤ g ≤ 255 → 0 ≤ b ≤ 255 →
  hex_to_rgb (_get_complementary_color h) = Some (255 - r, 255 - g, 255 - b)
  ∧ hex_to_rgb (_get_complementary_color (_get_complementary_color h)) = hex_to_rgb h
  ∧ _get_complementary_color (_get_complementary_color (_get_complementary_color h))
    = _get_complementary_color h.
Proof.
  intros Hrgb Hr Hg Hb.
  destruct (complementary_of_rgb h r g b Hrgb Hr Hg Hb) as (d1 & Hc1 & _ & _ & Hrgb1).
  rewrite <- Hc1 in Hrgb1.
  destruct (complementary_of_rgb _ _ _ _ Hrgb1 ltac:(lia) ltac:(lia) ltac:(lia))
    as (d2 & Hc2 & _ & _ & Hrgb2).
  rewrite <- Hc2 in Hrgb2.
  replace (255 - (255 - r)) with r in Hrgb2 by lia.
  replace (255 - (255 - g)) with g in Hrgb2 by lia.
  replace (255 - (255 - b)) with b in Hrgb2 by lia.
  split; [exact Hrgb1|]. split; [by rewrite Hrgb2, Hrgb|].
  apply complementary_by_rgb. by rewrite Hrgb2, Hrgb.
Qed.

Lemma complementary_involution_witness :
  hex_to_rgb (_get_complementary_color (_get_complementary_color (str_of "#1aF")))
  = hex_to_rgb (str_of "#1aF").
Proof.
  apply (complementary_involution (str_of "#1aF") 17 170 255); [reflexivity|lia..].
Defined.

Section ColourTheorems.

Variable round_ndigits : float -> Z -> float.

#[local] Abbreviation to_sound := (color_to_sound round_ndigits).

(** X7: every string that [detect_content_type] takes for a colour
    ([#] and three or six hexadecimal digits) is a colour for
    [color_to_sound]: [hex_to_rgb] reads three bytes and the result has
    the fields [rgb], [hsl], [frequency], [volume_modifier] and
    [complementary], one of the three waveforms, and no [error]. *)
Theorem color_to_sound_of_detected_colour t :
  is_hex_color t = true →
  ∃ r g b obj hsl frequency volume waveform,
    hex_to_rgb t = Some (r, g, b)
    ∧ is_byte r && is_byte g && is_byte b = true
    ∧ to_sound t = Ok (JObj obj)
    ∧ dict_get obj (str_of "error") = None
    ∧ dict_get obj (str_of "rgb")
      = Some (JObj [ (str_of "r", JInt r); (str_of "g", JInt g); (str_of "b", JInt b) ])
    ∧ dict_get obj (str_of "hsl") = Some (JObj hsl)
    ∧ dict_get obj (str_of "frequency") = Some (JFloat frequency)
    ∧ dict_get obj (str_of "volume_modifier") = Some (JFloat volume)
    ∧ dict_get obj (str_of "waveform") = Some (JStr waveform)
    ∧ waveform ∈ waveforms
    ∧ dict_get obj (str_of "complementary") = Some (JStr (_get_complementary_color t)).
Proof.
  intros Hcolor.
  destruct (hex_color_rgb t Hcolor) as (r & g & b & Hrgb & Hr & Hg & Hb).
  destruct (color_to_sound_rgb round_ndigits t r g b Hrgb Hr Hg Hb)
    as (obj & hsl & frequency & volume & waveform & Hsound).
  exists r, g, b, obj, hsl, frequency, volume, waveform.
  split; [exact Hrgb|]. split; [|exact Hsound].
  unfold is_byte. rewrite !andb_true_iff, !Z.leb_le. lia.
Qed.

(** X8: three hexadecimal digits are read as the six digits with each
    one doubled, every channel 17 times its digit, and [color_to_sound]
    gives the short form, the long form and both with a leading [#] the
    same result. *)
Theorem color_to_sound_shorthand a b c :
  forallb is_hex_digit [a; b; c] = true →
  hex_to_rgb [a; b; c] = Some (17 * hex_value a, 17 * hex_value b, 17 * hex_value c)
  ∧ to_sound [a; b; c] = to_sound [a; a; b; b; c; c]
  ∧ to_sound (35%N :: [a; b; c]) = to_sound [a; b; c]
  ∧ to_sound (35%N :: [a; a; b; b; c; c]) = to_sound [a; b; c].
Proof.
  intros Hhex. destruct (hex_to_rgb_three a b c Hhex) as [Hthree Hsame].
  split; [|split; [|split]].
  - rewrite Hthree. unfold hex_byte. do 3 f_equal; lia.
  - by apply color_to_sound_by_rgb.
  - apply color_to_sound_by_rgb, hex_to_rgb_hash.
  - apply color_to_sound_by_rgb. by rewrite hex_to_rgb_hash.
Qed.

(** X9: [color_to_sound] answers with the error object (440 Hz, sine,
    no [rgb], no [hsl]) exactly for the strings [hex_to_rgb] rejects,
    among them every string whose length without the leading [#]s is
    neither 3 nor 6, and the complementary colour of such a string is
    [#000000]; for a string [hex_to_rgb] reads, a result has no [error]
    and has a [complementary]. *)
Theorem color_to_sound_error_iff_rejected s :
  (hex_to_rgb s = None →
   to_sound s = Ok invalid_color ∧ _get_complementary_color s = str_of "#000000")
  ∧ (length (lstrip (str_of "#") s) ≠ 3%nat → length (lstrip (str_of "#") s) ≠ 6%nat →
     hex_to_rgb s = None)
  ∧ (∀ obj, is_Some (hex_to_rgb s) → to_sound s = Ok (JObj obj) →
            dict_get obj (str_of "error") = None
            ∧ is_Some (dict_get obj (str_of "complementary"))).
Proof.
  split; [|split].
  - intros Hnone. split; [by apply color_to_sound_invalid|].
    unfold _get_complementary_color. by rewrite Hnone.
  - intros H3 H6. unfold hex_to_rgb. cbv zeta.
    destruct (Nat.eqb_spec (length (lstrip (str_of "#") s)) 3) as [|_]; [done|].
    destruct (Nat.eqb_spec (length (lstrip (str_of "#") s)) 6) as [|_]; [done|].
    cbn [negb]. reflexivity.
  - intros obj [[[r g] b] Hrgb]. unfold color_to_sound. rewrite Hrgb.
    destruct (rgb_to_hsl r g b) as [[[h sat] l]|]; [|discriminate].
    cbn [mbind result_bind].
    destruct (F64.div _ _) as [turn|]; [|discriminate].
    cbn [mbind result_bind]. cbv zeta.
    match goal with
    | |- Ok (JObj ?d) = _ → _ =>
        assert (dict_get d (str_of "error") = None
                ∧ is_Some (dict_get d (str_of "complementary"))) as Hd
          by (split; [reflexivity|eexists; reflexivity]);
        revert Hd; generalize d
    end.
    intros d Hd [= <-]. exact Hd.
Qed.

(** X10: a grey (three equal channels) has hue 0 and saturation 0, both
    ints, so it sounds as a sine at [round(200.0, 2)]. *)
Theorem grey_sounds_at_200 h v :
  hex_to_rgb h = Some (v, v, v) → 0 ≤ v ≤ 255 →
  ∃ obj l,
    rgb_to_hsl v v v = Ok (Int 0, Int 0, l)
    ∧ to_sound h = Ok (JObj obj)
    ∧ dict_get obj (str_of "frequency") = Some (JFloat (round_ndigits (F64.of_Z 200) 2))
    ∧ dict_get obj (str_of "waveform") = Some (JStr (str_of "sine"))
    ∧ dict_get obj (str_of "hsl")
      = Some (JObj [ (str_of "h", JInt 0); (str_of "s", JInt 0);
                     (str_of "l", JFloat (round_ndigits l 2)) ]).
Proof.
  intros Hrgb Hv.
  assert (∃ l, rgb_to_hsl v v v = Ok (Int 0, Int 0, l)) as [l Hhsl].
  { unfold rgb_to_hsl. rewrite (int_truediv_channel v Hv). cbn [mbind result_bind].
    rewrite (div_nonzero _ (F64.of_Z 2) two_nonzero). cbn [mbind result_bind].
    rewrite (max3_channel v v v Hv Hv Hv), (min3_channel v v v Hv Hv Hv).
    rewrite !Z.max_id, !Z.min_id.
    rewrite (float_eqb_refl _ (channel_finite v Hv)). eexists. reflexivity. }
  eexists. exists l. split; [exact Hhsl|].
  unfold color_to_sound. rewrite Hrgb, Hhsl. cbn [mbind result_bind].
  assert (F64.div (num_to_float (Int 0)) (F64.of_Z 360) = Ok F64.zero) as ->
    by (vm_compute; reflexivity).
  cbn [mbind result_bind].
  assert (F64.add (F64.of_Z 200) (F64.mul F64.zero (F64.of_Z 600)) = F64.of_Z 200) as ->
    by (vm_compute; reflexivity).
  assert (F64.ltb (F64.of_decimal false 7 (-1)) (num_to_float (Int 0)) = false) as ->
    by (vm_compute; reflexivity).
  assert (F64.ltb (F64.of_decimal false 4 (-1)) (num_to_float (Int 0)) = false) as ->
    by (vm_compute; reflexivity).
  split; [reflexivity|]. split; [reflexivity|]. split; reflexivity.
Qed.

End ColourTheorems.

Lemma color_to_sound_of_detected_colour_witness :
  ∃ r g b, hex_to_rgb (str_of "#0a5") = Some (r, g, b).
Proof.
  destruct (color_to_sound_of_detected_colour (fun x _ => x) (str_of "#0a5"))
    as (r & g & b & _ & _ & _ & _ & _ & Hrgb & _); [vm_compute; reflexivity|].
  exists r, g, b. exact Hrgb.
Defined.

Lemma color_to_sound_shorthand_witness :
  hex_to_rgb (str_of "fa0") = Some (17 * 15, 17 * 10, 17 * 0).
Proof.
  apply (proj1 (color_to_sound_shorthand (fun x _ => x) 102 97 48 ltac:(vm_compute; reflexivity))).
Defined.

Lemma grey_sounds_at_200_witness :
  ∃ l, rgb_to_hsl 128 128 128 = Ok (Int 0, Int 0, l).
Proof.
  destruct (grey_sounds_at_200 (fun x _ => x) (str_of "808080") 128)
    as (obj & l & Hhsl & _); [vm_compute; reflexivity|lia|].
  exists l. exact Hhsl.
Defined.

(** ** Floats: signs and exact results *)

Module F64Signs.
Import F64 F64Facts.

(** Rounding a non-negative mantissa keeps the sign it is given. *)
Lemma binary_round_aux_sign sx mx ex lx :
  0 ≤ mx → sign_is sx (binary_round_aux prec emax sx mx ex lx).
Proof.
  intros Hm.
  destruct (binary_round_aux_anatomy sx mx ex lx Hm) as (m2 & Hm2 & _ & ->).
  destruct (first_step_small mx ex Hm) as (He1 & Hm1).
  set (e1 := Z.max ex (fexp prec emax (Zdigits2 mx + ex))) in *.
  destruct (second_step m2 e1) as [(_ & -> & ->)|(-> & -> & ->)]; [lia|done|..].
  - destruct m2 as [|m|m]; [done| |lia]. by destruct (_ <=? _).
  - change (2 ^ 52) with (Z.pos (Z.to_pos (2 ^ 52))). cbn iota. by destruct (_ <=? _).
Qed.

Lemma binary_round_aux_not_nan sx mx ex lx :
  0 ≤ mx → binary_round_aux prec emax sx mx ex lx ≠ S754_nan.
Proof.
  intros Hm.
  destruct (binary_round_aux_anatomy sx mx ex lx Hm) as (m2 & Hm2 & _ & ->).
  destruct (first_step_small mx ex Hm) as (He1 & Hm1).
  set (e1 := Z.max ex (fexp prec emax (Zdigits2 mx + ex))) in *.
  destruct (second_step m2 e1) as [(_ & -> & ->)|(-> & -> & ->)]; [lia|done|..].
  - destruct m2 as [|m|m]; [done| |lia]. by destruct (_ <=? _).
  - change (2 ^ 52) with (Z.pos (Z.to_pos (2 ^ 52))). cbn iota. by destruct (_ <=? _).
Qed.

(** A rounded value that is finite is a float of the format. *)
Lemma binary_round_aux_finite sx mx ex lx :
  0 ≤ mx →
  is_finite (binary_round_aux prec emax sx mx ex lx) = true →
  bounded_float 1024 (binary_round_aux prec emax sx mx ex lx).
Proof.
  intros Hm.
  destruct (binary_round_aux_anatomy sx mx ex lx Hm) as (m2 & Hm2 & _ & ->).
  destruct (first_step_small mx ex Hm) as (He1 & Hm1).
  set (e1 := Z.max ex (fexp prec emax (Zdigits2 mx + ex))) in *.
  destruct (second_step m2 e1) as [(Hlt & -> & ->)|(-> & -> & ->)]; [lia|done|..].
  - destruct m2 as [|m|m]; [done| |lia].
    destruct (Z.leb_spec e1 971); [|done]. intros _. cbn [bounded_float].
    change (Z.pos (digits2_pos m)) with (Zdigits2 (Z.pos m)).
    assert (Zdigits2 (Z.pos m) ≤ 53) by (apply Zdigits2_le; lia). lia.
  - change (2 ^ 52) with (Z.pos (Z.to_pos (2 ^ 52))). cbn iota.
    destruct (Z.leb_spec (e1 + 1) 971); [|done]. intros _. cbn [bounded_float].
    change (Z.pos (digits2_pos (Z.to_pos (2 ^ 52)))) with 53. lia.
Qed.

Lemma binary_round_finite sx mx ex :
  is_finite (binary_round prec emax sx mx ex) = true →
  bounded_float 1024 (binary_round prec emax sx mx ex).
Proof.
  unfold binary_round. destruct (shl_align mx ex _) as [mz ez].
  apply binary_round_aux_finite. lia.
Qed.

Lemma binary_round_sign sx mx ex : sign_is sx (binary_round prec emax sx mx ex).
Proof.
  unfold binary_round. destruct (shl_align mx ex _) as [mz ez].
  apply binary_round_aux_sign. lia.
Qed.

Lemma binary_normalize_finite m e szero :
  is_finite (binary_normalize prec emax m e szero) = true →
  bounded_float 1024 (binary_normalize prec emax m e szero).
Proof. destruct m as [|m|m]; cbn [binary_normalize]; [done|..]; apply binary_round_finite. Qed.

Lemma binary_normalize_sign m e : 0 ≤ m → sign_is false (binary_normalize prec emax m e false).
Proof.
  intros Hm. destruct m as [|m|m]; cbn [binary_normalize]; [done| |lia].
  apply binary_round_sign.
Qed.

(** A mantissa of at most 53 bits is not rounded. *)
Lemma binary_normalize_exact M e0 :
  0 < M → Zdigits2 M ≤ 53 → -1074 ≤ e0 → Zdigits2 M + e0 ≤ 1024 →
  ∃ mr er,
    binary_normalize prec emax M e0 false = S754_finite false mr er
    ∧ er ≤ e0 ∧ Zpos mr = M * 2 ^ (e0 - er).
Proof.
  intros HM Hd He0 Hde. destruct M as [|p|p]; [lia| |lia].
  cbn [binary_normalize]. unfold binary_round.
  change (Z.pos (digits2_pos p)) with (Zdigits2 (Z.pos p)).
  set (f := fexp prec emax (Zdigits2 (Z.pos p) + e0)).
  assert (f = Z.max (Zdigits2 (Z.pos p) + e0 - 53) (-1074)) as Hf by apply fexp_eq.
  assert (1 ≤ Zdigits2 (Z.pos p)) as Hd1 by (simpl; lia).
  destruct (shl_align_spec p e0 f) as [Hez Hmz].
  destruct (shl_align p e0 f) as [mz ez]. cbn [fst snd] in Hez, Hmz.
  replace (Z.min e0 f) with f in * by lia. subst ez.
  destruct (binary_round_aux_anatomy false (Z.pos mz) f loc_Exact) as (m2 & Hm2 & Hexact & ->);
    [lia|].
  assert (Zdigits2 (Z.pos mz) + f = Zdigits2 (Z.pos p) + e0) as Hdz
    by (rewrite Hmz, Zdigits2_shift by lia; lia).
  rewrite Hdz in Hm2, Hexact |- *. fold f in Hm2, Hexact |- *.
  replace (Z.max f f) with f in * by lia.
  rewrite Z.sub_diag in Hm2, Hexact. change (2 ^ 0) with 1 in *.
  rewrite Z.div_1_r in Hm2, Hexact.
  rewrite (Hexact eq_refl (Z.mod_1_r _)).
  assert (Zdigits2 (Z.pos mz) ≤ 53) as Hdmz by lia.
  assert (Z.pos mz < 2 ^ 53) by (apply Zdigits2_lt_pow; [lia|done]).
  destruct (second_step (Z.pos mz) f) as [(_ & -> & ->)|(Heq & _)]; [lia|lia| |lia].
  destruct (Z.leb_spec f 971); [|lia].
  exists mz, f. split; [done|]. split; [lia|]. exact Hmz.
Qed.

(** The remainder by ten is at most the number, so their difference is
    not negative. *)
Lemma sub_fmod_ten_sign x :
  bounded_float 1024 x → sign_is false x → sign_is false (sub x (fmod x (of_Z 10))).
Proof.
  rewrite ten_eq. destruct x as [s|s| |s m e]; try done.
  { cbn [sign_is]. intros _ ->. done. }
  cbn [sign_is bounded_float]. intros (He & Hd & Hde) ->.
  cbn [fmod cond_Zopp].
  set (e0 := Z.min e (-49)).
  set (X := Z.pos m * 2 ^ (e - e0)).
  set (Y := 5629499534213120 * 2 ^ (-49 - e0)).
  pose proof (pow2_pos (-49 - e0) ltac:(lia)) as HpY.
  pose proof (pow2_pos (e - e0) ltac:(lia)) as HpX.
  assert (0 < Y) as HY by (unfold Y; lia).
  assert (0 < X) as HX by (unfold X; lia).
  assert (0 ≤ X mod Y < Y) as HR by (apply Z.mod_pos_bound; lia).
  assert (X mod Y ≤ X) as HRX by (apply Z.mod_le; lia).
  destruct (decide (X mod Y = 0)) as [->|Hnz]; [done|].
  assert (Zdigits2 (X mod Y) ≤ 53) as Hdig.
  { apply Zdigits2_le; [lia..|].
    destruct (decide (e ≤ -49)) as [Hle|Hgt].
    - assert (X = Z.pos m) as HXm
        by (unfold X, e0; replace (e - Z.min e (-49)) with 0 by lia; lia).
      assert (Z.pos m < 2 ^ 53) by (apply Zdigits2_lt_pow; [lia|done]). lia.
    - assert (Y = 5629499534213120) as HYm
        by (unfold Y, e0; replace (-49 - Z.min e (-49)) with 0 by lia; lia).
      change (2 ^ 53) with 9007199254740992. lia. }
  destruct (binary_normalize_exact (X mod Y) e0) as (mr & er & -> & Her & Hmr);
    [lia|done|lia| |].
  { assert (Zdigits2 (X mod Y) ≤ Zdigits2 (Z.pos m) + (e - e0)); [|simpl in *; lia].
    apply Zdigits2_le; [lia| |].
    - pose proof (Zdigits2_nonneg (Z.pos m)). lia.
    - eapply Z.le_lt_trans; [exact HRX|]. unfold X.
      rewrite Z.pow_add_r by (pose proof (Zdigits2_nonneg (Z.pos m)); lia).
      assert (Z.pos m < 2 ^ Zdigits2 (Z.pos m)) by (apply Zdigits2_lt_pow; lia). nia. }
  unfold sub. cbn [SFsub].
  set (ez := Z.min e er).
  destruct (shl_align_spec m e ez) as [_ ->].
  destruct (shl_align_spec mr er ez) as [_ ->].
  replace (Z.min e ez) with ez by lia. replace (Z.min er ez) with ez by lia.
  cbn [cond_Zopp]. apply binary_normalize_sign.
  assert (ez = er) as -> by lia. rewrite Z.sub_diag, Z.mul_1_r, Hmr.
  replace (e - er) with (e - e0 + (e0 - er)) by lia.
  rewrite Z.pow_add_r, Z.mul_assoc by lia. fold X.
  pose proof (pow2_pos (e0 - er) ltac:(lia)). nia.
Qed.

Lemma div_eucl_nonneg a b : 0 ≤ a → 0 < b → 0 ≤ (Z.div_eucl a b).1.
Proof. intros Ha Hb. change (Z.div_eucl a b).1 with (a / b). by apply Z.div_pos. Qed.

(** A quotient of floats has the sign of the signs. *)
Lemma div_sign sx mx ex sy my ey :
  sign_is (xorb sx sy)
    (SFdiv prec emax (S754_finite sx mx ex) (S754_finite sy my ey)).
Proof.
  cbn [SFdiv]. unfold SFdiv_core_binary.
  match goal with
  | |- context [Z.div_eucl ?a ?b] =>
      assert (0 ≤ a) as Ha;
      [|pose proof (div_eucl_nonneg a b Ha ltac:(lia)) as Hq;
        destruct (Z.div_eucl a b) as [q r]]
  end.
  - match goal with |- 0 ≤ match ?s with _ => _ end => destruct s as [|k|k] end; [lia| |lia].
    rewrite Z.shiftl_mul_pow2 by lia. pose proof (pow2_pos (Z.pos k) ltac:(lia)). lia.
  - cbn [fst] in Hq. by apply binary_round_aux_sign.
Qed.

Lemma div_ten_sign x :
  is_finite x = true → sign_is false x → sign_is false (SFdiv prec emax x (of_Z 10)).
Proof.
  rewrite ten_eq. destruct x as [s|s| |s m e]; try done; cbn [sign_is]; intros _ ->.
  - done.
  - apply (div_sign false m e false).
Qed.

Lemma floor_sign x : sign_is false x → sign_is false (floor x).
Proof.
  destruct x as [s|s| |s m e]; try done. cbn [sign_is floor]. intros ->.
  destruct (Z.leb_spec 0 e); [done|]. apply binary_normalize_sign.
  apply Z.div_pos; [lia|]. apply pow2_pos. lia.
Qed.

Lemma add_one_sign x : is_finite x = true → sign_is false x → sign_is false (add x (of_Z 1)).
Proof.
  rewrite one_eq. unfold add.
  destruct x as [s|s| |s m e]; try done; cbn [sign_is SFadd]; intros _ ->.
  set (ez := Z.min e (-52)).
  apply binary_normalize_sign. cbn [cond_Zopp]. lia.
Qed.

Lemma to_int_nonneg x :
  is_finite x = true → sign_is false x → ∃ z, to_int x = Ok z ∧ 0 ≤ z.
Proof.
  destruct x as [s|s| |s m e]; try done; cbn [sign_is to_int]; intros _ ->.
  - by exists 0.
  - eexists. split; [done|]. cbn [cond_Zopp].
    destruct (Z.leb_spec 0 e).
    + pose proof (pow2_pos e ltac:(lia)). lia.
    + apply Z.div_pos; [lia|]. apply pow2_pos. lia.
Qed.

(** [x // 10] on a non-negative float is a non-negative float. *)
Lemma floordiv_ten_nonneg x :
  bounded_float 1024 x → sign_is false x →
  ∃ t count,
    floordiv x (of_Z 10) = Ok t ∧ bounded_float 1024 t
    ∧ to_int t = Ok count ∧ 0 ≤ count.
Proof.
  intros Hx Sx.
  assert (∀ t, bounded_float 1024 t → sign_is false t →
               ∃ t' count, Ok t = Ok t' ∧ bounded_float 1024 t'
                           ∧ to_int t' = Ok count ∧ 0 ≤ count) as Hout.
  { intros t Ht St.
    destruct (to_int_nonneg t (bounded_finite _ _ Ht) St) as (z & Hz & Hz0).
    by exists t, z. }
  unfold floordiv.
  assert (eqb (of_Z 10) zero = false) as -> by (vm_compute; reflexivity).
  assert (ltb (of_Z 10) zero = false) as -> by (vm_compute; reflexivity).
  destruct (fmod_ten_bounded x Hx Sx) as [Hr Sr].
  rewrite (bounded_not_negative _ _ Hr Sr). cbn [xorb]. rewrite andb_false_r.
  pose proof (sub_nonneg_bounded x _ Hx Sx (bounded_weaken 5 1024 _ ltac:(lia) Hr) Sr) as Hd.
  pose proof (sub_fmod_ten_sign x Hx Sx) as Sd.
  pose proof (div_ten_bounded _ Hd) as Hq.
  pose proof (div_ten_sign _ (bounded_finite _ _ Hd) Sd) as Sq.
  set (q := SFdiv prec emax (sub x (fmod x (of_Z 10))) (of_Z 10)) in *.
  destruct (negb (eqb q zero)); [|by eexists _, 0].
  pose proof (floor_bounded 1022 q ltac:(lia) Hq) as Hfl.
  pose proof (floor_sign q Sq) as Sfl.
  destruct (ltb (of_ratio 1 2) (sub q (floor q))).
  - apply Hout; [by apply (add_one_bounded 1022)|].
    apply add_one_sign; [by apply (bounded_finite 1022)|done].
  - apply Hout; [by apply (bounded_weaken 1022)|done].
Qed.

End F64Signs.

(** ** Parsed numbers *)

Module ParseFacts.
Import F64 F64Facts F64Signs.

Lemma of_ratio_finite n d :
  is_finite (of_ratio n d) = true → bounded_float 1024 (of_ratio n d).
Proof. unfold of_ratio. apply binary_normalize_finite. Qed.

Lemma of_Z_finite z : is_finite (of_Z z) = true → bounded_float 1024 (of_Z z).
Proof. unfold of_Z. apply binary_normalize_finite. Qed.

Lemma of_decimal_finite neg m e :
  is_finite (of_decimal neg m e) = true → bounded_float 1024 (of_decimal neg m e).
Proof.
  unfold of_decimal.
  destruct (m =? 0); [done|].
  destruct (0 <=? e).
  { destruct (1025 <=? _); [done|]. apply binary_normalize_finite. }
  destruct (_ <? _); [done|].
  pose proof (of_ratio_finite m (10 ^ (- e))) as Hratio.
  destruct (of_ratio m (10 ^ (- e))) as [s|s| |s mm ee]; try done.
Qed.

Lemma parse_inf_or_nan_not_finite s x :
  Parse.parse_inf_or_nan s = Some x → is_finite x = false.
Proof.
  unfold Parse.parse_inf_or_nan.
  destruct (Parse.split_sign s) as [neg s1].
  destruct (Parse.case_insensitive_match s1 (str_of "inf")) as [r|].
  - destruct (match Parse.case_insensitive_match r (str_of "inity") with
              | Some r' => r' | None => r end); [|done].
    by intros [= <-].
  - destruct (Parse.case_insensitive_match s1 (str_of "nan")) as [[|]|]; try done.
    by intros [= <-].
Qed.

Lemma string_to_double_finite s x :
  Parse.string_to_double s = Some x → is_finite x = true → bounded_float 1024 x.
Proof.
  unfold Parse.string_to_double.
  destruct (Parse.split_sign s) as [neg s1].
  destruct (Parse.span Parse.is_digit s1) as [ip s2].
  destruct (match s2 with
            | 46%N :: r => Parse.span Parse.is_digit r
            | _ => ([], s2)
            end) as [fp s3].
  destruct (ip ++ fp) as [|d ds].
  { intros Hx Hfin. by rewrite (parse_inf_or_nan_not_finite s x Hx) in Hfin. }
  destruct s3 as [|c r].
  { intros Hx. apply (inj Some) in Hx. subst x. apply of_decimal_finite. }
  destruct (_ || _); [|done].
  destruct (Parse.split_sign r) as [esign r1].
  destruct (Parse.span Parse.is_digit r1) as [ed r2].
  destruct ed as [|e0 ed]; [done|]. destruct r2; [|done].
  intros Hx. apply (inj Some) in Hx. subst x. apply of_decimal_finite.
Qed.

(** A finite value that [float] parses is a float of the format. *)
Lemma float_of_str_finite s x :
  Parse.float_of_str s = Ok x → is_finite x = true → bounded_float 1024 x.
Proof.
  unfold Parse.float_of_str.
  destruct (lstrip_with Parse.ascii_isspace _) as [|c r]; [done|].
  match goal with
  | |- context [?s' ≫= Parse.string_to_double] =>
      destruct s' as [t|]; cbn [mbind option_bind]; [|done]
  end.
  destruct (Parse.string_to_double t) as [y|] eqn:Hy; [|done].
  intros Hx%Ok_inj. subst y. by apply (string_to_double_finite t).
Qed.

End ParseFacts.

(** ** Numbers to patterns, field by field *)

Lemma float_same_eq x y : float_same x y = true → x = y.
Proof.
  destruct x as [s|s| |s m e], y as [s'|s'| |s' m' e']; try done; cbn [float_same].
  - by intros ->%eqb_prop.
  - by intros ->%eqb_prop.
  - rewrite !andb_true_iff. by intros [[->%eqb_prop ->%Pos.eqb_eq] ->%Z.eqb_eq].
Qed.

Section NumberFacts.

Variable pow : float -> float -> float.
Variable round_ndigits : float -> Z -> float.

#[local] Abbreviation to_pattern := (number_to_pattern pow round_ndigits).

(** What [number_to_pattern] computes for a float of the format. *)
Lemma number_to_pattern_anatomy number :
  bounded_float 1024 number →
  ∃ phase turn hue tens whole count,
    F64.rem (F64.abs number) (F64.of_Z 100) = Ok phase
    ∧ F64.rem (F64.abs number) (F64.of_Z 10) = Ok turn
    ∧ F64.rem (F64.mul (F64.abs number) (F64.of_Z 30)) (F64.of_Z 360) = Ok hue
    ∧ F64.floordiv (F64.abs number) (F64.of_Z 10) = Ok tens
    ∧ F64.to_int (F64.abs number) = Ok whole ∧ 0 ≤ whole
    ∧ F64.to_int tens = Ok count ∧ 0 ≤ count
    ∧ to_pattern number
      = Ok (JObj
          [ (str_of "frequency",
              JFloat (round_ndigits
                        (F64.mul (F64.of_Z 100)
                           (pow (F64.of_Z 10)
                              (SFdiv F64.prec F64.emax phase (F64.of_Z 100)))) 2));
            (str_of "pattern", JStr (pattern_by_divisibility number));
            (str_of "oscillator_count", JInt (Z.min (count + 1) 5));
            (str_of "visual",
              JObj [ (str_of "sides", JInt (3 + whole mod 7));
                     (str_of "rotation_speed", JFloat (F64.add turn (F64.of_Z 1)));
                     (str_of "color_hue", JFloat hue);
                     (str_of "particle_count", JInt (Z.min whole 100)) ]);
            (str_of "is_negative", JBool (F64.ltb number F64.zero));
            (str_of "magnitude", JFloat (F64.abs number)) ]).
Proof.
  intros Hb.
  assert (bounded_float 1024 (F64.abs number) ∧ sign_is false (F64.abs number)) as [Hab Hsign]
    by (by destruct number).
  destruct (rem_ok (F64.abs number) 100) as [phase Hphase]; [done|].
  destruct (rem_ok (F64.abs number) 10) as [turn Hturn]; [done|].
  destruct (rem_ok (F64.mul (F64.abs number) (F64.of_Z 30)) 360) as [hue Hhue]; [done|].
  destruct (F64Signs.floordiv_ten_nonneg _ Hab Hsign) as (tens & count & Htens & _ & Hcount & Hc0).
  destruct (F64Signs.to_int_nonneg _ (F64Facts.bounded_finite _ _ Hab) Hsign)
    as (whole & Hwhole & Hw0).
  exists phase, turn, hue, tens, whole, count.
  do 4 (split; [assumption|]). split; [assumption|]. split; [assumption|].
  split; [assumption|]. split; [assumption|].
  unfold number_to_pattern. rewrite select_pattern_total.
  rewrite Hphase, Hturn, Hhue, Htens, Hwhole. cbn [mbind result_bind].
  assert (F64.eqb (F64.of_Z 100) F64.zero = false) as H100 by (vm_compute; reflexivity).
  unfold F64.div. rewrite H100. cbn [mbind result_bind].
  rewrite Hcount. reflexivity.
Qed.

(** X25: for every finite number the result of [number_to_pattern] has
    the six keys [frequency], [pattern], [oscillator_count], [visual],
    [is_negative] and [magnitude], with 1 to 5 oscillators, a polygon of 3
    to 9 sides and 0 to 100 particles. *)
Theorem number_to_pattern_ranges number :
  is_binary64 number = true → F64.is_finite number = true →
  ∃ obj visual count sides particles,
    to_pattern number = Ok (JObj obj)
    ∧ obj.*1 = [ str_of "frequency"; str_of "pattern"; str_of "oscillator_count";
                 str_of "visual"; str_of "is_negative"; str_of "magnitude" ]
    ∧ dict_get obj (str_of "oscillator_count") = Some (JInt count) ∧ 1 ≤ count ≤ 5
    ∧ dict_get obj (str_of "visual") = Some (JObj visual)
    ∧ dict_get visual (str_of "sides") = Some (JInt sides) ∧ 3 ≤ sides ≤ 9
    ∧ dict_get visual (str_of "particle_count") = Some (JInt particles)
    ∧ 0 ≤ particles ≤ 100.
Proof.
  intros Hvalid Hfin.
  destruct (number_to_pattern_anatomy number (F64Facts.valid_bounded number Hvalid Hfin))
    as (phase & turn & hue & tens & whole & count & _ & _ & _ & _ & _ & Hw & _ & Hc & ->).
  eexists _, _, _, _, _. split; [reflexivity|]. split; [reflexivity|].
  split; [reflexivity|]. split; [lia|]. split; [reflexivity|].
  split; [reflexivity|]. split; [pose proof (Z.mod_pos_bound whole 7); lia|].
  split; [reflexivity|]. lia.
Qed.

(** X26: for a finite number so large that [abs_num * 30] overflows,
    [number_to_pattern] still returns a result, whose [color_hue] is
    NaN. *)
Theorem number_to_pattern_hue_overflows number :
  is_binary64 number = true → F64.is_finite number = true →
  F64.is_finite (F64.mul (F64.abs number) (F64.of_Z 30)) = false →
  ∃ obj visual,
    to_pattern number = Ok (JObj obj)
    ∧ dict_get obj (str_of "visual") = Some (JObj visual)
    ∧ dict_get visual (str_of "color_hue") = Some (JFloat S754_nan).
Proof.
  intros Hvalid Hfin Hover.
  destruct (number_to_pattern_anatomy number (F64Facts.valid_bounded number Hvalid Hfin))
    as (phase & turn & hue & tens & whole & count & _ & _ & Hhue & _ & _ & _ & _ & _ & ->).
  assert (hue = S754_nan) as ->.
  { assert (F64.of_Z 30 = S754_finite false 8444249301319680 (-48)) as H30
      by (vm_compute; reflexivity).
    assert (∃ s, F64.mul (F64.abs number) (F64.of_Z 30) = S754_infinity s) as [s Hinf].
    { rewrite H30 in Hover |- *. destruct number as [s|s| |s m e]; try done.
      cbn [F64.abs SFabs F64.mul SFmul] in Hover |- *.
      pose proof (F64Signs.binary_round_aux_not_nan (xorb false false)
                    (Z.pos (m * 8444249301319680)) (e + -48) loc_Exact ltac:(lia)) as Hs.
      destruct (binary_round_aux _ _ _ _ _ _) as [s'|s'| |s' m' e']; try done.
      by exists s'. }
    rewrite Hinf in Hhue. apply Ok_inj in Hhue. rewrite <- Hhue.
    vm_compute. reflexivity. }
  eexists _, _. split; [reflexivity|]. split; reflexivity.
Qed.

Lemma int_pattern_small z : -1000 ≤ z ≤ 1000 → int_pattern_ok z = true.
Proof.
  intros Hz.
  assert (forallb int_pattern_ok (seqZ (-1000) 2001) = true) as Hall
    by (vm_compute; reflexivity).
  rewrite forallb_forall in Hall. apply Hall, list_elem_of_In, elem_of_seqZ. lia.
Qed.

(** X27: on the ints from -1000 to 1000 the floating-point computations
    of [number_to_pattern] agree with the integer ones: [min(|z| // 10 + 1,
    5)] oscillators, [3 + |z| % 7] sides, rotation speed [|z| % 10 + 1],
    colour hue [|z| * 30 % 360], [min(|z|, 100)] particles, the pattern of
    the divisors of [z], its sign and its magnitude. *)
Theorem number_to_pattern_of_small_int z :
  -1000 ≤ z ≤ 1000 →
  ∃ obj visual,
    to_pattern (F64.of_Z z) = Ok (JObj obj)
    ∧ dict_get obj (str_of "oscillator_count") = Some (JInt (Z.min (Z.abs z / 10 + 1) 5))
    ∧ dict_get obj (str_of "pattern") = Some (JStr (pattern_of_int z))
    ∧ dict_get obj (str_of "is_negative") = Some (JBool (z <? 0))
    ∧ dict_get obj (str_of "magnitude") = Some (JFloat (F64.of_Z (Z.abs z)))
    ∧ dict_get obj (str_of "visual") = Some (JObj visual)
    ∧ visual = [ (str_of "sides", JInt (3 + Z.abs z mod 7));
                 (str_of "rotation_speed", JFloat (F64.of_Z (Z.abs z mod 10 + 1)));
                 (str_of "color_hue", JFloat (F64.of_Z (Z.abs z * 30 mod 360)));
                 (str_of "particle_count", JInt (Z.min (Z.abs z) 100)) ].
Proof.
  intros Hz. pose proof (int_pattern_small z Hz) as Hok.
  assert (bounded_float 1024 (F64.of_Z z)) as Hb.
  { apply (F64Facts.bounded_weaken 12); [lia|].
    apply (F64Facts.binary_normalize_bounded z 0 false 11); [|lia].
    rewrite <- F64Facts.Zdigits2_abs, Z.add_0_r.
    apply F64Facts.Zdigits2_le; [lia..|]. change (2 ^ 11) with 2048. lia. }
  destruct (number_to_pattern_anatomy _ Hb)
    as (phase & turn & hue & tens & whole & count
        & _ & Hturn & Hhue & Htens & Hwhole & _ & Hcount & _ & ->).
  unfold int_pattern_ok in Hok. cbv zeta in Hok.
  rewrite Hwhole, Htens, Hturn, Hhue, Hcount in Hok.
  apply andb_true_iff in Hok as [[[Hw%Z.eqb_eq Hc%Z.eqb_eq]%andb_true_iff
                                   Ht%float_same_eq]%andb_true_iff Hh%float_same_eq].
  subst whole count hue. rewrite Ht.
  rewrite (pattern_by_divisibility_small_ints z Hz).
  assert (F64.ltb (F64.of_Z z) F64.zero = (z <? 0)
          ∧ F64.abs (F64.of_Z z) = F64.of_Z (Z.abs z)) as [-> ->].
  { clear -Hz.
    assert (forallb (fun z => Bool.eqb (F64.ltb (F64.of_Z z) F64.zero) (z <? 0)
                              && float_same (F64.abs (F64.of_Z z)) (F64.of_Z (Z.abs z)))
              (seqZ (-1000) 2001) = true) as Hall by (vm_compute; reflexivity).
    rewrite forallb_forall in Hall.
    specialize (Hall z). apply andb_true_iff in Hall as [?%eqb_prop ?%float_same_eq]; [done|].
    apply list_elem_of_In, elem_of_seqZ. lia. }
  eexists _, _. repeat split.
Qed.

End NumberFacts.


Lemma number_to_pattern_ranges_witness :
  ∃ obj, number_to_pattern (fun x _ => x) (fun x _ => x) (F64.of_decimal true 1234567 (-2))
         = Ok (JObj obj).
Proof.
  destruct (number_to_pattern_ranges (fun x _ => x) (fun x _ => x)
              (F64.of_decimal true 1234567 (-2)))
    as (obj & _ & _ & _ & _ & Hobj & _); [vm_compute; reflexivity..|].
  exists obj. exact Hobj.
Defined.

Lemma number_to_pattern_hue_overflows_witness :
  ∃ obj, number_to_pattern (fun x _ => x) (fun x _ => x) (F64.of_decimal false 1 308)
         = Ok (JObj obj).
Proof.
  destruct (number_to_pattern_hue_overflows (fun x _ => x) (fun x _ => x)
              (F64.of_decimal false 1 308))
    as (obj & _ & Hobj & _); [vm_compute; reflexivity..|].
  exists obj. exact Hobj.
Defined.

Lemma number_to_pattern_of_small_int_witness :
  ∃ obj, number_to_pattern (fun x _ => x) (fun x _ => x) (F64.of_Z (-37)) = Ok (JObj obj).
Proof.
  destruct (number_to_pattern_of_small_int (fun x _ => x) (fun x _ => x) (-37))
    as (obj & _ & Hobj & _); [lia|].
  exists obj. exact Hobj.
Defined.

(** ** The routes *)

Lemma hex_color_not_empty s : is_hex_color (strip s) = true → s ≠ [].
Proof. by intros Hcolor ->. Qed.

Section AutoTheorems.

Variable pow : float -> float -> float.
Variable log2 : float -> float.
Variable round_ndigits : float -> Z -> float.
Variable sum_floats : list json -> json.
Variable self : ContentMapper.

#[local] Abbreviation auto := (map_auto pow log2 round_ndigits sum_floats self).
#[local] Abbreviation to_pattern := (number_to_pattern pow round_ndigits).
#[local] Abbreviation to_sound := (color_to_sound round_ndigits).
#[local] Abbreviation mappings := (text_to_frequencies pow log2 round_ndigits self).

Lemma map_auto_color data content t :
  dict_get data (str_of "content") = Some content →
  detect_content_type content = detected "color" (JStr t) →
  auto data
  = (mapping ← to_sound t;
     Ok (JObj [ (str_of "detected", JObj (detected "color" (JStr t)));
                (str_of "mapping", mapping) ])).
Proof.
  intros Hget Hdet. unfold map_auto. rewrite Hget. cbv [default from_option id].
  rewrite Hdet. reflexivity.
Qed.

Lemma map_auto_text data content t :
  dict_get data (str_of "content") = Some content →
  detect_content_type content = detected "text" (JStr t) →
  auto data
  = (entries ← mappings t;
     Ok (JObj [ (str_of "detected", JObj (detected "text" (JStr t)));
                (str_of "mapping",
                  JObj [ (str_of "mappings", JList entries);
                         (str_of "total_duration", sum_floats entries) ]) ])).
Proof.
  intros Hget Hdet. unfold map_auto. rewrite Hget. cbv [default from_option id].
  rewrite Hdet.
  change (dict_get (detected "text" (JStr t)) (str_of "type")) with (Some (JStr (str_of "text"))).
  change (dict_get (detected "text" (JStr t)) (str_of "value")) with (Some (JStr t)).
  cbv iota. rewrite bool_decide_eq_true_2 by done.
  destruct (mappings t) as [entries|]; reflexivity.
Qed.

(** X21: for a content that is a colour, [map_auto] answers with the
    stripped colour as detected value and the result of [color_to_sound]
    on it as mapping, which has no [error]. *)
Theorem map_auto_of_colour data s :
  dict_get data (str_of "content") = Some (JStr s) →
  is_hex_color (strip s) = true →
  ∃ obj,
    to_sound (strip s) = Ok (JObj obj)
    ∧ dict_get obj (str_of "error") = None
    ∧ auto data
      = Ok (JObj [ (str_of "detected", JObj (detected "color" (JStr (strip s))));
                   (str_of "mapping", JObj obj) ]).
Proof.
  intros Hget Hcolor.
  assert (detect_content_type (JStr s) = detected "color" (JStr (strip s))) as Hdet
    by (rewrite (detect_content_type_stripped s (hex_color_not_empty s Hcolor)); by rewrite Hcolor).
  destruct (hex_color_rgb _ Hcolor) as (r & g & b & Hrgb & Hr & Hg & Hb).
  destruct (color_to_sound_rgb round_ndigits _ r g b Hrgb Hr Hg Hb)
    as (obj & hsl & frequency & volume & waveform & Hsound & Herror & _).
  exists obj. split; [exact Hsound|]. split; [exact Herror|].
  rewrite (map_auto_color data _ _ Hget Hdet), Hsound. reflexivity.
Qed.


(** X23: for a content detected as a number, [map_auto] returns a
    result exactly when the number is finite, and then the mapping is the
    result of [number_to_pattern]. *)
Theorem map_auto_of_number data s x :
  dict_get data (str_of "content") = Some (JStr s) →
  detect_content_type (JStr s) = detected "number" (JFloat x) →
  is_ok (auto data) = F64.is_finite x
  ∧ (F64.is_finite x = true →
     ∃ obj,
       to_pattern x = Ok (JObj obj)
       ∧ auto data
         = Ok (JObj [ (str_of "detected", JObj (detected "number" (JFloat x)));
                      (str_of "mapping", JObj obj) ])).
Proof.
  intros Hget Hdet.
  rewrite (map_auto_number pow log2 round_ndigits sum_floats self data _ x Hget Hdet).
  assert (F64.is_finite x = true →
          ∃ obj, to_pattern x = Ok (JObj obj)) as Hfinite.
  { intros Hfin.
    assert (Parse.float_of_str (strip s) = Ok x) as Hparse.
    { destruct (decide (s = [])) as [->|Hs]; [discriminate Hdet|].
      rewrite (detect_content_type_stripped s Hs) in Hdet.
      assert (str_of "color" ≠ str_of "number") by (vm_compute; congruence).
      assert (str_of "text" ≠ str_of "number") by (vm_compute; congruence).
      assert (str_of "unknown" ≠ str_of "number") by (vm_compute; congruence).
      destruct (is_hex_color (strip s)); [unfold detected in Hdet; congruence|].
      destruct (Parse.float_of_str (strip s)) as [y|e].
      - unfold detected in Hdet. congruence.
      - destruct (negb _); unfold detected, unknown in Hdet; congruence. }
    pose proof (ParseFacts.float_of_str_finite _ _ Hparse Hfin) as Hb.
    destruct (number_to_pattern_anatomy pow round_ndigits x Hb)
      as (? & ? & ? & ? & ? & ? & _ & _ & _ & _ & _ & _ & _ & _ & Hobj).
    by eexists. }
  destruct (F64.is_finite x) eqn:Hfin.
  - destruct (Hfinite eq_refl) as [obj Hobj]. rewrite Hobj. split; [done|].
    intros _. by exists obj.
  - split; [|discriminate].
    pose proof (number_to_pattern_nonfinite pow round_ndigits x Hfin) as Hraise.
    by destruct (to_pattern x).
Qed.

(** X24: for a content that is text, [map_auto] maps the stripped text
    with [text_to_frequencies] and answers with the entries, one for each
    character, and their total duration. *)
Theorem map_auto_of_text data s :
  dict_get data (str_of "content") = Some (JStr s) →
  is_hex_color (strip s) = false → is_ok (Parse.float_of_str (strip s)) = false →
  strip s ≠ [] →
  auto data
  = (entries ← mappings (strip s);
     Ok (JObj [ (str_of "detected", JObj (detected "text" (JStr (strip s))));
                (str_of "mapping",
                  JObj [ (str_of "mappings", JList entries);
                         (str_of "total_duration", sum_floats entries) ]) ]))
  ∧ (∀ entries, mappings (strip s) = Ok entries → length entries = length (strip s)).
Proof.
  intros Hget Hcolor Hfloat Hne. split.
  - apply (map_auto_text data (JStr s)); [done|].
    assert (s ≠ []) as Hs by (by intros ->).
    rewrite (detect_content_type_stripped s Hs), Hcolor.
    destruct (Parse.float_of_str (strip s)); [discriminate Hfloat|].
    by rewrite bool_decide_eq_false_2.
  - intros entries Hok.
    by apply (text_to_frequencies_from_length pow log2 round_ndigits self (strip s) 0).
Qed.

End AutoTheorems.

Section RouteTheorems.

Variable pow : float -> float -> float.
Variable round_ndigits : float -> Z -> float.

#[local] Abbreviation to_pattern := (number_to_pattern pow round_ndigits).
#[local] Abbreviation number_route := (map_number pow round_ndigits).
#[local] Abbreviation color_route := (map_color round_ndigits).

#[local] Abbreviation to_sound := (color_to_sound round_ndigits).

Lemma float_of_json_bounded v x :
  float_of_json v = Ok x → F64.is_finite x = true →
  (∀ y, v = JFloat y → is_binary64 y = true) →
  bounded_float 1024 x.
Proof.
  intros Hx Hfin Hvalid. destruct v as [|b|z|y|s|l|d]; try discriminate Hx.
  - apply Ok_inj in Hx. subst x. by apply ParseFacts.of_Z_finite.
  - cbn [float_of_json] in Hx. destruct (F64.is_finite (F64.of_Z z)); [|discriminate Hx].
    apply Ok_inj in Hx. subst x. by apply ParseFacts.of_Z_finite.
  - apply Ok_inj in Hx. subst y. apply F64Facts.valid_bounded; [by apply Hvalid|done].
  - by apply (ParseFacts.float_of_str_finite s).
Qed.

Lemma map_number_rejected data v :
  dict_get data (str_of "number") = Some v →
  is_ok (float_of_json v) = false →
  number_route data
  = match v with
    | JInt _ => Raise OverflowError
    | _ => Ok (invalid_number, 400)
    end.
Proof.
  intros Hget Hbad. unfold map_number. rewrite Hget. cbv [default from_option id].
  destruct v as [|b|z|y|s|l|d]; try done.
  - cbn [float_of_json] in Hbad |- *. by destruct (F64.is_finite (F64.of_Z z)).
  - cbn [float_of_json] in Hbad |- *.
    assert (∀ e, Parse.float_of_str s = Raise e → e = ValueError) as Hvalue.
    { unfold Parse.float_of_str. intros e.
      destruct (lstrip_with _ _); [by intros [= <-]|].
      destruct (_ ≫= _); [discriminate|by intros [= <-]]. }
    destruct (Parse.float_of_str s) as [x|e] eqn:Hs; [discriminate Hbad|].
    by rewrite (Hvalue e eq_refl).
Qed.

Lemma map_number_accepted data x :
  float_of_json (default (JInt 0) (dict_get data (str_of "number"))) = Ok x →
  (∀ y, dict_get data (str_of "number") = Some (JFloat y) → is_binary64 y = true) →
  is_ok (number_route data) = F64.is_finite x
  ∧ (F64.is_finite x = true →
     ∃ obj,
       to_pattern x = Ok (JObj obj)
       ∧ number_route data = Ok (JObj (dict_set obj (str_of "input") (JFloat x)), 200)).
Proof.
  intros Hx Hvalid. unfold map_number. rewrite Hx.
  destruct (F64.is_finite x) eqn:Hfin.
  - assert (bounded_float 1024 x) as Hb.
    { apply (float_of_json_bounded _ x Hx Hfin). intros y Hy. apply Hvalid.
      by destruct (dict_get data (str_of "number")) as [v|]; [rewrite <- Hy|]. }
    destruct (number_to_pattern_anatomy pow round_ndigits x Hb)
      as (? & ? & ? & ? & ? & ? & _ & _ & _ & _ & _ & _ & _ & _ & ->).
    split; [reflexivity|]. intros _. eexists. split; reflexivity.
  - split; [|discriminate].
    pose proof (number_to_pattern_nonfinite pow round_ndigits x Hfin) as Hraise.
    by destruct (to_pattern x).
Qed.



End RouteTheorems.


Lemma map_auto_of_colour_witness :
  ∃ obj,
    color_to_sound (fun x _ => x) (strip (str_of " #fa0 ")) = Ok (JObj obj)
    ∧ dict_get obj (str_of "error") = None.
Proof.
  destruct (map_auto_of_colour (fun x _ => x) (fun x => x) (fun x _ => x) (fun _ => JNull)
              (new_mapper (str_of "major"))
              [ (str_of "content", JStr (str_of " #fa0 ")) ] (str_of " #fa0 "))
    as (obj & Hsound & Herror & _); [reflexivity|vm_compute; reflexivity|].
  exists obj. exact (conj Hsound Herror).
Defined.


Lemma map_auto_of_number_witness :
  is_ok (map_auto (fun x _ => x) (fun x => x) (fun x _ => x) (fun _ => JNull)
           (new_mapper (str_of "major")) [ (str_of "content", JStr (str_of "1e3")) ])
  = F64.is_finite (F64.of_Z 1000).
Proof.
  apply (proj1 (map_auto_of_number (fun x _ => x) (fun x => x) (fun x _ => x) (fun _ => JNull)
                  (new_mapper (str_of "major"))
                  [ (str_of "content", JStr (str_of "1e3")) ] (str_of "1e3") (F64.of_Z 1000)
                  ltac:(reflexivity) ltac:(vm_compute; reflexivity))).
Defined.

Lemma map_auto_of_text_witness :
  map_auto (fun x _ => x) (fun x => x) (fun x _ => x) (fun _ => JNull)
    (new_mapper (str_of "major")) [ (str_of "content", JStr (str_of " hi ")) ]
  = (entries ← text_to_frequencies (fun x _ => x) (fun x => x) (fun x _ => x)
                 (new_mapper (str_of "major")) (strip (str_of " hi "));
     Ok (JObj [ (str_of "detected", JObj (detected "text" (JStr (strip (str_of " hi ")))));
                (str_of "mapping",
                  JObj [ (str_of "mappings", JList entries);
                         (str_of "total_duration", (fun _ => JNull) entries) ]) ])).
Proof.
  apply (proj1 (map_auto_of_text (fun x _ => x) (fun x => x) (fun x _ => x) (fun _ => JNull)
                  (new_mapper (str_of "major"))
                  [ (str_of "content", JStr (str_of " hi ")) ] (str_of " hi ")
                  ltac:(reflexivity) ltac:(vm_compute; reflexivity)
                  ltac:(vm_compute; reflexivity) ltac:(vm_compute; discriminate))).
Defined.
